(** * Contact-Manager: share codes, access grants and default lists

    A shallow embedding of the sharing and default-list code of the
    Contact-Manager backend:

    - [src/utils/userValidator.js] (share code generator part):
      [generateCode], [generateUniqueCode], [generateBatch],
      [isValidCode], [getTotalPossibleCodes], [generateCustomPattern],
      [generateWithPrefix];
    - [src/utils/userValidator.js] (validator part): [validateUser],
      [validateProfessionFields], [isValidEmail], [isValidMobile],
      [validateContact], [sanitizeInput];
    - [src/models/User.js]: [generateShareCode], [shareWith],
      [accessViaCode];
    - [src/models/List.js]: the virtuals [completedItemsCount],
      [pendingItemsCount] and [overdueItems]; [addItem], [updateItem],
      [deleteItem], [addAlarmToItem];
    - [src/models/Contact.js]: [addTask], [addMeeting],
      [addTransaction] and the [post('save')] hook.

    JavaScript strings are ASCII strings, dates are milliseconds since the
    epoch in [Z], [undefined]/[null] is [None].  The document store, the
    clock, [Math.random] and the ObjectId supply are the fields of a
    [World] that every operation threads through a state-and-exception
    monad; a method also threads [this], the document in memory it is
    called on, with the changes Mongoose has not saved yet.  An unbounded
    [while] loop takes fuel and answers [Diverged] when the fuel runs
    out. *)

From Stdlib Require Import List String Ascii Bool Arith ZArith QArith Qround Lia.
Import ListNotations.
Local Open Scope string_scope.
Local Open Scope nat_scope.

(* ================================================================== *)
(** * JavaScript primitives used by the sources *)
(* ================================================================== *)

Module JS.

(** [c.toUpperCase()] on one ASCII character. *)
Definition toUpperCaseChar (c : ascii) : ascii :=
  let n := nat_of_ascii c in
  if (97 <=? n) && (n <=? 122) then ascii_of_nat (n - 32) else c.

(** [s.toUpperCase()]. *)
Fixpoint toUpperCase (s : string) : string :=
  match s with
  | EmptyString => EmptyString
  | String c r => String (toUpperCaseChar c) (toUpperCase r)
  end.

(** [s[i]], converted to a string as [+=] and [includes] do:
    an index out of range gives [undefined]. *)
Definition at_index (s : string) (i : Z) : string :=
  if (i <? 0)%Z then "undefined"
  else match String.get (Z.to_nat i) s with
       | Some c => String c EmptyString
       | None => "undefined"
       end.

(** [s.includes(sub)]. *)
Definition includes (s sub : string) : bool :=
  match String.index 0 sub s with
  | Some _ => true
  | None => false
  end.

(** Truthiness of a string: only the empty string is falsy. *)
Definition truthy_string (s : string) : bool :=
  negb (String.length s =? 0).

(** Truthiness of a value that may be [undefined] or [null]. *)
Definition truthy_opt {A : Type} (truthy : A -> bool) (x : option A) : bool :=
  match x with
  | Some a => truthy a
  | None => false
  end.

(** Objects (documents, ObjectIds, Dates) are always truthy. *)
Definition truthy_object {A : Type} (x : option A) : bool :=
  truthy_opt (fun _ => true) x.

(** Truthiness of a number: zero is falsy. *)
Definition truthy_number (n : Z) : bool := negb (n =? 0)%Z.

(** Characters removed by [trim] (the ASCII white space and line
    terminators). *)
Definition isWhiteSpace (c : ascii) : bool :=
  let n := nat_of_ascii c in
  (n =? 32) || ((9 <=? n) && (n <=? 13)).

Fixpoint trimStart (s : string) : string :=
  match s with
  | EmptyString => EmptyString
  | String c r => if isWhiteSpace c then trimStart r else s
  end.

Fixpoint trimEnd (s : string) : string :=
  match s with
  | EmptyString => EmptyString
  | String c r =>
      match trimEnd r with
      | EmptyString => if isWhiteSpace c then EmptyString else String c EmptyString
      | r' => String c r'
      end
  end.

(** [s.trim()]. *)
Definition trim (s : string) : string := trimEnd (trimStart s).

(** A [Date] is its time value, in milliseconds. *)
Definition msPerMinute : Z := 60000.
Definition msPerHour : Z := 3600000.

(** [d.getMinutes()] and [d.setMinutes(m)], for a process whose time
    zone is UTC: [setMinutes] rebuilds the time value from the hour of
    [d], the given minute (which may lie outside 0..59) and the seconds
    and milliseconds of [d]. *)
Definition getMinutes (d : Z) : Z := ((d / msPerMinute) mod 60)%Z.

Definition setMinutes (d m : Z) : Z :=
  ((d / msPerHour) * msPerHour + m * msPerMinute + d mod msPerMinute)%Z.

(** Regular expressions, as far as the sources use them: one character
    of a class, one or more characters of a class ([[...]+]), and
    sequence. *)
Inductive RegExp :=
| One (class : ascii -> bool)
| OneOrMore (class : ascii -> bool)
| Seq (r1 r2 : RegExp).

(** One or more characters of the class at the start of [s], then [k] on
    the rest: every split is tried. *)
Fixpoint match_OneOrMore (class : ascii -> bool) (s : string) (k : string -> bool) : bool :=
  match s with
  | EmptyString => false
  | String c rest => class c && (k rest || match_OneOrMore class rest k)
  end.

(** [r] at the start of [s], then [k] on the rest. *)
Fixpoint match_from (r : RegExp) (s : string) (k : string -> bool) : bool :=
  match r with
  | One class =>
      match s with
      | EmptyString => false
      | String c rest => class c && k rest
      end
  | OneOrMore class => match_OneOrMore class s k
  | Seq r1 r2 => match_from r1 s (fun rest => match_from r2 rest k)
  end.

(** [/^r$/.test(s)]. *)
Definition test (r : RegExp) (s : string) : bool :=
  match_from r s (fun rest => match rest with EmptyString => true | _ => false end).

(** The class [\s] (on ASCII) and the class [\d]. *)
Definition isDigit (c : ascii) : bool :=
  let n := nat_of_ascii c in (48 <=? n) && (n <=? 57).

(** [s.replace(/c/g, by)] for a character [c]. *)
Fixpoint replace_all (c : ascii) (by_ : string) (s : string) : string :=
  match s with
  | EmptyString => EmptyString
  | String x rest =>
      if Ascii.eqb x c then by_ ++ replace_all c by_ rest
      else String x (replace_all c by_ rest)
  end.

End JS.

(* ================================================================== *)
(** * Schemas *)
(* ================================================================== *)

(** A Mongo ObjectId; [toString] is injective, so comparing the strings
    is comparing the ids. *)
Definition ObjectId := nat.
Definition ObjectId_eqb (a b : ObjectId) : bool := Nat.eqb a b.

(** ** src/models/User.js *)

Inductive AccessLevel := view | edit.

(** An element of [sharedWith]. *)
Record ShareGrant := {
  userId : ObjectId;
  sharedAt : Z;
  accessLevel : AccessLevel
}.

(** An element of [accessingViaCode]. *)
Record AccessRecord := {
  access_code : string;  (* the field [code] *)
  ownerId : ObjectId;
  accessedAt : Z
}.

(** The fields of [UserSchema] that the sharing methods read or write. *)
Record User := {
  user_id : ObjectId;
  fullName : string;
  email : string;
  shareCode : option string;
  sharedWith : list ShareGrant;
  accessingViaCode : list AccessRecord;
  user_updatedAt : Z
}.

Definition set_shareCode (c : option string) (u : User) : User :=
  {| user_id := user_id u; fullName := fullName u; email := email u;
     shareCode := option_map JS.toUpperCase c;
     sharedWith := sharedWith u; accessingViaCode := accessingViaCode u;
     user_updatedAt := user_updatedAt u |}.

Definition push_sharedWith (g : ShareGrant) (u : User) : User :=
  {| user_id := user_id u; fullName := fullName u; email := email u;
     shareCode := shareCode u;
     sharedWith := sharedWith u ++ [g]; accessingViaCode := accessingViaCode u;
     user_updatedAt := user_updatedAt u |}.

Definition push_accessingViaCode (r : AccessRecord) (u : User) : User :=
  {| user_id := user_id u; fullName := fullName u; email := email u;
     shareCode := shareCode u;
     sharedWith := sharedWith u; accessingViaCode := accessingViaCode u ++ [r];
     user_updatedAt := user_updatedAt u |}.

Definition set_user_updatedAt (t : Z) (u : User) : User :=
  {| user_id := user_id u; fullName := fullName u; email := email u;
     shareCode := shareCode u;
     sharedWith := sharedWith u; accessingViaCode := accessingViaCode u;
     user_updatedAt := t |}.

(** ** src/models/List.js *)

Inductive ListType := task | meeting | transaction | booking | custom.
Inductive Status := pending | in_progress | completed | cancelled.
Inductive Priority := low | medium | high | urgent.
Inductive AlarmType := notification | email_alarm | sms.

Definition Status_eqb (a b : Status) : bool :=
  match a, b with
  | pending, pending | in_progress, in_progress
  | completed, completed | cancelled, cancelled => true
  | _, _ => false
  end.

(** An alarm as a caller writes it in an item payload. *)
Record AlarmData := {
  ad_triggerTime : Z;
  ad_type : option AlarmType;
  ad_message : option string;
  ad_isTriggered : option bool;
  ad_triggeredAt : option Z
}.

(** An alarm as the schema stores it. *)
Record Alarm := {
  triggerTime : Z;
  alarm_type : AlarmType;
  message : option string;
  isTriggered : bool;
  triggeredAt : option Z
}.

(** The payload of [addItem]. *)
Record ItemData := {
  id_title : string;
  id_description : option string;
  id_status : option Status;
  id_priority : option Priority;
  id_relatedContact : option ObjectId;
  id_dueDate : option Z;
  id_completedAt : option Z;
  id_alarms : option (list AlarmData)
}.

(** An element of [items]. *)
Record Item := {
  item_id : ObjectId;
  title : string;
  item_description : option string;
  status : Status;
  priority : Priority;
  relatedContact : option ObjectId;
  dueDate : option Z;
  completedAt : option Z;
  alarms : list Alarm;
  item_createdAt : Z;
  item_updatedAt : Z
}.

(** The payload of [updateItem]: the own properties of [updateData].
    [None] is a property that is not there; for a date, [Some None] is a
    property set to [null]. *)
Record ItemUpdate := {
  upd_title : option string;
  upd_description : option string;
  upd_status : option Status;
  upd_priority : option Priority;
  upd_dueDate : option (option Z);
  upd_completedAt : option (option Z)
}.

Record ListSettings := {
  isShared : bool;
  defaultAlarmTime : option Z
}.

Record ListDoc := {
  list_id : ObjectId;
  list_owner : ObjectId;
  listType : ListType;
  list_name : string;
  list_description : option string;
  color : string;
  isDefault : bool;
  contactOwner : option ObjectId;
  items : list Item;
  settings : ListSettings;
  list_createdAt : Z;
  list_updatedAt : Z
}.

Definition set_items (f : list Item -> list Item) (l : ListDoc) : ListDoc :=
  {| list_id := list_id l; list_owner := list_owner l; listType := listType l;
     list_name := list_name l; list_description := list_description l;
     color := color l; isDefault := isDefault l; contactOwner := contactOwner l;
     items := f (items l); settings := settings l;
     list_createdAt := list_createdAt l; list_updatedAt := list_updatedAt l |}.

Definition set_list_updatedAt (t : Z) (l : ListDoc) : ListDoc :=
  {| list_id := list_id l; list_owner := list_owner l; listType := listType l;
     list_name := list_name l; list_description := list_description l;
     color := color l; isDefault := isDefault l; contactOwner := contactOwner l;
     items := items l; settings := settings l;
     list_createdAt := list_createdAt l; list_updatedAt := t |}.

(** ** src/models/Contact.js *)

Record DefaultLists := {
  tasks : option ObjectId;
  meetings : option ObjectId;
  transactions : option ObjectId
}.

(** The fields of [ContactSchema] that the hook reads or writes. *)
Record Contact := {
  contact_id : ObjectId;
  contact_owner : ObjectId;
  contact_name : string;
  defaultLists : DefaultLists;
  contact_updatedAt : Z
}.

Definition set_defaultLists (d : DefaultLists) (c : Contact) : Contact :=
  {| contact_id := contact_id c; contact_owner := contact_owner c;
     contact_name := contact_name c; defaultLists := d;
     contact_updatedAt := contact_updatedAt c |}.

Definition set_contact_updatedAt (t : Z) (c : Contact) : Contact :=
  {| contact_id := contact_id c; contact_owner := contact_owner c;
     contact_name := contact_name c; defaultLists := defaultLists c;
     contact_updatedAt := t |}.

(* ================================================================== *)
(** * The world *)
(* ================================================================== *)

(** What an operation can read and change besides its arguments.

    - [entropy], [draws]: the source behind [Math.random] and the number
      of draws made so far;
    - [clock], [ticks]: the readings that [Date.now] gives, in order;
    - [nextObjectId]: the supply of ObjectIds for new documents;
    - [faults]: the store's answer to the coming writes, [true] for a
      write that the store (or the validation before it) rejects; when
      the script is used up every write goes through;
    - [Users], [Lists], [Contacts]: the three collections;
    - [console]: what [console.error] has printed. *)
Record World := {
  entropy : nat -> Z;
  draws : nat;
  clock : nat -> Z;
  ticks : nat;
  nextObjectId : ObjectId;
  faults : list bool;
  Users : list User;
  Lists : list ListDoc;
  Contacts : list Contact;
  console : list string
}.

Definition with_draws (n : nat) (w : World) : World :=
  {| entropy := entropy w; draws := n; clock := clock w; ticks := ticks w;
     nextObjectId := nextObjectId w; faults := faults w; Users := Users w;
     Lists := Lists w; Contacts := Contacts w; console := console w |}.

Definition with_ticks (n : nat) (w : World) : World :=
  {| entropy := entropy w; draws := draws w; clock := clock w; ticks := n;
     nextObjectId := nextObjectId w; faults := faults w; Users := Users w;
     Lists := Lists w; Contacts := Contacts w; console := console w |}.

Definition with_nextObjectId (n : ObjectId) (w : World) : World :=
  {| entropy := entropy w; draws := draws w; clock := clock w; ticks := ticks w;
     nextObjectId := n; faults := faults w; Users := Users w;
     Lists := Lists w; Contacts := Contacts w; console := console w |}.

Definition with_faults (f : list bool) (w : World) : World :=
  {| entropy := entropy w; draws := draws w; clock := clock w; ticks := ticks w;
     nextObjectId := nextObjectId w; faults := f; Users := Users w;
     Lists := Lists w; Contacts := Contacts w; console := console w |}.

Definition with_Users (us : list User) (w : World) : World :=
  {| entropy := entropy w; draws := draws w; clock := clock w; ticks := ticks w;
     nextObjectId := nextObjectId w; faults := faults w; Users := us;
     Lists := Lists w; Contacts := Contacts w; console := console w |}.

Definition with_Lists (ls : list ListDoc) (w : World) : World :=
  {| entropy := entropy w; draws := draws w; clock := clock w; ticks := ticks w;
     nextObjectId := nextObjectId w; faults := faults w; Users := Users w;
     Lists := ls; Contacts := Contacts w; console := console w |}.

Definition with_Contacts (cs : list Contact) (w : World) : World :=
  {| entropy := entropy w; draws := draws w; clock := clock w; ticks := ticks w;
     nextObjectId := nextObjectId w; faults := faults w; Users := Users w;
     Lists := Lists w; Contacts := cs; console := console w |}.

Definition with_console (c : list string) (w : World) : World :=
  {| entropy := entropy w; draws := draws w; clock := clock w; ticks := ticks w;
     nextObjectId := nextObjectId w; faults := faults w; Users := Users w;
     Lists := Lists w; Contacts := Contacts w; console := c |}.


(* ================================================================== *)
(** * Computations: state, exceptions, loops *)
(* ================================================================== *)

(** [new Error(message)]. *)
Inductive Error := mkError (msg : string).

(** How a call ends: it returns, it throws, or it is still running when
    the fuel is used up. *)
Inductive Outcome (A : Type) :=
| Returned (a : A)
| Thrown (e : Error)
| Diverged.
Arguments Returned {A} a.
Arguments Thrown {A} e.
Arguments Diverged {A}.

(** A computation over a state [S]. *)
Definition St (S A : Type) : Type := S -> Outcome A * S.

Definition ret {S A} (a : A) : St S A := fun s => (Returned a, s).

Definition bind {S A B} (m : St S A) (k : A -> St S B) : St S B :=
  fun s =>
    match m s with
    | (Returned a, s') => k a s'
    | (Thrown e, s') => (Thrown e, s')
    | (Diverged, s') => (Diverged, s')
    end.

Definition throw {S A} (e : Error) : St S A := fun s => (Thrown e, s).

(** [try { m } catch (error) { handler(error) }]. *)
Definition try_catch {S A} (m : St S A) (handler : Error -> St S A) : St S A :=
  fun s =>
    match m s with
    | (Thrown e, s') => handler e s'
    | r => r
    end.

Declare Scope js_scope.
Delimit Scope js_scope with js.
Notation "x <- m ;; k" := (bind m (fun x => k))
  (at level 100, m at next level, right associativity) : js_scope.
Notation "m ;; k" := (bind m (fun _ => k))
  (at level 100, right associativity) : js_scope.
Local Open Scope js_scope.

(** [while (cond) { body }] over the variables [v] of the loop. *)
Fixpoint while {S V : Type} (fuel : nat) (cond : V -> bool) (body : V -> St S V)
    (v : V) : St S V :=
  if cond v then
    match fuel with
    | O => fun s => (Diverged, s)
    | Datatypes.S n => v' <- body v ;; while n cond body v'
    end
  else ret v.

(** ** Functions: computations over the world *)

Definition M : Type -> Type := St World.

(** [Math.random()]: the next draw, a multiple of 2^-53 in [0, 1).  Draws
    are rationals and the arithmetic on them is exact; the rounding of
    doubles is not part of the embedding. *)
Definition Math_random : M Q :=
  fun w =>
    (Returned (Qmake (entropy w (draws w) mod 2 ^ 53) (2 ^ 53)),
     with_draws (S (draws w)) w).

Definition Math_floor (x : Q) : Z := Qfloor x.

(** [Date.now()]. *)
Definition Date_now : M Z :=
  fun w => (Returned (clock w (ticks w)), with_ticks (S (ticks w)) w).

(** A new ObjectId, as the constructor of a document makes one. *)
Definition new_ObjectId : M ObjectId :=
  fun w => (Returned (nextObjectId w), with_nextObjectId (S (nextObjectId w)) w).

(** [console.error(...)]. *)
Definition console_error (line : string) : M unit :=
  fun w => (Returned tt, with_console (console w ++ [line]) w).

(** A write to the store: the next entry of the fault script decides
    whether it is done or rejected. *)
Definition store_write (change : World -> World) : M unit :=
  fun w =>
    match faults w with
    | true :: rest => (Thrown (mkError "MongoError: write failed"), with_faults rest w)
    | false :: rest => (Returned tt, change (with_faults rest w))
    | [] => (Returned tt, change w)
    end.

(** [updateOne({ _id: id }, change)] on a collection: the first document
    with that id is changed. *)
Fixpoint updateOne {D : Type} (get_id : D -> ObjectId) (id : ObjectId)
    (change : D -> D) (coll : list D) : list D :=
  match coll with
  | [] => []
  | d :: rest =>
      if ObjectId_eqb (get_id d) id then change d :: rest
      else d :: updateOne get_id id change rest
  end.

(** [findById(id)], and [docs.id(id)] on an array of subdocuments. *)
Definition findById {D : Type} (get_id : D -> ObjectId) (id : ObjectId)
    (coll : list D) : option D :=
  List.find (fun d => ObjectId_eqb (get_id d) id) coll.

(** ** Methods: computations over [this] and the world *)

(** A document in memory, as Mongoose holds it: its value, the changes
    made to it since it was loaded or saved (as the change they make to
    the stored document), and whether it has never been saved. *)
Record Doc (T : Type) := {
  value : T;
  unsaved : T -> T;
  isNew : bool
}.
Arguments value {T} d.
Arguments unsaved {T} d.
Arguments isNew {T} d.

(** A document as a query returns it. *)
Definition loaded {T} (t : T) : Doc T :=
  {| value := t; unsaved := fun stored => stored; isNew := false |}.

(** A document as [new Model(...)] makes it. *)
Definition constructed {T} (t : T) : Doc T :=
  {| value := t; unsaved := fun stored => stored; isNew := true |}.

Definition Method (T : Type) : Type -> Type := St (Doc T * World).

(** A function called inside a method. *)
Definition lift {T A} (m : M A) : Method T A :=
  fun s =>
    match m (snd s) with
    | (r, w') => (r, (fst s, w'))
    end.

(** [this.field]. *)
Definition read {T A} (field : T -> A) : Method T A :=
  fun s => (Returned (field (value (fst s))), s).

(** [this.isNew]. *)
Definition read_isNew {T} : Method T bool :=
  fun s => (Returned (isNew (fst s)), s).

(** An assignment to a path of [this], or a push to one of its arrays. *)
Definition assign {T} (change : T -> T) : Method T unit :=
  fun s =>
    (Returned tt,
     ({| value := change (value (fst s));
         unsaved := fun stored => change (unsaved (fst s) stored);
         isNew := isNew (fst s) |},
      snd s)).

(** [obj.method(...)] on another document: the result, and [obj] as the
    call leaves it. *)
Definition call {T U A} (obj : Doc U) (m : Method U A) : Method T (A * Doc U) :=
  fun s =>
    match m (obj, snd s) with
    | (Returned a, (obj', w')) => (Returned (a, obj'), (fst s, w'))
    | (Thrown e, (_, w')) => (Thrown e, (fst s, w'))
    | (Diverged, (_, w')) => (Diverged, (fst s, w'))
    end.

(** What [mongoose.model(name, schema)] gives: the [_id] of a document,
    its collection in the store, and the pre-save hook of the schema
    (in all three schemas: [this.updatedAt = Date.now()]). *)
Class Model (T : Type) := {
  _id : T -> ObjectId;
  collection : World -> list T;
  with_collection : list T -> World -> World;
  pre_save : Z -> T -> T
}.

#[export] Instance UserModel_ : Model User :=
  {| _id := user_id; collection := Users; with_collection := with_Users;
     pre_save := set_user_updatedAt |}.

#[export] Instance ListModel_ : Model ListDoc :=
  {| _id := list_id; collection := Lists; with_collection := with_Lists;
     pre_save := set_list_updatedAt |}.

#[export] Instance ContactModel_ : Model Contact :=
  {| _id := contact_id; collection := Contacts; with_collection := with_Contacts;
     pre_save := set_contact_updatedAt |}.

(** [Model.findOne(filter)]. *)
Definition findOne {T} `{Model T} (filter : T -> bool) : M (option (Doc T)) :=
  fun w => (Returned (option_map loaded (List.find filter (collection w))), w).

(** After a successful save nothing is unsaved and the document is not
    new. *)
Definition mark_saved {T} : Method T unit :=
  fun s =>
    (Returned tt,
     ({| value := value (fst s); unsaved := fun stored => stored; isNew := false |},
      snd s)).

(** [await this.save()].  The pre-save hook runs; then a new document is
    inserted (the store refuses a second document with the same [_id]),
    and for a document that is in the store the unsaved changes are
    applied to the stored document with the same [_id]. *)
Definition save {T} `{Model T} : Method T unit :=
  now <- lift Date_now ;;
  assign (pre_save now) ;;
  this <- read (fun t => t) ;;
  new <- read_isNew ;;
  if (new : bool) then
    taken <- lift (fun w =>
               (Returned (existsb (fun d => ObjectId_eqb (_id d) (_id this))
                            (collection w)), w)) ;;
    if (taken : bool) then throw (mkError "MongoError: E11000 duplicate key error")
    else
      lift (store_write (fun w => with_collection (collection w ++ [this])%list w)) ;;
      mark_saved
  else
    changes <- (fun s => (Returned (unsaved (fst s)), s)) ;;
    lift (store_write
            (fun w => with_collection
                        (updateOne _id (_id this) changes (collection w)) w)) ;;
    mark_saved.
(* ================================================================== *)
(** * src/utils/userValidator.js: the share code generator *)
(* ================================================================== *)

Module shareCodeGenerator.

Definition consonants : string := "BCDFGHJKLMNPQRSTVWXYZ".
Definition vowels : string := "AEIOU".

(** The expression
    [alphabet[Math.floor(Math.random() * alphabet.length)]]. *)
Definition random_char (alphabet : string) : M string :=
  r <- Math_random ;;
  ret (JS.at_index alphabet
         (Math_floor (r * inject_Z (Z.of_nat (String.length alphabet))))).

Definition generateCode : M string :=
  let code := EmptyString in
  (* Pattern: C-V-C-V-C *)
  c <- random_char consonants ;; let code := code ++ c in
  c <- random_char vowels ;; let code := code ++ c in
  c <- random_char consonants ;; let code := code ++ c in
  c <- random_char vowels ;; let code := code ++ c in
  c <- random_char consonants ;; let code := code ++ c in
  ret code.

Definition maxAttempts : nat := 100.

(** The variables of the loop of [generateUniqueCode]. *)
Record UniqueLoop := {
  ul_code : option string;
  ul_isUnique : bool;
  ul_attempts : nat
}.

Definition generateUniqueCode (fuel : nat) (checkExistence : string -> M bool)
    : M (option string) :=
  s <- while fuel
         (fun s => negb (ul_isUnique s) && (ul_attempts s <? maxAttempts))
         (fun s =>
            code <- generateCode ;;
            exists_ <- checkExistence code ;;
            let isUnique := if negb exists_ then true else ul_isUnique s in
            ret {| ul_code := Some code; ul_isUnique := isUnique;
                   ul_attempts := ul_attempts s + 1 |})
         {| ul_code := None; ul_isUnique := false; ul_attempts := 0 |} ;;
  if negb (ul_isUnique s) then
    throw (mkError "Failed to generate unique code after maximum attempts")
  else ret (ul_code s).

Definition isValidCode (code : string) : bool :=
  if negb (JS.truthy_string code) || negb (String.length code =? 5) then false
  else
    let upperCode := JS.toUpperCase code in
    (* Check pattern: C-V-C-V-C *)
    JS.includes consonants (JS.at_index upperCode 0) &&
    JS.includes vowels (JS.at_index upperCode 1) &&
    JS.includes consonants (JS.at_index upperCode 2) &&
    JS.includes vowels (JS.at_index upperCode 3) &&
    JS.includes consonants (JS.at_index upperCode 4).

(** The [for] loop of [generateWithPrefix]: [i] runs up to
    [remainingLength], which is [i + todo]. *)
Fixpoint fill_remaining (todo : nat) (i : nat) (code : string) : M string :=
  match todo with
  | O => ret code
  | S todo' =>
      c <- (if i mod 2 =? 0 then random_char consonants
            else random_char vowels) ;;
      fill_remaining todo' (i + 1) (code ++ c)
  end.

Definition generateWithPrefix (prefix : string) : M string :=
  let remainingLength := (5 - Z.of_nat (String.length prefix))%Z in
  if (remainingLength <? 3)%Z then
    throw (mkError "Prefix too long, must leave at least 3 characters")
  else
    let code := JS.toUpperCase prefix in
    (* Fill remaining with alternating pattern *)
    fill_remaining (Z.to_nat remainingLength) 0 code.

(** A [Set] of strings, as the list of its members in insertion order;
    [codes.add(c)]. *)
Definition Set_add (c : string) (codes : list string) : list string :=
  if existsb (String.eqb c) codes then codes else (codes ++ [c])%list.

(** [generateBatch(count)]; the result is [Array.from(codes)], the
    members in insertion order. *)
Definition generateBatch (fuel : nat) (count : Z) : M (list string) :=
  codes <- while fuel
             (fun codes => (Z.of_nat (List.length codes) <? count)%Z)
             (fun codes => c <- generateCode ;; ret (Set_add c codes))
             [] ;;
  ret codes.

Definition getTotalPossibleCodes : Z :=
  (* 21 consonants * 5 vowels * 21 consonants * 5 vowels * 21 consonants *)
  (Z.of_nat (String.length consonants) ^ 3 * Z.of_nat (String.length vowels) ^ 2)%Z.

(** The [for ... of] loop of [generateCustomPattern] over the
    characters that are left. *)
Fixpoint custom_pattern_loop (chars : string) (code : string) : M string :=
  match chars with
  | EmptyString => ret code
  | String char rest =>
      if Ascii.eqb char "C" then
        c <- random_char consonants ;; custom_pattern_loop rest (code ++ c)
      else if Ascii.eqb char "V" then
        c <- random_char vowels ;; custom_pattern_loop rest (code ++ c)
      else
        (* Keep other characters as-is *)
        custom_pattern_loop rest (code ++ String char EmptyString)
  end.

(** [generateCustomPattern(pattern = 'CVCVC')]; [None] is an argument
    left out. *)
Definition generateCustomPattern (pattern : option string) : M string :=
  let pattern := match pattern with Some p => p | None => "CVCVC" end in
  custom_pattern_loop (JS.toUpperCase pattern) EmptyString.

End shareCodeGenerator.


(* ================================================================== *)
(** * src/utils/userValidator.js: the validators *)
(* ================================================================== *)

Module userValidator.

(** What every validator returns. *)
Record Validation := {
  isValid : bool;
  errors : list string
}.

Definition validation (errors_ : list string) : Validation :=
  {| isValid := Nat.eqb (List.length errors_) 0; errors := errors_ |}.

(** [errors.push(message)] under a condition. *)
Definition push_if (condition : bool) (message_ : string) (errors_ : list string)
    : list string :=
  if condition then (errors_ ++ [message_])%list else errors_.

(** The class [[^\s@]]. *)
Definition not_space_or_at (c : ascii) : bool :=
  negb (JS.isWhiteSpace c) && negb (Ascii.eqb c "@").

(** [/^[^\s@]+@[^\s@]+\.[^\s@]+$/]. *)
Definition emailRegex : JS.RegExp :=
  JS.Seq (JS.OneOrMore not_space_or_at)
    (JS.Seq (JS.One (Ascii.eqb "@"))
       (JS.Seq (JS.OneOrMore not_space_or_at)
          (JS.Seq (JS.One (Ascii.eqb "."))
             (JS.OneOrMore not_space_or_at)))).

Definition isValidEmail (email_ : string) : bool :=
  JS.test emailRegex email_.

(** The class [[\d\s\-\+\(\)]]. *)
Definition mobile_char (c : ascii) : bool :=
  JS.isDigit c || JS.isWhiteSpace c || Ascii.eqb c "-" || Ascii.eqb c "+"
  || Ascii.eqb c "(" || Ascii.eqb c ")".

(** [/^[\d\s\-\+\(\)]+$/]. *)
Definition mobileRegex : JS.RegExp := JS.OneOrMore mobile_char.

(** The truthiness of what [isValidMobile] returns. *)
Definition isValidMobile (mobile : string) : bool :=
  (* Basic validation - adjust based on your requirements *)
  JS.truthy_string mobile && (10 <=? String.length mobile)
  && JS.test mobileRegex mobile.

(** The payload of [validateContact]. *)
Record ContactData := {
  cd_name : option string;
  cd_owner : option ObjectId;
  cd_email : option string;
  cd_mobileNumber : option string
}.

(** [!s || s.trim() === '']. *)
Definition blank (s : option string) : bool :=
  negb (JS.truthy_opt JS.truthy_string s)
  || match s with
     | Some s => String.eqb (JS.trim s) EmptyString
     | None => false
     end.

Definition validateContact (contactData : ContactData) : Validation :=
  let errors_ := [] in
  let errors_ := push_if (blank (cd_name contactData))
                   "Contact name is required" errors_ in
  let errors_ := push_if (negb (JS.truthy_object (cd_owner contactData)))
                   "Contact owner is required" errors_ in
  let errors_ := push_if (JS.truthy_opt JS.truthy_string (cd_email contactData)
                          && negb (JS.truthy_opt isValidEmail (cd_email contactData)))
                   "Invalid email format" errors_ in
  let errors_ := push_if (JS.truthy_opt JS.truthy_string (cd_mobileNumber contactData)
                          && negb (JS.truthy_opt isValidMobile
                                     (cd_mobileNumber contactData)))
                   "Invalid mobile number format" errors_ in
  validation errors_.

(** [sanitizeInput] on a string (a value of another type is returned as
    it is): the five replacements, in the order of the source. *)
Definition sanitizeInput (input : string) : string :=
  JS.replace_all "/" "&#x2F;"
    (JS.replace_all "'" "&#x27;"
       (JS.replace_all "034" "&quot;"
          (JS.replace_all ">" "&gt;"
             (JS.replace_all "<" "&lt;" input)))).

(** The payload of [validateUser], as far as the validators read it.
    The year of a student is a whole number. *)
Record SalariedInfo := { companyName : option string }.
Record BusinessInfo := { businessName : option string }.
Record StudentInfo := { year : option Z }.

Record UserData := {
  ud_fullName : option string;
  ud_email : option string;
  ud_password : option string;
  ud_professionType : option string;
  ud_salariedInfo : option SalariedInfo;
  ud_businessInfo : option BusinessInfo;
  ud_studentInfo : option StudentInfo
}.

(** [name && name.length > 200]. *)
Definition too_long (name : option string) : bool :=
  match name with
  | Some name => JS.truthy_string name && (200 <? String.length name)
  | None => false
  end.

(** The [switch] compares with [===]: a profession type that is not
    there matches no case. *)
Definition validateProfessionFields (userData : UserData) : list string :=
  let errors_ := [] in
  match ud_professionType userData with
  | Some professionType =>
      if String.eqb professionType "salaried" then
        (* Optional fields - no strict validation *)
        match ud_salariedInfo userData with
        | Some info =>
            push_if (too_long (companyName info))
              "Company name too long (max 200 characters)" errors_
        | None => errors_
        end
      else if String.eqb professionType "business"
              || String.eqb professionType "freelancer" then
        match ud_businessInfo userData with
        | Some info =>
            push_if (too_long (businessName info))
              "Business name too long (max 200 characters)" errors_
        | None => errors_
        end
      else if String.eqb professionType "student" then
        match ud_studentInfo userData with
        | Some info =>
            push_if (match year info with
                     | Some y => JS.truthy_number y && ((y <? 1)%Z || (10 <? y)%Z)
                     | None => false
                     end)
              "Year must be between 1 and 10" errors_
        | None => errors_
        end
      else errors_
  | None => errors_
  end.

(** [['salaried', 'freelancer', 'business', 'student'].includes(t)]. *)
Definition known_profession (t : string) : bool :=
  existsb (String.eqb t) ["salaried"; "freelancer"; "business"; "student"].

Definition validateUser (userData : UserData) : Validation :=
  let errors_ := [] in
  (* Common required fields *)
  let errors_ := push_if (blank (ud_fullName userData))
                   "Full name is required" errors_ in
  let errors_ := push_if (negb (JS.truthy_opt JS.truthy_string (ud_email userData))
                          || negb (JS.truthy_opt isValidEmail (ud_email userData)))
                   "Valid email is required" errors_ in
  let errors_ := push_if (negb (JS.truthy_opt JS.truthy_string (ud_password userData))
                          || match ud_password userData with
                             | Some p => String.length p <? 6
                             | None => false
                             end)
                   "Password must be at least 6 characters long" errors_ in
  let errors_ :=
    if negb (JS.truthy_opt JS.truthy_string (ud_professionType userData)) then
      (errors_ ++ ["Profession type is required"])%list
    else
      push_if (negb (JS.truthy_opt known_profession (ud_professionType userData)))
        "Invalid profession type" errors_ in
  (* Profession-specific validation *)
  let errors_ :=
    if JS.truthy_opt JS.truthy_string (ud_professionType userData) then
      (errors_ ++ validateProfessionFields userData)%list
    else errors_ in
  validation errors_.

End userValidator.

(* ================================================================== *)
(** * src/models/User.js: the methods of UserSchema *)
(* ================================================================== *)

Module UserModel.

(** [mongoose.model('User').findOne({ shareCode: c })]. *)
Definition findOne_shareCode (c : string) : M (option (Doc User)) :=
  findOne (fun u => match shareCode u with
                    | Some s => String.eqb s c
                    | None => false
                    end).

(** The variables of the loop of [generateShareCode]. *)
Record ShareLoop := {
  sl_code : option string;
  sl_isUnique : bool
}.

Definition generateShareCode (fuel : nat) : Method User (option string) :=
  let consonants := "BCDFGHJKLMNPQRSTVWXYZ" in
  let vowels := "AEIOU" in
  v <- while fuel
         (fun v => negb (sl_isUnique v))
         (fun v =>
            (* Generate memorable 5-character code: CVCVC pattern *)
            let code := EmptyString in
            c <- lift (shareCodeGenerator.random_char consonants) ;;
            let code := code ++ c in
            c <- lift (shareCodeGenerator.random_char vowels) ;;
            let code := code ++ c in
            c <- lift (shareCodeGenerator.random_char consonants) ;;
            let code := code ++ c in
            c <- lift (shareCodeGenerator.random_char vowels) ;;
            let code := code ++ c in
            c <- lift (shareCodeGenerator.random_char consonants) ;;
            let code := code ++ c in
            (* Check if code already exists *)
            existing <- lift (findOne_shareCode code) ;;
            let isUnique :=
              if negb (JS.truthy_object existing) then true else sl_isUnique v in
            ret {| sl_code := Some code; sl_isUnique := isUnique |})
         {| sl_code := None; sl_isUnique := false |} ;;
  assign (set_shareCode (sl_code v)) ;;
  ret (sl_code v).

(** [shareWith(targetUserId, accessLevel = 'view')]; [None] is an
    argument left out. *)
Definition shareWith (fuel : nat) (targetUserId : ObjectId)
    (accessLevel : option AccessLevel) : Method User (option string) :=
  let accessLevel := match accessLevel with Some a => a | None => view end in
  code <- read shareCode ;;
  (if negb (JS.truthy_opt JS.truthy_string code) then
     generateShareCode fuel ;;
     save
   else ret tt) ;;
  (* Add to sharedWith array if not already present *)
  shares <- read sharedWith ;;
  let alreadyShared :=
    existsb (fun share => ObjectId_eqb (userId share) targetUserId) shares in
  (if negb alreadyShared then
     now <- lift Date_now ;;
     assign (push_sharedWith {| userId := targetUserId; sharedAt := now;
                                accessLevel := accessLevel |}) ;;
     save
   else ret tt) ;;
  read shareCode.

(** Returns the owner, as the call leaves that document. *)
Definition accessViaCode (fuel : nat) (code : string) : Method User (Doc User) :=
  owner <- lift (findOne_shareCode (JS.toUpperCase code)) ;;
  match owner with
  | None => throw (mkError "Invalid share code")
  | Some owner =>
      (* Check if already accessing *)
      accesses <- read accessingViaCode ;;
      let alreadyAccessing :=
        existsb (fun access => String.eqb (access_code access) (JS.toUpperCase code))
          accesses in
      (if negb alreadyAccessing then
         now <- lift Date_now ;;
         assign (push_accessingViaCode
                   {| access_code := JS.toUpperCase code;
                      ownerId := user_id (value owner);
                      accessedAt := now |}) ;;
         save
       else ret tt) ;;
      (* Add this user to owner's sharedWith *)
      this_id <- read user_id ;;
      r <- call owner (shareWith fuel this_id None) ;;
      ret (snd r)
  end.

End UserModel.

(* ================================================================== *)
(** * src/models/List.js: the methods of ListSchema *)
(* ================================================================== *)

Module ListModel.

(** Casting an alarm payload to the alarm sub-schema: the defaults of
    the schema fill what the payload leaves out. *)
Definition castAlarm (a : AlarmData) : Alarm :=
  {| triggerTime := ad_triggerTime a;
     alarm_type := match ad_type a with Some t => t | None => notification end;
     message := ad_message a;
     isTriggered := match ad_isTriggered a with Some b => b | None => false end;
     triggeredAt := ad_triggeredAt a |}.

(** Casting an item payload to the item sub-schema, as [items.push]
    does: a new [_id], the setters ([trim]) and defaults of the schema,
    [createdAt] and [updatedAt] from [Date.now]. *)
Definition castItem (d : ItemData) : M Item :=
  id <- new_ObjectId ;;
  created <- Date_now ;;
  updated <- Date_now ;;
  ret {| item_id := id;
         title := JS.trim (id_title d);
         item_description := option_map JS.trim (id_description d);
         status := match id_status d with Some s => s | None => pending end;
         priority := match id_priority d with Some p => p | None => medium end;
         relatedContact := id_relatedContact d;
         dueDate := id_dueDate d;
         completedAt := id_completedAt d;
         alarms := match id_alarms d with
                   | Some l => List.map castAlarm l
                   | None => []
                   end;
         item_createdAt := created;
         item_updatedAt := updated |}.

Definition set_id_alarms (a : option (list AlarmData)) (d : ItemData) : ItemData :=
  {| id_title := id_title d; id_description := id_description d;
     id_status := id_status d; id_priority := id_priority d;
     id_relatedContact := id_relatedContact d; id_dueDate := id_dueDate d;
     id_completedAt := id_completedAt d; id_alarms := a |}.

(** [l[l.length - 1]]. *)
Definition last_element {A} (l : list A) : option A :=
  List.last (List.map Some l) None.

(** The payload is the caller's object: the method changes it in
    place.  Returns the payload as the method leaves it, and the item
    stored. *)
Definition addItem (itemData : ItemData) : Method ListDoc (ItemData * option Item) :=
  (* Set default alarm if configured *)
  lead <- read (fun this => defaultAlarmTime (settings this)) ;;
  let itemData :=
    match lead, id_dueDate itemData with
    | Some lead, Some due =>
        if JS.truthy_number lead then
          let alarmTime := due in
          let alarmTime := JS.setMinutes alarmTime (JS.getMinutes alarmTime - lead) in
          let itemData :=
            if negb (JS.truthy_object (id_alarms itemData))
            then set_id_alarms (Some []) itemData else itemData in
          let alarm := {| ad_triggerTime := alarmTime;
                          ad_type := Some notification;
                          ad_message := Some ("Reminder: " ++ id_title itemData);
                          ad_isTriggered := None;
                          ad_triggeredAt := None |} in
          set_id_alarms
            (option_map (fun l => (l ++ [alarm])%list) (id_alarms itemData))
            itemData
        else itemData
    | _, _ => itemData
    end in
  item <- lift (castItem itemData) ;;
  assign (set_items (fun l => (l ++ [item])%list)) ;;
  save ;;
  last <- read (fun this => last_element (items this)) ;;
  ret (itemData, last).

(** [Object.assign(item, updateData)]. *)
Definition Object_assign (updateData : ItemUpdate) (item : Item) : Item :=
  {| item_id := item_id item;
     title := match upd_title updateData with
              | Some t => JS.trim t | None => title item end;
     item_description := match upd_description updateData with
                         | Some t => Some (JS.trim t)
                         | None => item_description item end;
     status := match upd_status updateData with
               | Some s => s | None => status item end;
     priority := match upd_priority updateData with
                 | Some p => p | None => priority item end;
     relatedContact := relatedContact item;
     dueDate := match upd_dueDate updateData with
                | Some d => d | None => dueDate item end;
     completedAt := match upd_completedAt updateData with
                    | Some d => d | None => completedAt item end;
     alarms := alarms item;
     item_createdAt := item_createdAt item;
     item_updatedAt := item_updatedAt item |}.

Definition set_item_updatedAt (t : Z) (item : Item) : Item :=
  {| item_id := item_id item; title := title item;
     item_description := item_description item; status := status item;
     priority := priority item; relatedContact := relatedContact item;
     dueDate := dueDate item; completedAt := completedAt item;
     alarms := alarms item; item_createdAt := item_createdAt item;
     item_updatedAt := t |}.

Definition set_completedAt (t : option Z) (item : Item) : Item :=
  {| item_id := item_id item; title := title item;
     item_description := item_description item; status := status item;
     priority := priority item; relatedContact := relatedContact item;
     dueDate := dueDate item; completedAt := t;
     alarms := alarms item; item_createdAt := item_createdAt item;
     item_updatedAt := item_updatedAt item |}.

(** A change to [item], the subdocument of [this.items] with the id
    [itemId]; gives the item as changed. *)
Definition on_item (itemId : ObjectId) (item : Item) (change : Item -> Item)
    : Method ListDoc Item :=
  assign (set_items (updateOne item_id itemId change)) ;;
  ret (change item).

Definition updateItem (itemId : ObjectId) (updateData : ItemUpdate)
    : Method ListDoc Item :=
  item <- read (fun this => findById item_id itemId (items this)) ;;
  match item with
  | None => throw (mkError "Item not found")
  | Some item =>
      item <- on_item itemId item (Object_assign updateData) ;;
      now <- lift Date_now ;;
      item <- on_item itemId item (set_item_updatedAt now) ;;
      item <- (if match upd_status updateData with
                  | Some s => Status_eqb s completed
                  | None => false
                  end
                  && negb (JS.truthy_object (completedAt item))
               then
                 now <- lift Date_now ;;
                 on_item itemId item (set_completedAt (Some now))
               else ret item) ;;
      save ;;
      ret item
  end.

(** [new Date()]: the current time. *)
Definition new_Date : M Z := Date_now.

(** The virtual [completedItemsCount]. *)
Definition completedItemsCount (this : ListDoc) : nat :=
  List.length (List.filter (fun item => Status_eqb (status item) completed) (items this)).

(** The virtual [pendingItemsCount]. *)
Definition pendingItemsCount (this : ListDoc) : nat :=
  List.length
    (List.filter
       (fun item => Status_eqb (status item) pending
                    || Status_eqb (status item) in_progress)
       (items this)).

(** The virtual [overdueItems]. *)
Definition overdueItems : Method ListDoc (list Item) :=
  now <- lift new_Date ;;
  read (fun this =>
          List.filter
            (fun item =>
               match dueDate item with
               | Some due => (due <? now)%Z
               | None => false
               end
               && negb (Status_eqb (status item) completed)
               && negb (Status_eqb (status item) cancelled))
            (items this)).

(** [this.items.pull(itemId)]: every subdocument with that id goes. *)
Definition pull (itemId : ObjectId) (l : list Item) : list Item :=
  List.filter (fun item => negb (ObjectId_eqb (item_id item) itemId)) l.

Definition deleteItem (itemId : ObjectId) : Method ListDoc unit :=
  assign (set_items (pull itemId)) ;;
  save.

Definition push_alarm (a : Alarm) (item : Item) : Item :=
  {| item_id := item_id item; title := title item;
     item_description := item_description item; status := status item;
     priority := priority item; relatedContact := relatedContact item;
     dueDate := dueDate item; completedAt := completedAt item;
     alarms := (alarms item ++ [a])%list; item_createdAt := item_createdAt item;
     item_updatedAt := item_updatedAt item |}.

Definition addAlarmToItem (itemId : ObjectId) (alarmData : AlarmData)
    : Method ListDoc Item :=
  item <- read (fun this => findById item_id itemId (items this)) ;;
  match item with
  | None => throw (mkError "Item not found")
  | Some item =>
      item <- on_item itemId item (push_alarm (castAlarm alarmData)) ;;
      save ;;
      ret item
  end.

End ListModel.

(* ================================================================== *)
(** * src/models/Contact.js: the post-save hook *)
(* ================================================================== *)

Module ContactModel.

(** [new List({ owner, listType, name, description, color, isDefault,
    contactOwner })]: a new [_id], the setters of the schema ([trim]) on
    the strings, the schema's defaults for the paths left out.  (The
    [icon] path, a glyph outside ASCII, is left out of [ListDoc].) *)
Definition new_List (owner : ObjectId) (type : ListType) (name description : string)
    (color_ : string) (isDefault_ : bool) (contactOwner_ : ObjectId)
    : M (Doc ListDoc) :=
  id <- new_ObjectId ;;
  created <- Date_now ;;
  updated <- Date_now ;;
  ret (constructed
         {| list_id := id;
            list_owner := owner;
            listType := type;
            list_name := JS.trim name;
            list_description := Some (JS.trim description);
            color := color_;
            isDefault := isDefault_;
            contactOwner := Some contactOwner_;
            items := [];
            settings := {| isShared := false; defaultAlarmTime := Some 30%Z |};
            list_createdAt := created;
            list_updatedAt := updated |}).

(** [ContactSchema.post('save', async function (doc, next) ...)];
    [this] and [doc] are the same document. *)
Definition post_save : Method Contact unit :=
  this_isNew <- read_isNew ;;
  doc <- read (fun doc => doc) ;;
  (* Only create default lists if this is a new contact and lists don't exist *)
  if this_isNew
     || (negb (JS.truthy_object (tasks (defaultLists doc)))
         && negb (JS.truthy_object (meetings (defaultLists doc)))
         && negb (JS.truthy_object (transactions (defaultLists doc))))
  then
    try_catch
      ((* Create default Tasks list *)
       tasksList <- lift (new_List (contact_owner doc) task
                            (contact_name doc ++ " - Tasks")
                            ("Default tasks list for " ++ contact_name doc)
                            "#3B82F6" true (contact_id doc)) ;;
       r <- call tasksList save ;; let tasksList := snd r in
       (* Create default Meetings list *)
       meetingsList <- lift (new_List (contact_owner doc) meeting
                               (contact_name doc ++ " - Meetings")
                               ("Default meetings list for " ++ contact_name doc)
                               "#10B981" true (contact_id doc)) ;;
       r <- call meetingsList save ;; let meetingsList := snd r in
       (* Create default Transactions list *)
       transactionsList <- lift (new_List (contact_owner doc) transaction
                                   (contact_name doc ++ " - Transactions")
                                   ("Default transactions list for " ++ contact_name doc)
                                   "#F59E0B" true (contact_id doc)) ;;
       r <- call transactionsList save ;; let transactionsList := snd r in
       (* Update contact with default list references (without triggering hooks) *)
       let refs := {| tasks := Some (list_id (value tasksList));
                      meetings := Some (list_id (value meetingsList));
                      transactions := Some (list_id (value transactionsList)) |} in
       lift (store_write
               (fun w => with_Contacts
                           (updateOne contact_id (contact_id doc)
                              (set_defaultLists refs) (Contacts w)) w)) ;;
       (* Update the doc object in memory *)
       assign (set_defaultLists refs))
      (fun error =>
         lift (console_error ("Error creating default lists for contact: "
                              ++ match error with mkError m => m end)))
  else ret tt.

(** [mongoose.model('List').findById(id)]; a null id finds nothing. *)
Definition List_findById (id : option ObjectId) : M (option (Doc ListDoc)) :=
  match id with
  | Some id => findOne (fun l => ObjectId_eqb (list_id l) id)
  | None => ret None
  end.

(** The object [{ ...data, relatedContact: id }]. *)
Definition with_relatedContact (id : ObjectId) (d : ItemData) : ItemData :=
  {| id_title := id_title d; id_description := id_description d;
     id_status := id_status d; id_priority := id_priority d;
     id_relatedContact := Some id; id_dueDate := id_dueDate d;
     id_completedAt := id_completedAt d; id_alarms := id_alarms d |}.

Definition addTask (taskData : ItemData) : Method Contact (option Item) :=
  ref <- read (fun this => tasks (defaultLists this)) ;;
  tasksList <- lift (List_findById ref) ;;
  match tasksList with
  | None => throw (mkError "Default tasks list not found")
  | Some tasksList =>
      this_id <- read contact_id ;;
      r <- call tasksList (ListModel.addItem (with_relatedContact this_id taskData)) ;;
      ret (snd (fst r))
  end.

Definition addMeeting (meetingData : ItemData) : Method Contact (option Item) :=
  ref <- read (fun this => meetings (defaultLists this)) ;;
  meetingsList <- lift (List_findById ref) ;;
  match meetingsList with
  | None => throw (mkError "Default meetings list not found")
  | Some meetingsList =>
      this_id <- read contact_id ;;
      r <- call meetingsList
             (ListModel.addItem (with_relatedContact this_id meetingData)) ;;
      ret (snd (fst r))
  end.

Definition addTransaction (transactionData : ItemData) : Method Contact (option Item) :=
  ref <- read (fun this => transactions (defaultLists this)) ;;
  transactionsList <- lift (List_findById ref) ;;
  match transactionsList with
  | None => throw (mkError "Default transactions list not found")
  | Some transactionsList =>
      this_id <- read contact_id ;;
      r <- call transactionsList
             (ListModel.addItem (with_relatedContact this_id transactionData)) ;;
      ret (snd (fst r))
  end.

End ContactModel.

(* ================================================================== *)
(** * Vocabulary of the statements *)
(* ================================================================== *)

(** [alphabet.includes(c)] for a character [c]. *)
Definition member (alphabet : string) (c : ascii) : bool :=
  JS.includes alphabet (String c EmptyString).

(** The positions of [s], counted from [i], alternate consonant and
    vowel: a consonant where the count is even, a vowel where it is
    odd. *)
Fixpoint alternating (i : nat) (s : string) : bool :=
  match s with
  | EmptyString => true
  | String c r =>
      (if i mod 2 =? 0 then member shareCodeGenerator.consonants c
       else member shareCodeGenerator.vowels c)
      && alternating (i + 1) r
  end.


(** The error that [generateUniqueCode] throws when it gives up (the
    spec's [CodeSpaceExhausted]). *)
Definition CodeSpaceExhausted : Error :=
  mkError "Failed to generate unique code after maximum attempts".

(** A user of the store holds [c] as share code. *)
Definition holds_code (c : string) (u : User) : bool :=
  match shareCode u with
  | Some s => String.eqb s c
  | None => false
  end.

(** Every candidate that the generator can produce in [w], wherever the
    random sequence stands, is the share code of a stored user. *)
Definition every_candidate_taken (w : World) : Prop :=
  forall n candidate w',
    shareCodeGenerator.generateCode (with_draws n w) = (Returned candidate, w') ->
    exists u, List.find (holds_code candidate) (Users w) = Some u.

(** A store whose only user holds BABAB, and a random source that always
    draws 0, so that every candidate is BABAB. *)
Definition holder_of_BABAB : User :=
  {| user_id := 1; fullName := "Owner"; email := "owner@example.com";
     shareCode := Some "BABAB"; sharedWith := []; accessingViaCode := [];
     user_updatedAt := 0%Z |}.

Definition account_without_code : User :=
  {| user_id := 2; fullName := "Asker"; email := "asker@example.com";
     shareCode := None; sharedWith := []; accessingViaCode := [];
     user_updatedAt := 0%Z |}.

Definition world_all_taken : World :=
  {| entropy := fun _ => 0%Z; draws := 0;
     clock := fun n => Z.of_nat n; ticks := 0;
     nextObjectId := 3; faults := [];
     Users := [holder_of_BABAB; account_without_code];
     Lists := []; Contacts := []; console := [] |}.

(** The error that [accessViaCode] throws for a code nobody holds (the
    spec's [CodeNotFound]). *)
Definition CodeNotFound : Error := mkError "Invalid share code".

(** The errors of the store. *)
Definition is_store_error (e : Error) : Prop :=
  e = mkError "MongoError: write failed" \/
  e = mkError "MongoError: E11000 duplicate key error".

(** Every error that [m] can throw satisfies [P]. *)
Definition throws_only {S A} (P : Error -> Prop) (m : St S A) : Prop :=
  forall s e s', m s = (Thrown e, s') -> P e.





(** What a redemption does to the requester's document, in memory and in
    the store: the record is pushed ([accessedAt] is the default of the
    schema) and the pre-save hook stamps [updatedAt]. *)
Definition touch_record (c : string) (owner : ObjectId) (accessed updated : Z)
    (u : User) : User :=
  set_user_updatedAt updated
    (push_accessingViaCode
       {| access_code := c; ownerId := owner; accessedAt := accessed |} u).

(** What a new grant does to the owner's document. *)
Definition touch_grant (target : ObjectId) (level : AccessLevel) (shared updated : Z)
    (u : User) : User :=
  set_user_updatedAt updated
    (push_sharedWith
       {| userId := target; sharedAt := shared; accessLevel := level |} u).

(** The tests of [accessViaCode] and [shareWith]. *)
Definition alreadyAccessing (c : string) (u : User) : bool :=
  existsb (fun access => String.eqb (access_code access) c) (accessingViaCode u).

Definition alreadyShared (target : ObjectId) (u : User) : bool :=
  existsb (fun share => ObjectId_eqb (userId share) target) (sharedWith u).


(** An owner who has given the requester [edit] access before, by
    [shareWith(requester, 'edit')]. *)
Definition generous_owner : User :=
  {| user_id := 1; fullName := "Owner"; email := "owner@example.com";
     shareCode := Some "BABAB";
     sharedWith := [{| userId := 2; sharedAt := 0%Z; accessLevel := edit |}];
     accessingViaCode := []; user_updatedAt := 0%Z |}.

Definition world_with_edit_grant : World :=
  {| entropy := fun _ => 0%Z; draws := 0;
     clock := fun n => Z.of_nat n; ticks := 0;
     nextObjectId := 3; faults := [];
     Users := [generous_owner; account_without_code];
     Lists := []; Contacts := []; console := [] |}.

(** [m] never runs forever. *)
Definition settles {S A} (m : St S A) : Prop :=
  forall s, fst (m s) <> Diverged.

(** One of the three default lists of the contact [c], as the spec
    describes it. *)
Definition is_default_list (c : Contact) (type : ListType) (suffix : string)
    (l : ListDoc) : Prop :=
  isDefault l = true /\
  contactOwner l = Some (contact_id c) /\
  listType l = type /\
  list_owner l = contact_owner c /\
  list_name l = contact_name c ++ " - " ++ suffix.

(** The reference [ref] is not null and the list it names is in the
    store and satisfies [P]. *)
Definition refers_to (w : World) (ref : option ObjectId) (P : ListDoc -> Prop) : Prop :=
  exists l, ref = Some (list_id l) /\
            findById list_id (list_id l) (Lists w) = Some l /\ P l.



(** The C3 sentence as it is written, for the case it names: the hook
    runs again on a saved contact that has its tasks list only, and
    creates the two lists that are missing. *)
Definition repair_claim : Prop :=
  forall (doc : Doc Contact) (w : World) (t : ObjectId),
    isNew doc = false ->
    defaultLists (value doc)
    = {| tasks := Some t; meetings := None; transactions := None |} ->
    faults w = [] ->
    let r := ContactModel.post_save (doc, w) in
    let c := value (fst (snd r)) in
    tasks (defaultLists c) = Some t /\
    refers_to (snd (snd r)) (meetings (defaultLists c))
      (is_default_list c meeting "Meetings") /\
    refers_to (snd (snd r)) (transactions (defaultLists c))
      (is_default_list c transaction "Transactions").


(** A contact that was saved before, with a tasks list and nothing
    else, and a contact that has just been created. *)
Definition contact_with_tasks_only : Contact :=
  {| contact_id := 5; contact_owner := 1; contact_name := "Bob";
     defaultLists := {| tasks := Some 7; meetings := None; transactions := None |};
     contact_updatedAt := 0%Z |}.

Definition contact_just_created : Contact :=
  {| contact_id := 5; contact_owner := 1; contact_name := "Bob";
     defaultLists := {| tasks := None; meetings := None; transactions := None |};
     contact_updatedAt := 0%Z |}.

Definition tasks_list_of_Bob : ListDoc :=
  {| list_id := 7; list_owner := 1; listType := task; list_name := "Bob - Tasks";
     list_description := Some "Default tasks list for Bob"; color := "#3B82F6";
     isDefault := true; contactOwner := Some 5; items := [];
     settings := {| isShared := false; defaultAlarmTime := Some 30%Z |};
     list_createdAt := 0%Z; list_updatedAt := 0%Z |}.

Definition world_of_Bob (fs : list bool) (c : Contact) (ls : list ListDoc) : World :=
  {| entropy := fun _ => 0%Z; draws := 0;
     clock := fun n => Z.of_nat n; ticks := 0;
     nextObjectId := 10; faults := fs;
     Users := []; Lists := ls; Contacts := [c]; console := [] |}.






Definition set_completed : ItemUpdate :=
  {| upd_title := None; upd_description := None; upd_status := Some completed;
     upd_priority := None; upd_dueDate := None; upd_completedAt := None |}.

Definition world_at_1000 (ls : list ListDoc) : World :=
  {| entropy := fun _ => 0%Z; draws := 0;
     clock := fun n => (1000 + Z.of_nat n)%Z; ticks := 0;
     nextObjectId := 10; faults := [];
     Users := []; Lists := ls; Contacts := []; console := [] |}.

(** The validity that [generateWithPrefix] gives its result, read off
    the prefix in upper case: an empty prefix fits, a prefix of one
    character never does (the character after it is a consonant), a
    prefix of two fits when it is a consonant and a vowel. *)
Definition prefix_fits (upperPrefix : string) : bool :=
  match upperPrefix with
  | EmptyString => true
  | String c0 (String c1 EmptyString) =>
      member shareCodeGenerator.consonants c0 && member shareCodeGenerator.vowels c1
  | _ => false
  end.


(** The first [k] codes that [generateCode] gives from [w] on. *)
Fixpoint drawn (k : nat) (w : World) : list string :=
  match k with
  | O => []
  | S k' =>
      match shareCodeGenerator.generateCode w with
      | (Returned c, w') => c :: drawn k' w'
      | _ => []
      end
  end.

(** The set that holds [acc] after the codes of [l] are added in order. *)
Definition Set_add_all (l acc : list string) : list string :=
  List.fold_left (fun codes c => shareCodeGenerator.Set_add c codes) l acc.

(** The letters of an alphabet. *)
Definition letters (alphabet : string) : list ascii := list_ascii_of_string alphabet.

(** Every code of the form consonant, vowel, consonant, vowel, consonant
    over the two alphabets of the generator, once each. *)
Definition all_codes : list string :=
  List.map
    (fun p : ascii * (ascii * (ascii * (ascii * ascii))) =>
       let '(c1, (v1, (c2, (v2, c3)))) := p in
       String c1 (String v1 (String c2 (String v2 (String c3 EmptyString)))))
    (list_prod (letters shareCodeGenerator.consonants)
       (list_prod (letters shareCodeGenerator.vowels)
          (list_prod (letters shareCodeGenerator.consonants)
             (list_prod (letters shareCodeGenerator.vowels)
                (letters shareCodeGenerator.consonants))))).


(** Every character of [s] is in the class. *)
Fixpoint every (class : ascii -> bool) (s : string) : bool :=
  match s with
  | EmptyString => true
  | String c rest => class c && every class rest
  end.

(** The five characters that [sanitizeInput] replaces. *)
Definition needs_escape (c : ascii) : bool :=
  Ascii.eqb c "<" || Ascii.eqb c ">" || Ascii.eqb c "034" || Ascii.eqb c "'"
  || Ascii.eqb c "/".

(** No stored user holds [c] as share code. *)
Definition code_is_free (w : World) (c : string) : bool :=
  negb (existsb (holds_code c) (Users w)).

(** The error of a write that the store rejects. *)
Definition StoreWriteFailed : Error := mkError "MongoError: write failed".

(** A store with the given users and the given answers to the coming
    writes; every draw of the random source is 0, so that every
    candidate is BABAB. *)
Definition world_of_users (fs : list bool) (us : list User) : World :=
  {| entropy := fun _ => 0%Z; draws := 0;
     clock := fun n => Z.of_nat n; ticks := 0;
     nextObjectId := 3; faults := fs;
     Users := us; Lists := []; Contacts := []; console := [] |}.

(** The error of [updateItem] and [addAlarmToItem] for an id that no
    item of the list has. *)
Definition ItemNotFound : Error := mkError "Item not found".

(** A task that is still to do, and a list that holds it. *)
Definition pending_task : Item :=
  {| item_id := 8; title := "Call Bob"; item_description := None;
     status := pending; priority := medium; relatedContact := Some 5;
     dueDate := None; completedAt := None; alarms := [];
     item_createdAt := 1%Z; item_updatedAt := 1%Z |}.

Definition list_with_pending_task : ListDoc :=
  set_items (fun _ => [pending_task]) tasks_list_of_Bob.

(** An alarm payload with a trigger time and nothing else. *)
Definition bare_alarm (t : Z) : AlarmData :=
  {| ad_triggerTime := t; ad_type := None; ad_message := None;
     ad_isTriggered := None; ad_triggeredAt := None |}.

(** A payload with a title and nothing else. *)
Definition bare_item (title_ : string) : ItemData :=
  {| id_title := title_; id_description := None; id_status := None;
     id_priority := None; id_relatedContact := None; id_dueDate := None;
     id_completedAt := None; id_alarms := None |}.

(** The reference names no list of the store (a reference that is null
    names none). *)
Definition dangling (w : World) (ref : option ObjectId) : Prop :=
  forall l, In l (Lists w) -> ref <> Some (list_id l).

(** The errors of [addTask], [addMeeting] and [addTransaction] for a
    contact without the default list. *)
Definition TasksListNotFound : Error := mkError "Default tasks list not found".
Definition MeetingsListNotFound : Error := mkError "Default meetings list not found".
Definition TransactionsListNotFound : Error :=
  mkError "Default transactions list not found".

(** The fields of the user's own profession pass: the company name of a
    salaried user and the business name of a business or a freelancer
    have at most 200 characters; the year of a student is 0 or lies
    between 1 and 10. *)
Definition profession_fields_pass (userData : userValidator.UserData) : Prop :=
  forall t,
    userValidator.ud_professionType userData = Some t ->
    (t = "salaried" ->
     forall info name,
       userValidator.ud_salariedInfo userData = Some info ->
       userValidator.companyName info = Some name -> String.length name <= 200) /\
    (t = "business" \/ t = "freelancer" ->
     forall info name,
       userValidator.ud_businessInfo userData = Some info ->
       userValidator.businessName info = Some name -> String.length name <= 200) /\
    (t = "student" ->
     forall info y,
       userValidator.ud_studentInfo userData = Some info ->
       userValidator.year info = Some y -> y = 0%Z \/ (1 <= y <= 10)%Z).

(* ================================================================== *)
(** * Properties *)
(* ================================================================== *)

(** ** The monad *)

Lemma bind_Returned {S A B} (m : St S A) (k : A -> St S B) w a w' :
  m w = (Returned a, w') -> bind m k w = k a w'.
Proof. intros H. unfold bind. rewrite H. reflexivity. Qed.

Lemma bind_Thrown {S A B} (m : St S A) (k : A -> St S B) w e w' :
  m w = (Thrown e, w') -> bind m k w = (Thrown e, w').
Proof. intros H. unfold bind. rewrite H. reflexivity. Qed.

Lemma bind_Diverged {S A B} (m : St S A) (k : A -> St S B) w w' :
  m w = (Diverged, w') -> bind m k w = (Diverged, w').
Proof. intros H. unfold bind. rewrite H. reflexivity. Qed.

Lemma bind_ret {S A B} (a : A) (k : A -> St S B) (w : S) : bind (ret a) k w = k a w.
Proof. reflexivity. Qed.

Lemma while_done {S V} fuel (cond : V -> bool) (body : V -> St S V) s w :
  cond s = false -> while fuel cond body s w = (Returned s, w).
Proof. intros H. destruct fuel; simpl; rewrite H; reflexivity. Qed.

Lemma while_step {S V} fuel (cond : V -> bool) (body : V -> St S V) s w :
  cond s = true ->
  while (Datatypes.S fuel) cond body s w = bind (body s) (while fuel cond body) w.
Proof. intros H. simpl. rewrite H. reflexivity. Qed.

Lemma while_out_of_fuel {S V} (cond : V -> bool) (body : V -> St S V) s w :
  cond s = true -> while 0 cond body s w = (Diverged, w).
Proof. intros H. simpl. rewrite H. reflexivity. Qed.

(** ** Drawing a character *)

(** The index computed from a draw lies inside the alphabet. *)
Lemma random_index_in_range (z : Z) (n : nat) :
  0 < n ->
  (0 <= Math_floor (Qmake (z mod 2 ^ 53) (2 ^ 53) * inject_Z (Z.of_nat n))
     < Z.of_nat n)%Z.
Proof.
  intros Hn. unfold Math_floor, Qfloor, Qmult, inject_Z. cbn [Qnum Qden].
  rewrite Pos.mul_1_r.
  assert (Hp : (0 < Z.pos (2 ^ 53))%Z) by reflexivity.
  assert (Hm : (0 <= z mod 2 ^ 53 < Z.pos (2 ^ 53))%Z).
  { change (2 ^ 53)%Z with (Z.pos (2 ^ 53)). apply Z.mod_pos_bound. exact Hp. }
  split.
  - apply Z.div_pos; [ | exact Hp]. apply Z.mul_nonneg_nonneg; lia.
  - apply Z.div_lt_upper_bound; [exact Hp | ]. nia.
Qed.

Lemma get_in_range (s : string) (k : nat) :
  k < String.length s -> exists c, String.get k s = Some c.
Proof.
  revert k. induction s as [ | a s IH]; simpl; intros k Hk; [lia | ].
  destruct k as [ | k]; [eexists; reflexivity | ]. apply IH. lia.
Qed.

(** A draw from a non-empty alphabet is one of its characters, and uses
    one reading of [Math.random]. *)
Lemma random_char_spec (alphabet : string) (w : World) :
  0 < String.length alphabet ->
  exists k c,
    k < String.length alphabet /\
    String.get k alphabet = Some c /\
    shareCodeGenerator.random_char alphabet w
    = (Returned (String c EmptyString), with_draws (S (draws w)) w).
Proof.
  intros Hlen.
  pose proof (random_index_in_range (entropy w (draws w)) _ Hlen) as Hr.
  set (i := Math_floor _) in Hr.
  destruct (get_in_range alphabet (Z.to_nat i)) as [c Hc]; [lia | ].
  exists (Z.to_nat i), c. split; [lia | ]. split; [exact Hc | ].
  unfold shareCodeGenerator.random_char, bind, Math_random, ret.
  fold i. unfold JS.at_index.
  destruct (Z.ltb_spec i 0); [lia | ]. rewrite Hc. reflexivity.
Qed.

Lemma consonants_member k c :
  String.get k shareCodeGenerator.consonants = Some c ->
  member shareCodeGenerator.consonants c = true /\ JS.toUpperCaseChar c = c.
Proof.
  do 21 (destruct k as [ | k];
         [intros H; injection H as <-; split; reflexivity | ]).
  discriminate.
Qed.

Lemma vowels_member k c :
  String.get k shareCodeGenerator.vowels = Some c ->
  member shareCodeGenerator.vowels c = true /\ JS.toUpperCaseChar c = c.
Proof.
  do 5 (destruct k as [ | k];
        [intros H; injection H as <-; split; reflexivity | ]).
  discriminate.
Qed.

Lemma random_consonant w :
  exists c,
    member shareCodeGenerator.consonants c = true /\
    JS.toUpperCaseChar c = c /\
    shareCodeGenerator.random_char shareCodeGenerator.consonants w
    = (Returned (String c EmptyString), with_draws (S (draws w)) w).
Proof.
  destruct (random_char_spec shareCodeGenerator.consonants w) as (k & c & _ & Hc & Hr);
    [simpl; lia | ].
  exists c. destruct (consonants_member k c Hc). auto.
Qed.

Lemma random_vowel w :
  exists c,
    member shareCodeGenerator.vowels c = true /\
    JS.toUpperCaseChar c = c /\
    shareCodeGenerator.random_char shareCodeGenerator.vowels w
    = (Returned (String c EmptyString), with_draws (S (draws w)) w).
Proof.
  destruct (random_char_spec shareCodeGenerator.vowels w) as (k & c & _ & Hc & Hr);
    [simpl; lia | ].
  exists c. destruct (vowels_member k c Hc). auto.
Qed.

(** ** The generator *)

Lemma with_draws_twice n m w : with_draws n (with_draws m w) = with_draws n w.
Proof. reflexivity. Qed.

Lemma append_String_assoc (a : string) (c : ascii) (b : string) :
  (a ++ String c EmptyString) ++ b = a ++ String c b.
Proof. induction a as [ | x a IH]; simpl; [reflexivity | rewrite IH; reflexivity]. Qed.


Lemma length_toUpperCase (s : string) :
  String.length (JS.toUpperCase s) = String.length s.
Proof. induction s as [ | x s IH]; simpl; [reflexivity | rewrite IH; reflexivity]. Qed.

(** [generateCode] returns five characters C-V-C-V-C, each in upper case,
    and reads [Math.random] five times. *)
Lemma generateCode_spec w :
  exists c1 v1 c2 v2 c3,
    shareCodeGenerator.generateCode w
    = (Returned (String c1 (String v1 (String c2 (String v2 (String c3 EmptyString))))),
       with_draws (5 + draws w) w) /\
    (member shareCodeGenerator.consonants c1 = true /\ JS.toUpperCaseChar c1 = c1) /\
    (member shareCodeGenerator.vowels v1 = true /\ JS.toUpperCaseChar v1 = v1) /\
    (member shareCodeGenerator.consonants c2 = true /\ JS.toUpperCaseChar c2 = c2) /\
    (member shareCodeGenerator.vowels v2 = true /\ JS.toUpperCaseChar v2 = v2) /\
    (member shareCodeGenerator.consonants c3 = true /\ JS.toUpperCaseChar c3 = c3).
Proof.
  destruct (random_consonant w) as (c1 & M1 & U1 & R1).
  destruct (random_vowel (with_draws (1 + draws w) w)) as (v1 & M2 & U2 & R2).
  destruct (random_consonant (with_draws (2 + draws w) w)) as (c2 & M3 & U3 & R3).
  destruct (random_vowel (with_draws (3 + draws w) w)) as (v2 & M4 & U4 & R4).
  destruct (random_consonant (with_draws (4 + draws w) w)) as (c3 & M5 & U5 & R5).
  exists c1, v1, c2, v2, c3. repeat split; try assumption.
  unfold shareCodeGenerator.generateCode.
  rewrite (bind_Returned _ _ _ _ _ R1).
  rewrite (bind_Returned _ _ _ _ _ R2).
  rewrite (bind_Returned _ _ _ _ _ R3).
  rewrite (bind_Returned _ _ _ _ _ R4).
  rewrite (bind_Returned _ _ _ _ _ R5).
  reflexivity.
Qed.

(** Every code that [generateCode] returns passes [isValidCode]. *)
Lemma generateCode_isValidCode w code w' :
  shareCodeGenerator.generateCode w = (Returned code, w') ->
  shareCodeGenerator.isValidCode code = true.
Proof.
  destruct (generateCode_spec w)
    as (c1 & v1 & c2 & v2 & c3 & R & [M1 U1] & [M2 U2] & [M3 U3] & [M4 U4] & [M5 U5]).
  rewrite R. intros H. injection H as <- _.
  unfold shareCodeGenerator.isValidCode. cbn [String.length JS.truthy_string Nat.eqb negb orb].
  cbn [JS.toUpperCase]. rewrite U1, U2, U3, U4, U5.
  change (member shareCodeGenerator.consonants c1
          && member shareCodeGenerator.vowels v1
          && member shareCodeGenerator.consonants c2
          && member shareCodeGenerator.vowels v2
          && member shareCodeGenerator.consonants c3 = true).
  rewrite M1, M2, M3, M4, M5. reflexivity.
Qed.

Lemma fill_remaining_spec todo : forall i code w,
  exists rest,
    shareCodeGenerator.fill_remaining todo i code w
    = (Returned (code ++ rest), with_draws (todo + draws w) w) /\
    String.length rest = todo /\
    alternating i rest = true.
Proof.
  induction todo as [ | todo IH]; intros i code w.
  - exists EmptyString. simpl. split; [ | auto].
    unfold ret. f_equal.
    + f_equal. induction code as [ | x code IHc]; simpl; congruence.
    + destruct w; reflexivity.
  - cbn [shareCodeGenerator.fill_remaining].
    destruct (i mod 2 =? 0) eqn:Hpar.
    + destruct (random_consonant w) as (c & Mc & _ & Rc).
      destruct (IH (i + 1) (code ++ String c EmptyString) (with_draws (S (draws w)) w))
        as (rest & Hrest & Hlen & Halt).
      exists (String c rest).
      rewrite (bind_Returned _ _ _ _ _ Rc), Hrest, append_String_assoc.
      split; [f_equal; cbn [draws with_draws]; rewrite with_draws_twice; f_equal; lia | ].
      split; [simpl; lia | ].
      cbn [alternating]. rewrite Hpar, Mc, Halt. reflexivity.
    + destruct (random_vowel w) as (c & Mc & _ & Rc).
      destruct (IH (i + 1) (code ++ String c EmptyString) (with_draws (S (draws w)) w))
        as (rest & Hrest & Hlen & Halt).
      exists (String c rest).
      rewrite (bind_Returned _ _ _ _ _ Rc), Hrest, append_String_assoc.
      split; [f_equal; cbn [draws with_draws]; rewrite with_draws_twice; f_equal; lia | ].
      split; [simpl; lia | ].
      cbn [alternating]. rewrite Hpar, Mc, Halt. reflexivity.
Qed.


Lemma generateWithPrefix_short prefix w :
  String.length prefix <= 2 ->
  exists rest,
    shareCodeGenerator.generateWithPrefix prefix w
    = (Returned (JS.toUpperCase prefix ++ rest),
       with_draws (5 - String.length prefix + draws w) w) /\
    String.length rest = 5 - String.length prefix /\
    alternating 0 rest = true.
Proof.
  intros H. unfold shareCodeGenerator.generateWithPrefix.
  destruct (Z.ltb_spec (5 - Z.of_nat (String.length prefix)) 3); [lia | ].
  replace (Z.to_nat (5 - Z.of_nat (String.length prefix)))
    with (5 - String.length prefix) by lia.
  apply fill_remaining_spec.
Qed.

(** ** [generateWithPrefix] and [isValidCode] *)



(** C10: the prefix AB is accepted, and whatever the random draws are,
    the code that [generateWithPrefix] returns for it fails
    [isValidCode]: its first character is a vowel. *)
Theorem generateWithPrefix_not_always_valid :
  exists prefix,
    String.length prefix <= 2 /\
    forall w, exists code,
      fst (shareCodeGenerator.generateWithPrefix prefix w) = Returned code /\
      shareCodeGenerator.isValidCode code = false.
Proof.
  exists "AB". split; [simpl; lia | ]. intros w.
  destruct (generateWithPrefix_short "AB" w) as (rest & R & L & _); [simpl; lia | ].
  exists (JS.toUpperCase "AB" ++ rest). rewrite R. split; [reflexivity | ].
  unfold shareCodeGenerator.isValidCode.
  destruct (negb _ || negb _); reflexivity.
Qed.

(** ** The two retry loops *)

Lemma world_eta w : with_draws (draws w) w = w.
Proof. destruct w; reflexivity. Qed.

(** The loop of [generateUniqueCode], when the check answers "taken"
    every time (and changes nothing): [k] more rounds, 5 draws each, up
    to the bound. *)
Lemma generateUniqueCode_loop (check : string -> M bool) :
  (forall c w, check c w = (Returned true, w)) ->
  forall k fuel code attempts w,
    attempts + k = shareCodeGenerator.maxAttempts ->
    k <= fuel ->
    exists code',
      while fuel
        (fun s => negb (shareCodeGenerator.ul_isUnique s)
                  && (shareCodeGenerator.ul_attempts s <? shareCodeGenerator.maxAttempts))
        (fun s =>
           code <- shareCodeGenerator.generateCode ;;
           exists_ <- check code ;;
           let isUnique := if negb exists_ then true
                           else shareCodeGenerator.ul_isUnique s in
           ret {| shareCodeGenerator.ul_code := Some code;
                  shareCodeGenerator.ul_isUnique := isUnique;
                  shareCodeGenerator.ul_attempts :=
                    shareCodeGenerator.ul_attempts s + 1 |})
        {| shareCodeGenerator.ul_code := code;
           shareCodeGenerator.ul_isUnique := false;
           shareCodeGenerator.ul_attempts := attempts |} w
      = (Returned {| shareCodeGenerator.ul_code := code';
                     shareCodeGenerator.ul_isUnique := false;
                     shareCodeGenerator.ul_attempts := shareCodeGenerator.maxAttempts |},
         with_draws (5 * k + draws w) w).
Proof.
  intros Hcheck. induction k as [ | k IH]; intros fuel code attempts w Hk Hfuel.
  - exists code. rewrite while_done.
    + rewrite Nat.add_0_r in Hk. subst attempts. simpl. rewrite world_eta. reflexivity.
    + cbn [shareCodeGenerator.ul_isUnique shareCodeGenerator.ul_attempts negb andb].
      apply Nat.ltb_ge. lia.
  - destruct fuel as [ | fuel]; [lia | ].
    rewrite while_step.
    2:{ cbn [shareCodeGenerator.ul_isUnique shareCodeGenerator.ul_attempts negb andb].
        apply Nat.ltb_lt. lia. }
    destruct (generateCode_spec w) as (c1 & v1 & c2 & v2 & c3 & R & _).
    set (candidate := String c1 _) in R.
    destruct (IH fuel (Some candidate) (attempts + 1) (with_draws (5 + draws w) w))
      as (code' & Hloop); [lia | lia | ].
    exists code'.
    erewrite bind_Returned.
    2:{ erewrite bind_Returned by exact R.
        erewrite bind_Returned by apply Hcheck.
        reflexivity. }
    etransitivity; [exact Hloop | ].
    cbn [draws with_draws]. rewrite with_draws_twice.
    f_equal. f_equal. lia.
Qed.

(** The bounded loop gives up: when the check answers "taken" every
    time, [generateUniqueCode] throws after [maxAttempts] = 100 calls of
    [generateCode] (500 draws), whatever fuel it has beyond 100. *)
Lemma generateUniqueCode_gives_up (check : string -> M bool) fuel w :
  (forall c w, check c w = (Returned true, w)) ->
  shareCodeGenerator.maxAttempts <= fuel ->
  shareCodeGenerator.generateUniqueCode fuel check w
  = (Thrown CodeSpaceExhausted,
     with_draws (5 * shareCodeGenerator.maxAttempts + draws w) w).
Proof.
  intros Hcheck Hfuel.
  destruct (generateUniqueCode_loop check Hcheck shareCodeGenerator.maxAttempts
              fuel None 0 w) as (code' & Hloop); [reflexivity | assumption | ].
  unfold shareCodeGenerator.generateUniqueCode.
  erewrite bind_Returned by exact Hloop. reflexivity.
Qed.

(** A loop whose condition holds in every state that its body can reach
    never returns: with any fuel it is still running at the end. *)
Lemma while_forever {S V : Type} (cond : V -> bool) (body : V -> St S V)
    (Inv : V -> S -> Prop) :
  (forall s w, Inv s w ->
     cond s = true /\ exists s' w', body s w = (Returned s', w') /\ Inv s' w') ->
  forall fuel s w, Inv s w -> fst (while fuel cond body s w) = Diverged.
Proof.
  intros Hinv. induction fuel as [ | fuel IH]; intros s w HI.
  - destruct (Hinv s w HI) as [Hc _]. rewrite while_out_of_fuel by assumption.
    reflexivity.
  - destruct (Hinv s w HI) as [Hc (s' & w' & Hb & HI')].
    rewrite while_step by assumption.
    rewrite (bind_Returned _ _ _ _ _ Hb). apply IH. assumption.
Qed.

Lemma bind_fst_Diverged {S A B} (m : St S A) (k : A -> St S B) w :
  fst (m w) = Diverged -> fst (bind m k w) = Diverged.
Proof.
  intros H. unfold bind. destruct (m w) as [[a | e | ] w']; simpl in H;
    try discriminate. reflexivity.
Qed.


Lemma lift_Returned {T A} (m : M A) (d : Doc T) w a w' :
  m w = (Returned a, w') -> lift m (d, w) = (Returned a, (d, w')).
Proof. intros H. unfold lift. cbn [fst snd]. rewrite H. reflexivity. Qed.

Lemma lift_Thrown {T A} (m : M A) (d : Doc T) w e w' :
  m w = (Thrown e, w') -> lift m (d, w) = (Thrown e, (d, w')).
Proof. intros H. unfold lift. cbn [fst snd]. rewrite H. reflexivity. Qed.

(** C1: [User.generateShareCode] has no bound on its attempts.  When
    every candidate that the generator produces is already the share
    code of a stored user, the call never returns and never throws:
    whatever the fuel, it is still in its loop.  (The bounded loop is
    [generateUniqueCode], see [generateUniqueCode_gives_up]; the method
    of the model does not call it.) *)
Theorem generateShareCode_never_returns (fuel : nat) (this : Doc User) (w : World) :
  every_candidate_taken w ->
  fst (UserModel.generateShareCode fuel (this, w)) = Diverged.
Proof.
  intros Htaken. unfold UserModel.generateShareCode.
  apply bind_fst_Diverged.
  apply (while_forever _ _
           (fun v s => UserModel.sl_isUnique v = false
                       /\ exists n, s = (this, with_draws n w))).
  - clear fuel. intros v s [Hv [n ->]].
    split; [rewrite Hv; reflexivity | ].
    destruct (random_consonant (with_draws n w)) as (c1 & _ & _ & R1).
    destruct (random_vowel (with_draws (1 + n) w)) as (v1 & _ & _ & R2).
    destruct (random_consonant (with_draws (2 + n) w)) as (c2 & _ & _ & R3).
    destruct (random_vowel (with_draws (3 + n) w)) as (v2 & _ & _ & R4).
    destruct (random_consonant (with_draws (4 + n) w)) as (c3 & _ & _ & R5).
    set (candidate := String c1 (String v1 (String c2 (String v2 (String c3 EmptyString))))).
    assert (G : shareCodeGenerator.generateCode (with_draws n w)
                = (Returned candidate, with_draws (5 + n) w)).
    { unfold shareCodeGenerator.generateCode.
      rewrite (bind_Returned _ _ _ _ _ R1), (bind_Returned _ _ _ _ _ R2),
        (bind_Returned _ _ _ _ _ R3), (bind_Returned _ _ _ _ _ R4),
        (bind_Returned _ _ _ _ _ R5). reflexivity. }
    destruct (Htaken n candidate _ G) as [u Hu].
    exists {| UserModel.sl_code := Some candidate; UserModel.sl_isUnique := false |},
      (this, with_draws (5 + n) w).
    split; [ | split; [reflexivity | exists (5 + n); reflexivity]].
    rewrite (bind_Returned _ _ _ _ _ (lift_Returned _ this _ _ _ R1)),
      (bind_Returned _ _ _ _ _ (lift_Returned _ this _ _ _ R2)),
      (bind_Returned _ _ _ _ _ (lift_Returned _ this _ _ _ R3)),
      (bind_Returned _ _ _ _ _ (lift_Returned _ this _ _ _ R4)),
      (bind_Returned _ _ _ _ _ (lift_Returned _ this _ _ _ R5)).
    unfold bind, lift, UserModel.findOne_shareCode, findOne.
    cbn [fst snd collection UserModel_ Users with_draws].
    change (find _ (Users w)) with (find (holds_code candidate) (Users w)).
    rewrite Hu, Hv. reflexivity.
  - split; [reflexivity | ]. exists (draws w). rewrite world_eta. reflexivity.
Qed.

Lemma generateShareCode_never_returns_witness :
  every_candidate_taken world_all_taken /\
  fst (UserModel.generateShareCode 1000 (loaded account_without_code, world_all_taken))
  = Diverged.
Proof.
  assert (H : every_candidate_taken world_all_taken).
  { intros n candidate w' G. vm_compute in G.
    injection G as <- _. exists holder_of_BABAB. reflexivity. }
  split; [exact H | ].
  apply (generateShareCode_never_returns 1000 (loaded account_without_code)
           world_all_taken H).
Defined.

(** ** Which errors a computation can throw *)

Create HintDb throws.

Lemma throws_only_ret {S A} P (a : A) : throws_only (S := S) P (ret a).
Proof. intros s e s' H. discriminate. Qed.

Lemma throws_only_bind {S A B} P (m : St S A) (k : A -> St S B) :
  throws_only P m -> (forall a, throws_only P (k a)) -> throws_only P (bind m k).
Proof.
  intros Hm Hk s e s' H. unfold bind in H.
  destruct (m s) as [[a | e0 | ] s0] eqn:E.
  - eapply Hk; eassumption.
  - injection H as <- <-. eapply Hm; eassumption.
  - discriminate.
Qed.

Lemma throws_only_throw {S A} (P : Error -> Prop) e :
  P e -> throws_only (S := S) (A := A) P (throw e).
Proof. intros HP s e' s' H. injection H as <- _. assumption. Qed.

Lemma throws_only_lift {T A} P (m : M A) :
  throws_only P m -> throws_only P (lift (T := T) m).
Proof.
  intros Hm s e s' H. unfold lift in H.
  destruct (m (snd s)) as [r w'] eqn:E. injection H as -> _.
  eapply Hm; eassumption.
Qed.

Lemma throws_only_read {T A} P (f : T -> A) : throws_only P (read f).
Proof. intros s e s' H. discriminate. Qed.

Lemma throws_only_read_isNew {T} P : throws_only P (read_isNew (T := T)).
Proof. intros s e s' H. discriminate. Qed.

Lemma throws_only_assign {T} P (f : T -> T) : throws_only P (assign f).
Proof. intros s e s' H. discriminate. Qed.

Lemma throws_only_mark_saved {T} P : throws_only P (mark_saved (T := T)).
Proof. intros s e s' H. discriminate. Qed.

Lemma throws_only_Date_now P : throws_only P Date_now.
Proof. intros s e s' H. discriminate. Qed.

Lemma throws_only_random_char P alphabet :
  throws_only P (shareCodeGenerator.random_char alphabet).
Proof. intros s e s' H. discriminate. Qed.

Lemma throws_only_findOne {T} `{Model T} P (filter : T -> bool) :
  throws_only P (findOne filter).
Proof. intros s e s' H'. discriminate. Qed.

Lemma throws_only_store_write change : throws_only is_store_error (store_write change).
Proof.
  intros s e s' H. unfold store_write in H.
  destruct (faults s) as [ | [ | ] rest]; try discriminate.
  injection H as <- _. left. reflexivity.
Qed.

Lemma throws_only_while {S V} P fuel (cond : V -> bool) (body : V -> St S V) :
  (forall v, throws_only P (body v)) -> forall v, throws_only P (while fuel cond body v).
Proof.
  intros Hbody. induction fuel as [ | fuel IH]; intros v; simpl;
    destruct (cond v).
  - intros s e s' H. discriminate.
  - apply throws_only_ret.
  - apply throws_only_bind; auto.
  - apply throws_only_ret.
Qed.

Lemma throws_only_call {T U A} P (obj : Doc U) (m : Method U A) :
  throws_only P m -> throws_only P (call (T := T) obj m).
Proof.
  intros Hm s e s' H. unfold call in H.
  destruct (m (obj, snd s)) as [[a | e0 | ] [obj' w']] eqn:E; try discriminate.
  injection H as <- _. eapply Hm; eassumption.
Qed.

#[local] Hint Resolve throws_only_ret throws_only_throw throws_only_lift
  throws_only_read throws_only_read_isNew throws_only_assign
  throws_only_mark_saved throws_only_Date_now throws_only_random_char
  throws_only_findOne throws_only_store_write throws_only_call : throws.

(** Steps through a computation, one [bind] or branch at a time. *)
Ltac throws :=
  repeat first
    [ solve [ auto with throws ]
    | apply throws_only_bind; [ | intros ? ]
    | apply throws_only_while; intros ?
    | match goal with
      | |- throws_only _ (if ?b then _ else _) => destruct b
      | |- throws_only _ (match ?x with Some _ => _ | None => _ end) => destruct x
      end ].

Lemma throws_only_save {T} `{Model T} : throws_only is_store_error (save (T := T)).
Proof.
  unfold save. throws.
  all: intros s e s' H'; try discriminate.
  injection H' as <- _. right. reflexivity.
Qed.
#[local] Hint Resolve throws_only_save : throws.

Lemma throws_only_generateShareCode fuel :
  throws_only is_store_error (UserModel.generateShareCode fuel).
Proof. unfold UserModel.generateShareCode, UserModel.findOne_shareCode. throws. Qed.
#[local] Hint Resolve throws_only_generateShareCode : throws.

Lemma throws_only_shareWith fuel target level :
  throws_only is_store_error (UserModel.shareWith fuel target level).
Proof. unfold UserModel.shareWith. throws. Qed.
#[local] Hint Resolve throws_only_shareWith : throws.

(** ** Redeeming a code: [accessViaCode] *)

Lemma find_none_iff {A} (p : A -> bool) (l : list A) :
  List.find p l = None <-> forall x, In x l -> p x = false.
Proof.
  split; [apply List.find_none | ].
  induction l as [ | a l IH]; intros H; simpl; [reflexivity | ].
  rewrite (H a (or_introl eq_refl)). apply IH. intros x Hx. apply H. right. exact Hx.
Qed.

Lemma holds_code_true c u : holds_code c u = true <-> shareCode u = Some c.
Proof.
  unfold holds_code. destruct (shareCode u) as [s | ]; [ | split; discriminate].
  rewrite String.eqb_eq. split; [intros ->; reflexivity | intros H; injection H; auto].
Qed.

Lemma holds_code_false c u : holds_code c u = false <-> shareCode u <> Some c.
Proof.
  rewrite <- holds_code_true. destruct (holds_code c u); split; congruence.
Qed.

Lemma findOne_shareCode_run {T} c (this : Doc T) w :
  lift (UserModel.findOne_shareCode c) (this, w)
  = (Returned (option_map loaded (List.find (holds_code c) (Users w))), (this, w)).
Proof. reflexivity. Qed.

Lemma CodeNotFound_not_store_error : ~ is_store_error CodeNotFound.
Proof. intros [H | H]; discriminate. Qed.

(** C5: [accessViaCode] throws "Invalid share code" exactly when no
    stored user has the presented code, in upper case, as share code;
    and when it throws that error nothing has changed: neither the
    requester's document in memory nor the world. *)
Theorem accessViaCode_CodeNotFound (fuel : nat) (code : string)
    (this : Doc User) (w : World) :
  (fst (UserModel.accessViaCode fuel code (this, w)) = Thrown CodeNotFound
   <-> forall u, In u (Users w) -> shareCode u <> Some (JS.toUpperCase code)) /\
  (fst (UserModel.accessViaCode fuel code (this, w)) = Thrown CodeNotFound ->
   snd (UserModel.accessViaCode fuel code (this, w)) = (this, w)).
Proof.
  unfold UserModel.accessViaCode.
  rewrite (bind_Returned _ _ _ _ _ (findOne_shareCode_run _ this w)).
  destruct (List.find (holds_code (JS.toUpperCase code)) (Users w)) as [o | ] eqn:F;
    cbn [option_map].
  - match goal with
    | |- context [fst (?m (this, w))] =>
        assert (Hc : throws_only is_store_error m) by throws
    end.
    assert (Hno : forall m : Method User (Doc User),
              throws_only is_store_error m ->
              fst (m (this, w)) <> Thrown CodeNotFound).
    { intros m Hm H. destruct (m (this, w)) as [r s'] eqn:E. simpl in H. subst r.
      apply CodeNotFound_not_store_error. eapply Hm. exact E. }
    split; [split | ].
    + intros H. exfalso. exact (Hno _ Hc H).
    + intros H. exfalso. destruct (List.find_some _ _ F) as [Hin Hh].
      apply holds_code_true in Hh. exact (H o Hin Hh).
    + intros H. exfalso. exact (Hno _ Hc H).
  - split; [split | ]; try reflexivity.
    intros _ u Hu. apply holds_code_false.
    apply (proj1 (find_none_iff _ _) F u Hu).
Qed.

Lemma accessViaCode_CodeNotFound_witness :
  fst (UserModel.accessViaCode 0 "nobod" (loaded account_without_code, world_all_taken))
  = Thrown CodeNotFound /\
  snd (UserModel.accessViaCode 0 "nobod" (loaded account_without_code, world_all_taken))
  = (loaded account_without_code, world_all_taken).
Proof.
  destruct (accessViaCode_CodeNotFound 0 "nobod" (loaded account_without_code)
              world_all_taken) as [[_ H1] H2].
  assert (H : fst (UserModel.accessViaCode 0 "nobod"
                     (loaded account_without_code, world_all_taken))
              = Thrown CodeNotFound).
  { apply H1. intros u [<- | [<- | []]]; discriminate. }
  split; [exact H | exact (H2 H)].
Defined.

(** Unfolds the steps of a method down to the functions on states. *)
Ltac run_method :=
  unfold save, bind, ret, lift, read, read_isNew, assign, mark_saved, call,
    throw, Date_now, new_ObjectId, store_write;
  cbn [fst snd value unsaved isNew loaded constructed
       faults ticks clock with_ticks with_faults
       _id collection with_collection pre_save UserModel_ ListModel_ ContactModel_].

(** [shareWith] on an owner that has a share code, when the store takes
    every write: nothing happens if the target has a grant already;
    otherwise one grant, at the level asked for or [view], is pushed in
    memory and in the store. *)
Lemma shareWith_run fuel target level o w :
  JS.truthy_opt JS.truthy_string (shareCode o) = true ->
  faults w = [] ->
  UserModel.shareWith fuel target level (loaded o, w)
  = if existsb (fun share => ObjectId_eqb (userId share) target) (sharedWith o)
    then (Returned (shareCode o), (loaded o, w))
    else
      let grant := {| userId := target; sharedAt := clock w (ticks w);
                      accessLevel := match level with Some a => a | None => view end |} in
      let now := clock w (S (ticks w)) in
      (Returned (shareCode o),
       (loaded (set_user_updatedAt now (push_sharedWith grant o)),
        with_Users
          (updateOne user_id (user_id o)
             (fun stored => set_user_updatedAt now (push_sharedWith grant stored))
             (Users w))
          (with_ticks (2 + ticks w) w))).
Proof.
  intros Hcode Hf. unfold UserModel.shareWith.
  unfold bind at 1. cbn [read loaded value fst snd].
  unfold bind at 1. rewrite Hcode. cbn [negb ret].
  unfold bind at 1. cbn [read loaded value fst snd].
  destruct (existsb _ (sharedWith o)); cbn [negb].
  - reflexivity.
  - run_method. rewrite Hf. reflexivity.
Qed.

Lemma truthy_code c :
  c <> EmptyString -> JS.truthy_opt JS.truthy_string (Some c) = true.
Proof. destruct c; [congruence | reflexivity]. Qed.


(** ** Collections *)










(** ** Computations that never run forever *)

Create HintDb settles.

Lemma settles_ret {S A} (a : A) : settles (S := S) (ret a).
Proof. intros s. discriminate. Qed.

Lemma settles_throw {S A} e : settles (S := S) (A := A) (throw e).
Proof. intros s. discriminate. Qed.

Lemma settles_bind {S A B} (m : St S A) (k : A -> St S B) :
  settles m -> (forall a, settles (k a)) -> settles (bind m k).
Proof.
  intros Hm Hk s. unfold bind. specialize (Hm s).
  destruct (m s) as [[a | e | ] s0]; simpl in *.
  - apply Hk.
  - discriminate.
  - congruence.
Qed.

Lemma settles_lift {T A} (m : M A) : settles m -> settles (lift (T := T) m).
Proof.
  intros Hm s. unfold lift. specialize (Hm (snd s)).
  destruct (m (snd s)) as [r w']. exact Hm.
Qed.

Lemma settles_call {T U A} (obj : Doc U) (m : Method U A) :
  settles m -> settles (call (T := T) obj m).
Proof.
  intros Hm s. unfold call. specialize (Hm (obj, snd s)).
  destruct (m (obj, snd s)) as [[a | e | ] [obj' w']]; simpl in *;
    [discriminate | discriminate | congruence].
Qed.

Lemma settles_state {S A} (f : S -> A * S) : settles (fun s => (Returned (fst (f s)), snd (f s))).
Proof. intros s. discriminate. Qed.

Lemma settles_store_write change : settles (store_write change).
Proof. intros s. unfold store_write. destruct (faults s) as [ | [ | ] rest]; discriminate. Qed.

Lemma settles_read {T A} (f : T -> A) : settles (read f).
Proof. intros s. discriminate. Qed.

Lemma settles_read_isNew {T} : settles (read_isNew (T := T)).
Proof. intros s. discriminate. Qed.

Lemma settles_assign {T} (f : T -> T) : settles (assign f).
Proof. intros s. discriminate. Qed.

Lemma settles_mark_saved {T} : settles (mark_saved (T := T)).
Proof. intros s. discriminate. Qed.

Lemma settles_Date_now : settles Date_now.
Proof. intros s. discriminate. Qed.

Lemma settles_new_ObjectId : settles new_ObjectId.
Proof. intros s. discriminate. Qed.

Lemma settles_console_error line : settles (console_error line).
Proof. intros s. discriminate. Qed.

#[local] Hint Resolve settles_ret settles_throw settles_lift settles_call
  settles_store_write settles_read settles_read_isNew settles_assign
  settles_mark_saved settles_Date_now settles_new_ObjectId
  settles_console_error : settles.

Ltac settles :=
  repeat first
    [ solve [ auto with settles ]
    | apply settles_bind; [ | intros ? ]
    | match goal with
      | |- settles (if ?b then _ else _) => destruct b
      end
    | apply settles_lift
    | solve [ intros ?; discriminate ] ].

Lemma settles_save {T} `{Model T} : settles (save (T := T)).
Proof. unfold save. settles. Qed.
#[local] Hint Resolve settles_save : settles.

Lemma settles_new_List owner type name description color_ isDefault_ contactOwner_ :
  settles (ContactModel.new_List owner type name description color_ isDefault_
             contactOwner_).
Proof. unfold ContactModel.new_List. settles. Qed.
#[local] Hint Resolve settles_new_List : settles.

(** A [try] around a computation that never runs forever, with a handler
    that returns, returns. *)
Lemma try_catch_returns {S} (m : St S unit) (handler : Error -> St S unit) :
  settles m ->
  (forall e s, exists s', handler e s = (Returned tt, s')) ->
  forall s, exists s', try_catch m handler s = (Returned tt, s').
Proof.
  intros Hm Hh s. unfold try_catch. specialize (Hm s).
  destruct (m s) as [[[] | e | ] s0]; simpl in *.
  - eexists. reflexivity.
  - apply Hh.
  - congruence.
Qed.

(** ** The post-save hook of a contact *)

Lemma new_List_run {T} (d : Doc T) w owner type name description color_ isDefault_
    contactOwner_ :
  lift (ContactModel.new_List owner type name description color_ isDefault_ contactOwner_)
    (d, w)
  = (Returned
       (constructed
          {| list_id := nextObjectId w;
             list_owner := owner;
             listType := type;
             list_name := JS.trim name;
             list_description := Some (JS.trim description);
             color := color_;
             isDefault := isDefault_;
             contactOwner := Some contactOwner_;
             items := [];
             settings := {| isShared := false; defaultAlarmTime := Some 30%Z |};
             list_createdAt := clock w (ticks w);
             list_updatedAt := clock w (S (ticks w)) |}),
     (d, with_ticks (2 + ticks w) (with_nextObjectId (S (nextObjectId w)) w))).
Proof. reflexivity. Qed.

(** Saving a list inside a method of another document: the call returns
    or throws, and either way [this], the contacts and the console are
    as before. *)
Lemma save_list_cases {T} (d : Doc T) (l0 : Doc ListDoc) (w : World) :
  exists w',
    Contacts w' = Contacts w /\ console w' = console w /\
    ((exists l, call l0 save (d, w) = (Returned (tt, l), (d, w'))) \/
     (exists e, call l0 save (d, w) = (Thrown e, (d, w')))).
Proof.
  run_method. destruct (isNew l0).
  - match goal with |- context [existsb ?f ?l] => destruct (existsb f l) end.
    + eexists. split; [ | split; [ | right; eexists; reflexivity]]; reflexivity.
    + cbn [fst snd faults with_ticks].
      destruct (faults w) as [ | [ | ] rest]; eexists;
        (split; [ | split; [ | first [ left; eexists; reflexivity
                                     | right; eexists; reflexivity ] ] ]);
        reflexivity.
  - cbn [fst snd faults with_ticks].
    destruct (faults w) as [ | [ | ] rest]; eexists;
      (split; [ | split; [ | first [ left; eexists; reflexivity
                                   | right; eexists; reflexivity ] ] ]);
      reflexivity.
Qed.




(** C3, amended: on a contact that was saved before and has at least one
    of its three references, the hook does nothing: it creates no list
    and leaves the contact and the world as they are, also when some of
    the references are missing. *)
Theorem post_save_skips_saved_contact (doc : Doc Contact) (w : World) :
  isNew doc = false ->
  tasks (defaultLists (value doc)) <> None \/
  meetings (defaultLists (value doc)) <> None \/
  transactions (defaultLists (value doc)) <> None ->
  ContactModel.post_save (doc, w) = (Returned tt, (doc, w)).
Proof.
  intros Hnew Hrefs. unfold ContactModel.post_save.
  unfold bind at 1. cbn [read_isNew fst snd]. rewrite Hnew.
  unfold bind at 1. cbn [read fst snd orb].
  destruct (tasks (defaultLists (value doc))) as [t | ];
    destruct (meetings (defaultLists (value doc))) as [m | ];
    destruct (transactions (defaultLists (value doc))) as [x | ];
    try reflexivity.
  exfalso. destruct Hrefs as [H | [H | H]]; apply H; reflexivity.
Qed.

Lemma post_save_skips_saved_contact_witness :
  ContactModel.post_save
    (loaded contact_with_tasks_only,
     world_of_Bob [] contact_with_tasks_only [tasks_list_of_Bob])
  = (Returned tt,
     (loaded contact_with_tasks_only,
      world_of_Bob [] contact_with_tasks_only [tasks_list_of_Bob])).
Proof.
  apply post_save_skips_saved_contact.
  - reflexivity.
  - left. simpl. discriminate.
Defined.

(** C3 as written fails: for a saved contact that has its tasks list
    only, the hook creates neither of the two missing lists. *)
Lemma repair_claim_fails : ~ repair_claim.
Proof.
  intros H.
  destruct (H (loaded contact_with_tasks_only)
              (world_of_Bob [] contact_with_tasks_only [tasks_list_of_Bob]) 7)
    as (_ & (l & Href & _) & _); try reflexivity.
  discriminate Href.
Qed.


(** ** [trim] on the names of the default lists *)






Lemma fresh_id_not_taken (ls : list ListDoc) (n id : ObjectId) :
  (forall l, In l ls -> list_id l < n) -> n <= id ->
  existsb (fun d => ObjectId_eqb (list_id d) id) ls = false.
Proof.
  intros Hfresh Hn. induction ls as [ | l ls IH]; simpl; [reflexivity | ].
  assert (Hl : list_id l < n) by (apply Hfresh; left; reflexivity).
  unfold ObjectId_eqb at 1. destruct (Nat.eqb_spec (list_id l) id); [lia | ].
  apply IH. intros x Hx. apply Hfresh. right. exact Hx.
Qed.

(** Saving a list that was just constructed, when the store takes the
    write and has no list with its id: the list is appended to the
    collection, with [updatedAt] stamped by the pre-save hook. *)
Lemma save_new_list_run {T} (d : Doc T) w (l : ListDoc) :
  faults w = [] ->
  existsb (fun x => ObjectId_eqb (list_id x) (list_id l)) (Lists w) = false ->
  call (constructed l) save (d, w)
  = (Returned (tt, loaded (set_list_updatedAt (clock w (ticks w)) l)),
     (d, with_Lists (Lists w ++ [set_list_updatedAt (clock w (ticks w)) l])
           (with_ticks (S (ticks w)) w))).
Proof.
  intros Hf Hfresh. run_method.
  change (list_id (set_list_updatedAt (clock w (ticks w)) l)) with (list_id l).
  cbn [Lists with_ticks]. rewrite Hfresh.
  cbn [fst snd faults with_ticks]. rewrite Hf. reflexivity.
Qed.


Lemma store_write_run {T} (d : Doc T) w change :
  faults w = [] -> lift (store_write change) (d, w) = (Returned tt, (d, change w)).
Proof. intros Hf. unfold lift, store_write. cbn [fst snd]. rewrite Hf. reflexivity. Qed.

Lemma find_app {A} (p : A -> bool) l l' :
  List.find p (l ++ l')
  = match List.find p l with Some x => Some x | None => List.find p l' end.
Proof.
  induction l as [ | a l IH]; simpl; [reflexivity | ].
  destruct (p a); [reflexivity | exact IH].
Qed.

Lemma findById_fresh (ls : list ListDoc) (n id : ObjectId) :
  (forall l, In l ls -> list_id l < n) -> n <= id ->
  findById list_id id ls = None.
Proof.
  intros Hfresh Hn. unfold findById. apply find_none_iff. intros x Hx.
  specialize (Hfresh x Hx). unfold ObjectId_eqb. apply Nat.eqb_neq. lia.
Qed.


Lemma findById_updateOne_same {D} (get_id : D -> ObjectId) id (f : D -> D) l :
  (forall d, get_id (f d) = get_id d) ->
  findById get_id id (updateOne get_id id f l) = option_map f (findById get_id id l).
Proof.
  intros Hid. unfold findById. induction l as [ | d l IH]; simpl; [reflexivity | ].
  destruct (ObjectId_eqb (get_id d) id) eqn:E; simpl.
  - rewrite Hid, E. reflexivity.
  - rewrite E. exact IH.
Qed.



(** ** Items of a list: [addItem] and [updateItem] *)


Lemma last_element_push {A} (l : list A) (x : A) :
  ListModel.last_element (l ++ [x]) = Some x.
Proof.
  unfold ListModel.last_element. rewrite List.map_app. apply List.last_last.
Qed.








(* ================================================================== *)
(** * Further properties *)
(* ================================================================== *)

(** ** Letters and cases *)

Lemma toUpperCaseChar_idempotent (c : ascii) :
  JS.toUpperCaseChar (JS.toUpperCaseChar c) = JS.toUpperCaseChar c.
Proof.
  destruct c as [b0 b1 b2 b3 b4 b5 b6 b7];
    destruct b0, b1, b2, b3, b4, b5, b6, b7; reflexivity.
Qed.

Lemma toUpperCase_idempotent (s : string) :
  JS.toUpperCase (JS.toUpperCase s) = JS.toUpperCase s.
Proof.
  induction s as [ | c s IH]; simpl; [reflexivity | ].
  rewrite toUpperCaseChar_idempotent, IH. reflexivity.
Qed.

(** A consonant of the alphabet is an upper-case letter and not a
    vowel. *)
Lemma consonant_facts (c : ascii) :
  member shareCodeGenerator.consonants c = true ->
  JS.toUpperCaseChar c = c /\ member shareCodeGenerator.vowels c = false /\
  In c (list_ascii_of_string shareCodeGenerator.consonants).
Proof.
  destruct c as [b0 b1 b2 b3 b4 b5 b6 b7];
    destruct b0, b1, b2, b3, b4, b5, b6, b7;
    intros H; try discriminate H;
    (split; [reflexivity | split; [reflexivity | ]]);
    simpl; repeat first [left; reflexivity | right].
Qed.

Lemma vowel_facts (c : ascii) :
  member shareCodeGenerator.vowels c = true ->
  JS.toUpperCaseChar c = c /\
  In c (list_ascii_of_string shareCodeGenerator.vowels).
Proof.
  destruct c as [b0 b1 b2 b3 b4 b5 b6 b7];
    destruct b0, b1, b2, b3, b4, b5, b6, b7;
    intros H; try discriminate H;
    (split; [reflexivity | ]);
    simpl; repeat first [left; reflexivity | right].
Qed.

(** [isValidCode] on a string of five characters. *)
Lemma isValidCode_five (a b c d e : ascii) :
  shareCodeGenerator.isValidCode
    (String a (String b (String c (String d (String e EmptyString)))))
  = member shareCodeGenerator.consonants (JS.toUpperCaseChar a)
    && member shareCodeGenerator.vowels (JS.toUpperCaseChar b)
    && member shareCodeGenerator.consonants (JS.toUpperCaseChar c)
    && member shareCodeGenerator.vowels (JS.toUpperCaseChar d)
    && member shareCodeGenerator.consonants (JS.toUpperCaseChar e).
Proof. reflexivity. Qed.

(** ** [generateCode], [isValidCode], [generateWithPrefix] *)

(** X1: [generateCode] always returns, after exactly five readings of
    [Math.random], a code of five characters, in upper case, that
    [isValidCode] accepts. *)
Theorem generateCode_always_valid (w : World) :
  exists code,
    shareCodeGenerator.generateCode w = (Returned code, with_draws (5 + draws w) w) /\
    String.length code = 5 /\
    JS.toUpperCase code = code /\
    shareCodeGenerator.isValidCode code = true.
Proof.
  destruct (generateCode_spec w)
    as (c1 & v1 & c2 & v2 & c3 & R & [M1 U1] & [M2 U2] & [M3 U3] & [M4 U4] & [M5 U5]).
  eexists. split; [exact R | ]. split; [reflexivity | ].
  split.
  - cbn [JS.toUpperCase]. rewrite U1, U2, U3, U4, U5. reflexivity.
  - rewrite isValidCode_five, U1, U2, U3, U4, U5, M1, M2, M3, M4, M5. reflexivity.
Qed.


Lemma string_of_length_0 (s : string) : String.length s = 0 -> s = EmptyString.
Proof. destruct s; [reflexivity | discriminate]. Qed.

Lemma string_of_length_S (s : string) n :
  String.length s = S n -> exists c r, s = String c r /\ String.length r = n.
Proof.
  destruct s as [ | c r]; [discriminate | ]. intros H. injection H as H.
  exists c, r. auto.
Qed.

(** X3: whether the code that [generateWithPrefix] returns is a valid
    share code is decided by the prefix alone.  With no prefix the code
    is always valid; with a prefix of one character it never is; with a
    prefix of two characters it is valid exactly when the prefix is a
    consonant followed by a vowel (in either case). *)
Theorem generateWithPrefix_validity (prefix : string) (w : World) :
  String.length prefix <= 2 ->
  exists code,
    fst (shareCodeGenerator.generateWithPrefix prefix w) = Returned code /\
    shareCodeGenerator.isValidCode code = prefix_fits (JS.toUpperCase prefix).
Proof.
  intros Hlen.
  destruct (generateWithPrefix_short prefix w Hlen) as (rest & R & L & A).
  exists (JS.toUpperCase prefix ++ rest). rewrite R. split; [reflexivity | ].
  pose proof (toUpperCase_idempotent prefix) as Hidem.
  rewrite <- (length_toUpperCase prefix) in L, Hlen.
  destruct (JS.toUpperCase prefix) as [ | c0 [ | c1 [ | c2 more]]];
    cbn [String.length] in L, Hlen; [ | | | lia].
  - (* no prefix *)
    destruct (string_of_length_S _ _ L) as (r0 & s0 & -> & L0).
    destruct (string_of_length_S _ _ L0) as (r1 & s1 & -> & L1).
    destruct (string_of_length_S _ _ L1) as (r2 & s2 & -> & L2).
    destruct (string_of_length_S _ _ L2) as (r3 & s3 & -> & L3).
    destruct (string_of_length_S _ _ L3) as (r4 & s4 & -> & L4).
    apply string_of_length_0 in L4. subst s4.
    cbn in A. repeat rewrite andb_true_iff in A.
    destruct A as (A0 & A1 & A2 & A3 & A4 & _).
    destruct (consonant_facts _ A0) as (U0 & _).
    destruct (vowel_facts _ A1) as (U1 & _).
    destruct (consonant_facts _ A2) as (U2 & _).
    destruct (vowel_facts _ A3) as (U3 & _).
    destruct (consonant_facts _ A4) as (U4 & _).
    cbn [append prefix_fits]. rewrite isValidCode_five, U0, U1, U2, U3, U4.
    rewrite A0, A1, A2, A3, A4. reflexivity.
  - (* one character *)
    destruct (string_of_length_S _ _ L) as (r0 & s0 & -> & L0).
    destruct (string_of_length_S _ _ L0) as (r1 & s1 & -> & L1).
    destruct (string_of_length_S _ _ L1) as (r2 & s2 & -> & L2).
    destruct (string_of_length_S _ _ L2) as (r3 & s3 & -> & L3).
    apply string_of_length_0 in L3. subst s3.
    cbn in A. repeat rewrite andb_true_iff in A.
    destruct A as (A0 & _).
    destruct (consonant_facts _ A0) as (U0 & V0 & _).
    cbn [append prefix_fits]. rewrite isValidCode_five, U0, V0.
    rewrite andb_false_r. reflexivity.
  - (* two characters *)
    destruct (string_of_length_S _ _ L) as (r0 & s0 & -> & L0).
    destruct (string_of_length_S _ _ L0) as (r1 & s1 & -> & L1).
    destruct (string_of_length_S _ _ L1) as (r2 & s2 & -> & L2).
    apply string_of_length_0 in L2. subst s2.
    cbn in A. repeat rewrite andb_true_iff in A.
    destruct A as (A0 & A1 & A2 & _).
    destruct (consonant_facts _ A0) as (U0 & _).
    destruct (vowel_facts _ A1) as (U1 & _).
    destruct (consonant_facts _ A2) as (U2 & _).
    cbn [JS.toUpperCase] in Hidem. injection Hidem as H0 H1.
    cbn [append prefix_fits]. rewrite isValidCode_five, H0, H1, U0, U1, U2.
    rewrite A0, A1, A2. rewrite !andb_true_r. reflexivity.
Qed.

Lemma generateWithPrefix_validity_witness :
  exists code,
    fst (shareCodeGenerator.generateWithPrefix "ba" world_all_taken) = Returned code /\
    shareCodeGenerator.isValidCode code = true.
Proof.
  apply (generateWithPrefix_validity "ba" world_all_taken). simpl. lia.
Defined.

(** ** [generateUniqueCode] with a check that only reads *)

(** The codes drawn while the loop runs. *)
Lemma drawn_S k w :
  exists candidate,
    shareCodeGenerator.generateCode w = (Returned candidate, with_draws (5 + draws w) w) /\
    shareCodeGenerator.isValidCode candidate = true /\
    In candidate all_codes /\
    drawn (S k) w = candidate :: drawn k (with_draws (5 + draws w) w).
Proof.
  destruct (generateCode_spec w)
    as (c1 & v1 & c2 & v2 & c3 & R & [M1 U1] & [M2 U2] & [M3 U3] & [M4 U4] & [M5 U5]).
  eexists. split; [exact R | ]. split; [ | split].
  - rewrite isValidCode_five, U1, U2, U3, U4, U5, M1, M2, M3, M4, M5. reflexivity.
  - unfold all_codes.
    apply (in_map
             (fun p : ascii * (ascii * (ascii * (ascii * ascii))) =>
                let '(c1, (v1, (c2, (v2, c3)))) := p in
                String c1 (String v1 (String c2 (String v2 (String c3 EmptyString)))))
             _ (c1, (v1, (c2, (v2, c3))))).
    repeat apply in_prod;
      first [apply consonant_facts; assumption | apply vowel_facts; assumption].
  - cbn [drawn]. rewrite R. reflexivity.
Qed.

Lemma generateUniqueCode_search (taken : string -> bool) (check : string -> M bool) :
  (forall c w, check c w = (Returned (taken c), w)) ->
  forall k fuel code attempts w,
    attempts + k = shareCodeGenerator.maxAttempts ->
    k <= fuel ->
    exists s,
      fst (while fuel
             (fun s => negb (shareCodeGenerator.ul_isUnique s)
                       && (shareCodeGenerator.ul_attempts s <? shareCodeGenerator.maxAttempts))
             (fun s =>
                code <- shareCodeGenerator.generateCode ;;
                exists_ <- check code ;;
                let isUnique := if negb exists_ then true
                                else shareCodeGenerator.ul_isUnique s in
                ret {| shareCodeGenerator.ul_code := Some code;
                       shareCodeGenerator.ul_isUnique := isUnique;
                       shareCodeGenerator.ul_attempts :=
                         shareCodeGenerator.ul_attempts s + 1 |})
             {| shareCodeGenerator.ul_code := code;
                shareCodeGenerator.ul_isUnique := false;
                shareCodeGenerator.ul_attempts := attempts |} w)
      = Returned s /\
      match List.find (fun c => negb (taken c)) (drawn k w) with
      | Some c => shareCodeGenerator.ul_code s = Some c /\
                  shareCodeGenerator.ul_isUnique s = true
      | None => shareCodeGenerator.ul_isUnique s = false
      end.
Proof.
  intros Hcheck. induction k as [ | k IH]; intros fuel code attempts w Hk Hfuel.
  - eexists. rewrite while_done.
    + split; reflexivity.
    + cbn [shareCodeGenerator.ul_isUnique shareCodeGenerator.ul_attempts negb andb].
      apply Nat.ltb_ge. lia.
  - destruct fuel as [ | fuel]; [lia | ].
    rewrite while_step.
    2:{ cbn [shareCodeGenerator.ul_isUnique shareCodeGenerator.ul_attempts negb andb].
        apply Nat.ltb_lt. lia. }
    destruct (drawn_S k w) as (candidate & R & _ & _ & ->).
    cbn [List.find].
    erewrite bind_Returned.
    2:{ erewrite bind_Returned by exact R.
        erewrite bind_Returned by apply Hcheck.
        reflexivity. }
    destruct (taken candidate) eqn:Htaken; cbn [negb].
    + destruct (IH fuel (Some candidate) (attempts + 1) (with_draws (5 + draws w) w))
        as (s & Hloop & Hs); [lia | lia | ].
      exists s. split; assumption.
    + eexists. rewrite while_done by reflexivity. split; [reflexivity | ].
      split; reflexivity.
Qed.

(** X4: with a check that answers from a fixed set of taken codes,
    [generateUniqueCode] returns the first of its first 100 candidates
    that is not taken, and throws "Failed to generate unique code after
    maximum attempts" when all 100 are taken; with 100 rounds or more it
    is never still running. *)
Theorem generateUniqueCode_first_free (taken : string -> bool)
    (check : string -> M bool) (fuel : nat) (w : World) :
  (forall c w, check c w = (Returned (taken c), w)) ->
  shareCodeGenerator.maxAttempts <= fuel ->
  fst (shareCodeGenerator.generateUniqueCode fuel check w)
  = match List.find (fun c => negb (taken c)) (drawn shareCodeGenerator.maxAttempts w) with
    | Some code => Returned (Some code)
    | None => Thrown CodeSpaceExhausted
    end.
Proof.
  intros Hcheck Hfuel.
  destruct (generateUniqueCode_search taken check Hcheck shareCodeGenerator.maxAttempts
              fuel None 0 w) as (s & Hloop & Hs); [reflexivity | assumption | ].
  unfold shareCodeGenerator.generateUniqueCode.
  unfold bind at 1.
  destruct (while _ _ _ _ w) as [r w'] eqn:E. cbn [fst] in Hloop. subst r.
  destruct (List.find _ _) as [c | ].
  - destruct Hs as [Hc Hu]. rewrite Hu. cbn [negb]. rewrite Hc. reflexivity.
  - rewrite Hs. reflexivity.
Qed.

Lemma generateUniqueCode_first_free_witness :
  fst (shareCodeGenerator.generateUniqueCode 100
         (fun c => ret (String.eqb c "BABAB")) world_all_taken)
  = Thrown CodeSpaceExhausted.
Proof.
  rewrite (generateUniqueCode_first_free (fun c => String.eqb c "BABAB")
             (fun c => ret (String.eqb c "BABAB")) 100 world_all_taken
             (fun c w => eq_refl) (le_n _)).
  vm_compute. reflexivity.
Defined.

(** ** [generateBatch] *)

Lemma Set_add_all_cons c l acc :
  Set_add_all (c :: l) acc = Set_add_all l (shareCodeGenerator.Set_add c acc).
Proof. reflexivity. Qed.

Lemma existsb_eqb_In (c : string) (l : list string) :
  existsb (String.eqb c) l = false -> ~ In c l.
Proof.
  intros H Hin.
  assert (existsb (String.eqb c) l = true) as H'.
  { apply existsb_exists. exists c. split; [assumption | apply String.eqb_refl]. }
  congruence.
Qed.

Lemma Set_add_NoDup c l : NoDup l -> NoDup (shareCodeGenerator.Set_add c l).
Proof.
  intros H. unfold shareCodeGenerator.Set_add.
  destruct (existsb (String.eqb c) l) eqn:E; [assumption | ].
  apply NoDup_app; [assumption | repeat constructor; intros [] | ].
  intros x Hx [<- | []]. exact (existsb_eqb_In _ _ E Hx).
Qed.

Lemma Set_add_In c l x :
  In x (shareCodeGenerator.Set_add c l) -> x = c \/ In x l.
Proof.
  unfold shareCodeGenerator.Set_add.
  destruct (existsb (String.eqb c) l); [auto | ].
  intros H. apply in_app_or in H. destruct H as [H | [<- | []]]; auto.
Qed.

Lemma Set_add_length c l :
  List.length (shareCodeGenerator.Set_add c l) <= S (List.length l).
Proof.
  unfold shareCodeGenerator.Set_add.
  destruct (existsb (String.eqb c) l); [lia | ].
  rewrite length_app. simpl. lia.
Qed.

Lemma generateBatch_loop (count : Z) : forall fuel acc w,
  NoDup acc ->
  (forall c, In c acc -> shareCodeGenerator.isValidCode c = true) ->
  (Z.of_nat (List.length acc) <= Z.max 0 count)%Z ->
  (count <= Z.of_nat (List.length (Set_add_all (drawn fuel w) acc)))%Z ->
  exists codes,
    fst (while fuel
           (fun codes => (Z.of_nat (List.length codes) <? count)%Z)
           (fun codes => c <- shareCodeGenerator.generateCode ;;
                         ret (shareCodeGenerator.Set_add c codes))
           acc w) = Returned codes /\
    Z.of_nat (List.length codes) = Z.max 0 count /\
    NoDup codes /\
    (forall c, In c codes -> shareCodeGenerator.isValidCode c = true).
Proof.
  induction fuel as [ | fuel IH]; intros acc w Hnd Hvalid Hlen Henough.
  - cbn [drawn Set_add_all List.fold_left] in Henough.
    exists acc. rewrite while_done by (apply Z.ltb_ge; lia).
    split; [reflexivity | ]. split; [lia | auto].
  - destruct (Z.ltb_spec (Z.of_nat (List.length acc)) count) as [Hlt | Hge].
    + rewrite while_step by (apply Z.ltb_lt; assumption).
      destruct (drawn_S fuel w) as (candidate & R & Hv & _ & Hd).
      rewrite Hd, Set_add_all_cons in Henough.
      erewrite bind_Returned by (erewrite bind_Returned by exact R; reflexivity).
      apply IH.
      * apply Set_add_NoDup. assumption.
      * intros c Hc. apply Set_add_In in Hc. destruct Hc as [-> | Hc]; auto.
      * pose proof (Set_add_length candidate acc). lia.
      * assumption.
    + exists acc. rewrite while_done by (apply Z.ltb_ge; lia).
      split; [reflexivity | ]. split; [lia | auto].
Qed.

(** X5: when the candidates that [generateBatch] draws in its rounds
    hold at least [count] different codes, [generateBatch(count)]
    returns exactly [count] codes (none for a [count] of zero or less),
    no two of them equal, and [isValidCode] accepts each of them. *)
Theorem generateBatch_distinct_valid (fuel : nat) (count : Z) (w : World) :
  (count <= Z.of_nat (List.length (Set_add_all (drawn fuel w) [])))%Z ->
  exists codes,
    fst (shareCodeGenerator.generateBatch fuel count w) = Returned codes /\
    Z.of_nat (List.length codes) = Z.max 0 count /\
    NoDup codes /\
    (forall c, In c codes -> shareCodeGenerator.isValidCode c = true).
Proof.
  intros Henough.
  destruct (generateBatch_loop count fuel [] w) as (codes & Hrun & Hrest).
  - constructor.
  - intros c [].
  - simpl. lia.
  - assumption.
  - exists codes. split; [ | assumption].
    unfold shareCodeGenerator.generateBatch, bind.
    destruct (while _ _ _ _ w) as [r w']. cbn [fst] in Hrun. subst r. reflexivity.
Qed.

Lemma generateBatch_distinct_valid_witness :
  exists codes,
    fst (shareCodeGenerator.generateBatch 3 1 world_all_taken) = Returned codes /\
    Z.of_nat (List.length codes) = Z.max 0 1 /\
    NoDup codes /\
    (forall c, In c codes -> shareCodeGenerator.isValidCode c = true).
Proof.
  apply (generateBatch_distinct_valid 3 1 world_all_taken).
  vm_compute. discriminate.
Defined.

Lemma all_codes_length : Z.of_nat (List.length all_codes) = shareCodeGenerator.getTotalPossibleCodes.
Proof.
  unfold all_codes. rewrite length_map. rewrite !length_prod.
  rewrite !Nat2Z.inj_mul. reflexivity.
Qed.

(** X6: there are only 21 * 5 * 21 * 5 * 21 codes.  A call of
    [generateBatch] that asks for more than [getTotalPossibleCodes()]
    codes never returns: whatever the random draws, it is still in its
    loop after any number of rounds. *)
Theorem generateBatch_too_many (fuel : nat) (count : Z) (w : World) :
  (shareCodeGenerator.getTotalPossibleCodes < count)%Z ->
  fst (shareCodeGenerator.generateBatch fuel count w) = Diverged.
Proof.
  intros Hcount.
  apply bind_fst_Diverged.
  apply (while_forever _ _
           (fun (codes : list string) (_ : World) =>
              NoDup codes /\ incl codes all_codes)).
  - intros codes w0 [Hnd Hincl]. split.
    + apply Z.ltb_lt. pose proof (NoDup_incl_length Hnd Hincl) as Hle.
      pose proof all_codes_length. lia.
    + destruct (drawn_S 0 w0) as (candidate & R & _ & Hin & _).
      eexists _, _. split.
      * erewrite bind_Returned by exact R. reflexivity.
      * split; [apply Set_add_NoDup; assumption | ].
        intros c Hc. apply Set_add_In in Hc.
        destruct Hc as [-> | Hc]; [exact Hin | exact (Hincl c Hc)].
  - split; [constructor | intros c []].
Qed.

Lemma generateBatch_too_many_witness :
  fst (shareCodeGenerator.generateBatch 7 231526 world_all_taken) = Diverged.
Proof.
  apply (generateBatch_too_many 7 231526 world_all_taken). reflexivity.
Defined.

(** ** [generateCustomPattern] *)

Lemma append_empty (s : string) : s ++ EmptyString = s.
Proof. induction s as [ | x s IH]; simpl; congruence. Qed.



(** X8: a pattern that reads CVCVC in upper case, and the pattern left
    out, make [generateCustomPattern] behave as [generateCode]: from the
    same random draws it returns the same code, which [isValidCode]
    accepts. *)
Theorem generateCustomPattern_default (pattern : option string) (w : World) :
  match pattern with
  | Some p => JS.toUpperCase p = "CVCVC"
  | None => True
  end ->
  shareCodeGenerator.generateCustomPattern pattern w = shareCodeGenerator.generateCode w /\
  exists code,
    fst (shareCodeGenerator.generateCustomPattern pattern w) = Returned code /\
    shareCodeGenerator.isValidCode code = true.
Proof.
  intros Hp.
  assert (shareCodeGenerator.generateCustomPattern pattern w
          = shareCodeGenerator.generateCode w) as E.
  { unfold shareCodeGenerator.generateCustomPattern.
    destruct pattern as [p | ]; [rewrite Hp | ]; reflexivity. }
  split; [exact E | ].
  rewrite E. destruct (drawn_S 0 w) as (code & R & Hv & _).
  exists code. rewrite R. auto.
Qed.

Lemma generateCustomPattern_default_witness :
  shareCodeGenerator.generateCustomPattern (Some "cvCvc") world_all_taken
  = shareCodeGenerator.generateCode world_all_taken /\
  exists code,
    fst (shareCodeGenerator.generateCustomPattern (Some "cvCvc") world_all_taken)
    = Returned code /\
    shareCodeGenerator.isValidCode code = true.
Proof.
  apply (generateCustomPattern_default (Some "cvCvc") world_all_taken). reflexivity.
Defined.

(** ** [sanitizeInput] *)

(** [sanitizeInput] works character by character: the five characters
    are replaced by their entities, every other character is kept. *)
Lemma sanitizeInput_String (x : ascii) (s : string) :
  userValidator.sanitizeInput (String x s)
  = (if Ascii.eqb x "<" then "&lt;"
     else if Ascii.eqb x ">" then "&gt;"
     else if Ascii.eqb x "034" then "&quot;"
     else if Ascii.eqb x "'" then "&#x27;"
     else if Ascii.eqb x "/" then "&#x2F;"
     else String x EmptyString) ++ userValidator.sanitizeInput s.
Proof.
  unfold userValidator.sanitizeInput. cbn [JS.replace_all].
  destruct (Ascii.eqb x "<") eqn:E1; [reflexivity | ].
  cbn [JS.replace_all].
  destruct (Ascii.eqb x ">") eqn:E2; [reflexivity | ].
  cbn [JS.replace_all].
  destruct (Ascii.eqb x "034") eqn:E3; [reflexivity | ].
  cbn [JS.replace_all].
  destruct (Ascii.eqb x "'") eqn:E4; [reflexivity | ].
  cbn [JS.replace_all].
  destruct (Ascii.eqb x "/") eqn:E5; reflexivity.
Qed.

Lemma sanitizeInput_no_escape (input : string) :
  every (fun c => negb (needs_escape c)) (userValidator.sanitizeInput input) = true.
Proof.
  induction input as [ | x s IH]; [reflexivity | ].
  rewrite sanitizeInput_String.
  destruct (Ascii.eqb x "<") eqn:E1; [exact IH | ].
  destruct (Ascii.eqb x ">") eqn:E2; [exact IH | ].
  destruct (Ascii.eqb x "034") eqn:E3; [exact IH | ].
  destruct (Ascii.eqb x "'") eqn:E4; [exact IH | ].
  destruct (Ascii.eqb x "/") eqn:E5; [exact IH | ].
  change (negb (needs_escape x)
          && every (fun c => negb (needs_escape c)) (userValidator.sanitizeInput s) = true).
  unfold needs_escape at 1. rewrite E1, E2, E3, E4, E5, IH. reflexivity.
Qed.

Lemma sanitizeInput_keeps (input : string) :
  every (fun c => negb (needs_escape c)) input = true ->
  userValidator.sanitizeInput input = input.
Proof.
  induction input as [ | x s IH]; [reflexivity | ].
  cbn [every]. intros H. apply andb_true_iff in H. destruct H as [Hx Hs].
  rewrite sanitizeInput_String, (IH Hs).
  unfold needs_escape in Hx. apply negb_true_iff in Hx.
  repeat (apply orb_false_iff in Hx; destruct Hx as [Hx ?]).
  repeat match goal with H : Ascii.eqb _ _ = false |- _ => rewrite H; clear H end.
  reflexivity.
Qed.

(** X9: the string that [sanitizeInput] returns holds none of the five
    characters < > double quote, single quote and slash, whatever the
    input. *)
Theorem sanitizeInput_output_safe (input : string) (c : ascii) :
  In c (list_ascii_of_string (userValidator.sanitizeInput input)) ->
  c <> "<"%char /\ c <> ">"%char /\ c <> "034"%char /\ c <> "'"%char /\ c <> "/"%char.
Proof.
  pose proof (sanitizeInput_no_escape input) as H.
  induction (userValidator.sanitizeInput input) as [ | x s IH]; [intros [] | ].
  cbn [every] in H. apply andb_true_iff in H. destruct H as [Hx Hs].
  intros [<- | Hin]; [ | exact (IH Hs Hin)].
  unfold needs_escape in Hx. apply negb_true_iff in Hx.
  repeat (apply orb_false_iff in Hx; destruct Hx as [Hx ?]).
  repeat match goal with
         | H : Ascii.eqb _ _ = false |- _ => apply Ascii.eqb_neq in H
         end.
  auto.
Qed.

Lemma sanitizeInput_output_safe_witness :
  "&"%char <> "<"%char /\ "&"%char <> ">"%char /\ "&"%char <> "034"%char /\
  "&"%char <> "'"%char /\ "&"%char <> "/"%char.
Proof. apply (sanitizeInput_output_safe "<b>" "&"). simpl. auto. Defined.

(** X10: [sanitizeInput] returns its input unchanged exactly when the
    input holds none of the five characters; so sanitising twice gives
    the same as sanitising once. *)
Theorem sanitizeInput_fixed_points (input : string) :
  (userValidator.sanitizeInput input = input <->
   every (fun c => negb (needs_escape c)) input = true) /\
  userValidator.sanitizeInput (userValidator.sanitizeInput input)
  = userValidator.sanitizeInput input.
Proof.
  split; [split | ].
  - intros H. rewrite <- H. apply sanitizeInput_no_escape.
  - apply sanitizeInput_keeps.
  - apply sanitizeInput_keeps, sanitizeInput_no_escape.
Qed.

(** ** The regular expressions of [isValidEmail] and [isValidMobile] *)

(** What the matcher of [[class]+] finds: a non-empty run of characters
    of the class, followed by a rest that the continuation accepts. *)
Lemma match_OneOrMore_iff (class : ascii -> bool) (k : string -> bool) (s : string) :
  JS.match_OneOrMore class s k = true <->
  exists run rest,
    s = run ++ rest /\ run <> EmptyString /\ every class run = true /\ k rest = true.
Proof.
  induction s as [ | c s IH]; cbn [JS.match_OneOrMore].
  - split; [discriminate | ].
    intros (run & rest & Hs & Hne & _). destruct run; [congruence | discriminate].
  - split.
    + intros H. apply andb_true_iff in H. destruct H as [Hc H].
      apply orb_true_iff in H. destruct H as [H | H].
      * exists (String c EmptyString), s. cbn. rewrite Hc. repeat split; congruence.
      * apply IH in H. destruct H as (run & rest & -> & Hne & Hrun & Hk).
        exists (String c run), rest. cbn. rewrite Hc, Hrun. repeat split; congruence.
    + intros (run & rest & Hs & Hne & Hrun & Hk).
      destruct run as [ | c' run]; [congruence | ].
      cbn in Hs. injection Hs as <- ->.
      cbn [every] in Hrun. apply andb_true_iff in Hrun. destruct Hrun as [Hc Hrun].
      rewrite Hc. cbn [andb]. apply orb_true_iff.
      destruct run as [ | c'' run].
      * left. exact Hk.
      * right. apply IH. exists (String c'' run), rest. repeat split; congruence.
Qed.

Lemma match_OneOrMore_to_the_end (class : ascii -> bool) (s : string) :
  JS.match_OneOrMore class s
    (fun rest => match rest with EmptyString => true | _ => false end) = true <->
  s <> EmptyString /\ every class s = true.
Proof.
  rewrite match_OneOrMore_iff. split.
  - intros (run & rest & -> & Hne & Hrun & Hk).
    destruct rest; [ | discriminate]. rewrite append_empty. auto.
  - intros [Hne Hs]. exists s, EmptyString. rewrite append_empty. auto.
Qed.

(** X11: [isValidEmail] accepts exactly the strings of the form
    local@domain.tld in which the three parts are not empty and hold
    neither white space nor another @.  (Dots are allowed in every part;
    the last part need not be a known domain.) *)
Theorem isValidEmail_iff (email_ : string) :
  userValidator.isValidEmail email_ = true <->
  exists local domain tld,
    email_ = local ++ "@" ++ domain ++ "." ++ tld /\
    local <> EmptyString /\ domain <> EmptyString /\ tld <> EmptyString /\
    every userValidator.not_space_or_at local = true /\
    every userValidator.not_space_or_at domain = true /\
    every userValidator.not_space_or_at tld = true.
Proof.
  unfold userValidator.isValidEmail, JS.test, userValidator.emailRegex.
  cbn [JS.match_from]. rewrite match_OneOrMore_iff. split.
  - intros (local & r1 & -> & Hl & Hlocal & H).
    destruct r1 as [ | c1 r1]; [discriminate | ].
    apply andb_true_iff in H. destruct H as [Hc1 H].
    apply Ascii.eqb_eq in Hc1. subst c1.
    apply match_OneOrMore_iff in H. destruct H as (domain & r2 & -> & Hd & Hdomain & H).
    destruct r2 as [ | c2 r2]; [discriminate | ].
    apply andb_true_iff in H. destruct H as [Hc2 H].
    apply Ascii.eqb_eq in Hc2. subst c2.
    apply match_OneOrMore_to_the_end in H. destruct H as [Ht Htld].
    exists local, domain, r2. repeat split; assumption.
  - intros (local & domain & tld & -> & Hl & Hd & Ht & Hlocal & Hdomain & Htld).
    exists local, ("@" ++ domain ++ "." ++ tld). repeat split; try assumption.
    cbn [append]. rewrite Ascii.eqb_refl. cbn [andb].
    apply match_OneOrMore_iff.
    exists domain, ("." ++ tld). repeat split; try assumption.
    cbn [append]. rewrite Ascii.eqb_refl. cbn [andb].
    apply match_OneOrMore_to_the_end. auto.
Qed.

(** X12: [isValidMobile] accepts exactly the strings of ten characters
    or more that are made of digits, white space and the characters
    - + ( ) only.  No digit is asked for. *)
Theorem isValidMobile_iff (mobile : string) :
  userValidator.isValidMobile mobile = true <->
  10 <= String.length mobile /\ every userValidator.mobile_char mobile = true.
Proof.
  unfold userValidator.isValidMobile, JS.test, userValidator.mobileRegex, JS.truthy_string.
  cbn [JS.match_from].
  rewrite !andb_true_iff, match_OneOrMore_to_the_end, Nat.leb_le, negb_true_iff,
    Nat.eqb_neq.
  split.
  - intros [[_ Hlen] [_ Hs]]. auto.
  - intros [Hlen Hs]. repeat split; try assumption; try lia.
    destruct mobile; [simpl in Hlen; lia | discriminate].
Qed.

(** ** [validateContact] *)

Lemma validateContact_isValid (contactData : userValidator.ContactData) :
  userValidator.isValid (userValidator.validateContact contactData)
  = negb (userValidator.blank (userValidator.cd_name contactData))
    && JS.truthy_object (userValidator.cd_owner contactData)
    && negb (JS.truthy_opt JS.truthy_string (userValidator.cd_email contactData)
             && negb (JS.truthy_opt userValidator.isValidEmail
                        (userValidator.cd_email contactData)))
    && negb (JS.truthy_opt JS.truthy_string (userValidator.cd_mobileNumber contactData)
             && negb (JS.truthy_opt userValidator.isValidMobile
                        (userValidator.cd_mobileNumber contactData))).
Proof.
  unfold userValidator.validateContact.
  destruct (userValidator.blank _), (JS.truthy_object _),
    (JS.truthy_opt JS.truthy_string (userValidator.cd_email contactData)
     && negb (JS.truthy_opt userValidator.isValidEmail
                (userValidator.cd_email contactData))),
    (JS.truthy_opt JS.truthy_string (userValidator.cd_mobileNumber contactData)
     && negb (JS.truthy_opt userValidator.isValidMobile
                (userValidator.cd_mobileNumber contactData)));
    reflexivity.
Qed.

Lemma truthy_string_iff (s : string) : JS.truthy_string s = true <-> s <> EmptyString.
Proof. destruct s; cbn; split; congruence. Qed.

Lemma not_blank_iff (s : option string) :
  userValidator.blank s = false <->
  exists name, s = Some name /\ JS.trim name <> EmptyString.
Proof.
  unfold userValidator.blank. destruct s as [name | ]; cbn [JS.truthy_opt negb orb].
  - rewrite orb_false_iff, negb_false_iff, truthy_string_iff, String.eqb_neq. split.
    + intros [_ H]. exists name. auto.
    + intros (n & Hn & H). injection Hn as <-. split; [ | assumption].
      intros ->. apply H. reflexivity.
  - split; [discriminate | ]. intros (n & Hn & _). discriminate Hn.
Qed.

(** A field that is checked only when it is given and not empty. *)
Lemma optional_field_iff (check : string -> bool) (field : option string) :
  negb (JS.truthy_opt JS.truthy_string field && negb (JS.truthy_opt check field)) = true <->
  (forall s, field = Some s -> s <> EmptyString -> check s = true).
Proof.
  destruct field as [s | ]; cbn [JS.truthy_opt].
  - rewrite negb_true_iff, andb_false_iff, negb_false_iff. split.
    + intros [H | H] s' Hs' Hne; injection Hs' as <-; [ | assumption].
      apply truthy_string_iff in Hne. congruence.
    + intros H. destruct (JS.truthy_string s) eqn:E; [ | auto].
      right. apply (H s eq_refl). apply truthy_string_iff. assumption.
  - split; [intros _ s Hs; discriminate Hs | reflexivity].
Qed.

(** X13: [validateContact] reports no error exactly when the name is
    given and is not blank after trimming, the owner is given, the email
    (when given and not empty) passes [isValidEmail] and the mobile
    number (when given and not empty) passes [isValidMobile]. *)
Theorem validateContact_accepts_iff (contactData : userValidator.ContactData) :
  userValidator.isValid (userValidator.validateContact contactData) = true <->
  (exists name, userValidator.cd_name contactData = Some name /\
                JS.trim name <> EmptyString) /\
  (exists owner, userValidator.cd_owner contactData = Some owner) /\
  (forall email_, userValidator.cd_email contactData = Some email_ ->
                  email_ <> EmptyString -> userValidator.isValidEmail email_ = true) /\
  (forall mobile, userValidator.cd_mobileNumber contactData = Some mobile ->
                  mobile <> EmptyString -> userValidator.isValidMobile mobile = true).
Proof.
  rewrite validateContact_isValid, !andb_true_iff, negb_true_iff, not_blank_iff,
    !optional_field_iff.
  assert (JS.truthy_object (userValidator.cd_owner contactData) = true <->
          exists owner, userValidator.cd_owner contactData = Some owner) as ->.
  { destruct (userValidator.cd_owner contactData) as [o | ]; cbn; split.
    - intros _. exists o. reflexivity.
    - reflexivity.
    - discriminate.
    - intros (o & H). discriminate H. }
  tauto.
Qed.

(** ** [generateShareCode] when a candidate is free *)

Lemma drawn_valid k : forall w c,
  In c (drawn k w) -> shareCodeGenerator.isValidCode c = true.
Proof.
  induction k as [ | k IH]; intros w c; [intros [] | ].
  destruct (drawn_S k w) as (candidate & _ & Hv & _ & ->).
  intros [<- | Hin]; [exact Hv | exact (IH _ _ Hin)].
Qed.

Lemma code_is_free_iff w c :
  code_is_free w c = true <-> List.find (holds_code c) (Users w) = None.
Proof.
  unfold code_is_free. rewrite negb_true_iff, find_none_iff. split.
  - intros H u Hu. destruct (holds_code c u) eqn:E; [ | reflexivity].
    assert (existsb (holds_code c) (Users w) = true) as H'
        by (apply existsb_exists; exists u; auto).
    congruence.
  - intros H. destruct (existsb (holds_code c) (Users w)) eqn:E; [ | reflexivity].
    apply existsb_exists in E. destruct E as (u & Hu & Hh).
    rewrite (H u Hu) in Hh. discriminate.
Qed.

(** The loop of [generateShareCode]: it stops at the first candidate
    that no stored user holds. *)
Lemma generateShareCode_search (this : Doc User)
    (body : UserModel.ShareLoop -> Method User UserModel.ShareLoop) :
  (forall v w0,
     exists candidate,
       shareCodeGenerator.generateCode w0
       = (Returned candidate, with_draws (5 + draws w0) w0) /\
       body v (this, w0)
       = (Returned {| UserModel.sl_code := Some candidate;
                      UserModel.sl_isUnique :=
                        if code_is_free w0 candidate then true
                        else UserModel.sl_isUnique v |},
          (this, with_draws (5 + draws w0) w0))) ->
  forall fuel code w code',
    List.find (code_is_free w) (drawn fuel w) = Some code' ->
    exists n,
      while fuel (fun v => negb (UserModel.sl_isUnique v)) body
        {| UserModel.sl_code := code; UserModel.sl_isUnique := false |} (this, w)
      = (Returned {| UserModel.sl_code := Some code'; UserModel.sl_isUnique := true |},
         (this, with_draws n w)).
Proof.
  intros Hbody. induction fuel as [ | fuel IH]; intros code w code' Hfind.
  - discriminate Hfind.
  - rewrite while_step by reflexivity.
    destruct (Hbody {| UserModel.sl_code := code; UserModel.sl_isUnique := false |} w)
      as (candidate & G & B).
    rewrite (bind_Returned _ _ _ _ _ B).
    cbn [drawn] in Hfind. rewrite G in Hfind. cbn [List.find] in Hfind.
    cbn [UserModel.sl_isUnique].
    destruct (code_is_free w candidate) eqn:Hfree.
    + injection Hfind as <-. exists (5 + draws w).
      rewrite while_done by reflexivity. reflexivity.
    + destruct (IH (Some candidate) (with_draws (5 + draws w) w) code' Hfind) as (n & Hn).
      exists n. rewrite Hn, with_draws_twice. reflexivity.
Qed.

Lemma generateShareCode_run (fuel : nat) (this : Doc User) (w : World) (code : string) :
  List.find (code_is_free w) (drawn fuel w) = Some code ->
  exists n,
    UserModel.generateShareCode fuel (this, w)
    = (Returned (Some code),
       ({| value := set_shareCode (Some code) (value this);
           unsaved := fun stored => set_shareCode (Some code) (unsaved this stored);
           isNew := isNew this |},
        with_draws n w)).
Proof.
  intros Hfind. unfold UserModel.generateShareCode.
  match goal with
  | |- context [while fuel ?c ?b ?v] =>
      destruct (generateShareCode_search this b) with (fuel := fuel) (code := @None string)
        (w := w) (code' := code) as (n & Hn); [ | exact Hfind | ]
  end.
  - intros v w0.
    destruct (random_consonant w0) as (c1 & _ & _ & R1).
    destruct (random_vowel (with_draws (1 + draws w0) w0)) as (v1 & _ & _ & R2).
    destruct (random_consonant (with_draws (2 + draws w0) w0)) as (c2 & _ & _ & R3).
    destruct (random_vowel (with_draws (3 + draws w0) w0)) as (v2 & _ & _ & R4).
    destruct (random_consonant (with_draws (4 + draws w0) w0)) as (c3 & _ & _ & R5).
    exists (String c1 (String v1 (String c2 (String v2 (String c3 EmptyString))))).
    split.
    + unfold shareCodeGenerator.generateCode.
      rewrite (bind_Returned _ _ _ _ _ R1), (bind_Returned _ _ _ _ _ R2),
        (bind_Returned _ _ _ _ _ R3), (bind_Returned _ _ _ _ _ R4),
        (bind_Returned _ _ _ _ _ R5). reflexivity.
    + rewrite (bind_Returned _ _ _ _ _ (lift_Returned _ this _ _ _ R1)),
        (bind_Returned _ _ _ _ _ (lift_Returned _ this _ _ _ R2)),
        (bind_Returned _ _ _ _ _ (lift_Returned _ this _ _ _ R3)),
        (bind_Returned _ _ _ _ _ (lift_Returned _ this _ _ _ R4)),
        (bind_Returned _ _ _ _ _ (lift_Returned _ this _ _ _ R5)).
      unfold bind, lift, UserModel.findOne_shareCode, findOne.
      cbn [fst snd collection UserModel_ Users with_draws].
      set (candidate :=
             String c1 (String v1 (String c2 (String v2 (String c3 EmptyString))))).
      change (find _ (Users w0)) with (find (holds_code candidate) (Users w0)).
      destruct (code_is_free w0 candidate) eqn:Hfree.
      * apply code_is_free_iff in Hfree. rewrite Hfree. reflexivity.
      * destruct (find (holds_code candidate) (Users w0)) eqn:F; [reflexivity | ].
        apply code_is_free_iff in F. congruence.
  - exists n. rewrite (bind_Returned _ _ _ _ _ Hn). reflexivity.
Qed.

(** X14: when one of the candidates that [generateShareCode] draws is
    held by no stored user, the method returns the first such candidate:
    a valid code that no stored user holds.  It assigns the code to
    [this.shareCode] in memory and writes nothing to the store; only
    the random source has moved. *)
Theorem generateShareCode_first_free (fuel : nat) (this : Doc User) (w : World)
    (code : string) :
  List.find (code_is_free w) (drawn fuel w) = Some code ->
  exists n,
    UserModel.generateShareCode fuel (this, w)
    = (Returned (Some code),
       ({| value := set_shareCode (Some code) (value this);
           unsaved := fun stored => set_shareCode (Some code) (unsaved this stored);
           isNew := isNew this |},
        with_draws n w)) /\
    shareCodeGenerator.isValidCode code = true /\
    (forall u, In u (Users w) -> shareCode u <> Some code).
Proof.
  intros Hfind. destruct (generateShareCode_run fuel this w code Hfind) as (n & Hn).
  exists n. split; [exact Hn | ].
  destruct (List.find_some _ _ Hfind) as [Hin Hfree]. split.
  - exact (drawn_valid _ _ _ Hin).
  - apply code_is_free_iff in Hfree. intros u Hu. apply holds_code_false.
    exact (proj1 (find_none_iff _ _) Hfree u Hu).
Qed.

Lemma generateShareCode_first_free_witness :
  exists n,
    UserModel.generateShareCode 1
      (loaded account_without_code, world_of_users [] [account_without_code])
    = (Returned (Some "BABAB"),
       ({| value := set_shareCode (Some "BABAB") account_without_code;
           unsaved := fun stored => set_shareCode (Some "BABAB") stored;
           isNew := false |},
        with_draws n (world_of_users [] [account_without_code]))) /\
    shareCodeGenerator.isValidCode "BABAB" = true /\
    (forall u, In u [account_without_code] -> shareCode u <> Some "BABAB").
Proof.
  apply (generateShareCode_first_free 1 (loaded account_without_code)
           (world_of_users [] [account_without_code]) "BABAB").
  vm_compute. reflexivity.
Defined.

(** ** [shareWith]: an existing grant, a missing code *)

Lemma drawn_upper k : forall w c, In c (drawn k w) -> JS.toUpperCase c = c.
Proof.
  induction k as [ | k IH]; intros w c; [intros [] | ].
  cbn [drawn].
  destruct (generateCode_spec w)
    as (c1 & v1 & c2 & v2 & c3 & R & [_ U1] & [_ U2] & [_ U3] & [_ U4] & [_ U5]).
  rewrite R. intros [<- | Hin]; [ | exact (IH _ _ Hin)].
  cbn [JS.toUpperCase]. rewrite U1, U2, U3, U4, U5. reflexivity.
Qed.

(** X15: when the user has a share code and the target has a grant
    already, [shareWith] returns the code and changes nothing: it writes
    nothing to the store, and the grant keeps the access level it had,
    whatever level the call asks for. *)
Theorem shareWith_existing_grant (fuel : nat) (target : ObjectId)
    (level : option AccessLevel) (this : Doc User) (w : World) (code : string) :
  shareCode (value this) = Some code ->
  code <> EmptyString ->
  alreadyShared target (value this) = true ->
  UserModel.shareWith fuel target level (this, w) = (Returned (Some code), (this, w)).
Proof.
  intros Hcode Hne Hshared. unfold UserModel.shareWith.
  unfold bind at 1. cbn [read fst snd].
  unfold bind at 1. rewrite Hcode, (truthy_code code Hne). cbn [negb ret].
  unfold bind at 1. cbn [read fst snd].
  fold (alreadyShared target (value this)). rewrite Hshared. cbn [negb].
  unfold bind at 1. cbn [ret]. unfold read. cbn [fst]. rewrite Hcode. reflexivity.
Qed.

Lemma shareWith_existing_grant_witness :
  UserModel.shareWith 0 2 (Some view) (loaded generous_owner, world_with_edit_grant)
  = (Returned (Some "BABAB"), (loaded generous_owner, world_with_edit_grant)).
Proof.
  apply (shareWith_existing_grant 0 2 (Some view) (loaded generous_owner)
           world_with_edit_grant "BABAB"); [reflexivity | discriminate | reflexivity].
Defined.

(** X16: [shareWith] on a stored user without a share code, when a
    candidate is free and the store takes the writes: the code is
    generated and saved, then the grant is pushed and saved.  The call
    returns the new code; the document in memory and the stored user
    both have the code and the new grant. *)
Theorem shareWith_creates_code (fuel : nat) (target : ObjectId)
    (level : option AccessLevel) (o : User) (w : World) (code : string) :
  shareCode o = None ->
  List.find (code_is_free w) (drawn fuel w) = Some code ->
  alreadyShared target o = false ->
  faults w = [] ->
  let r := UserModel.shareWith fuel target level (loaded o, w) in
  exists o' t,
    fst r = Returned (Some code) /\
    fst (snd r) = loaded o' /\
    shareCode o' = Some code /\
    sharedWith o'
    = (sharedWith o ++ [{| userId := target; sharedAt := t;
                           accessLevel := match level with
                                          | Some a => a
                                          | None => view
                                          end |}])%list /\
    (forall stored,
       findById user_id (user_id o) (Users w) = Some stored ->
       exists stored',
         findById user_id (user_id o) (Users (snd (snd r))) = Some stored' /\
         shareCode stored' = Some code /\
         sharedWith stored'
         = (sharedWith stored ++ [{| userId := target; sharedAt := t;
                                     accessLevel := match level with
                                                    | Some a => a
                                                    | None => view
                                                    end |}])%list).
Proof.
  intros Hnone Hfind Hshared Hf r. subst r.
  destruct (generateShareCode_run fuel (loaded o) w code Hfind) as (n & Hgen).
  assert (Hstep : (UserModel.generateShareCode fuel ;; save) (loaded o, w)
                  = (Returned tt,
                     (loaded (set_user_updatedAt (clock w (ticks w))
                                (set_shareCode (Some code) o)),
                      with_Users
                        (updateOne user_id (user_id o)
                           (fun stored => set_user_updatedAt (clock w (ticks w))
                                            (set_shareCode (Some code) stored))
                           (Users w))
                        (with_ticks (1 + ticks w) (with_draws n w))))).
  { rewrite (bind_Returned _ _ _ _ _ Hgen). run_method.
    cbn [faults with_draws ticks clock]. rewrite Hf. reflexivity. }
  remember (UserModel.shareWith fuel target level (loaded o, w)) as r eqn:E.
  unfold UserModel.shareWith in E.
  unfold bind at 1 in E. cbn [read loaded value fst snd] in E.
  rewrite Hnone in E. cbn [JS.truthy_opt negb] in E.
  rewrite (bind_Returned _ _ _ _ _ Hstep) in E.
  unfold bind at 1 in E.
  cbn [read loaded value fst snd sharedWith set_user_updatedAt set_shareCode] in E.
  unfold alreadyShared in Hshared. rewrite Hshared in E. cbn [negb] in E.
  revert E. run_method.
  cbn [faults with_draws with_ticks with_Users ticks clock]. rewrite Hf.
  intros ->.
  cbn [fst snd value shareCode sharedWith set_user_updatedAt push_sharedWith
       set_shareCode option_map].
  destruct (List.find_some _ _ Hfind) as [Hin _].
  rewrite (drawn_upper _ _ _ Hin).
  eexists. eexists. split; [reflexivity | ]. split; [reflexivity | ].
  cbn [shareCode sharedWith set_user_updatedAt push_sharedWith set_shareCode option_map].
  rewrite (drawn_upper _ _ _ Hin).
  split; [reflexivity | ]. split; [reflexivity | ].
  intros stored Hstored.
  cbn [Users with_Users with_ticks with_draws user_id set_user_updatedAt
       set_shareCode push_sharedWith].
  rewrite findById_updateOne_same by reflexivity.
  rewrite findById_updateOne_same by reflexivity.
  rewrite Hstored. cbn [option_map]. eexists. split; [reflexivity | ].
  cbn [shareCode sharedWith set_user_updatedAt push_sharedWith set_shareCode option_map].
  rewrite (drawn_upper _ _ _ Hin). split; reflexivity.
Qed.

Lemma shareWith_creates_code_witness :
  let r := UserModel.shareWith 1 7 None
             (loaded account_without_code, world_of_users [] [account_without_code]) in
  exists o' t,
    fst r = Returned (Some "BABAB") /\
    fst (snd r) = loaded o' /\
    shareCode o' = Some "BABAB" /\
    sharedWith o' = [{| userId := 7; sharedAt := t; accessLevel := view |}].
Proof.
  intros r.
  destruct (shareWith_creates_code 1 7 None account_without_code
              (world_of_users [] [account_without_code]) "BABAB")
    as (o' & t & H1 & H2 & H3 & H4 & _); try reflexivity.
  exists o', t. auto.
Defined.

(** ** [accessViaCode] when the store rejects a write *)

Lemma findById_updateOne_other {D} (get_id : D -> ObjectId) id id' (f : D -> D) l :
  (forall d, get_id (f d) = get_id d) ->
  id <> id' ->
  findById get_id id (updateOne get_id id' f l) = findById get_id id l.
Proof.
  intros Hid Hne. unfold findById. induction l as [ | d l IH]; simpl; [reflexivity | ].
  destruct (ObjectId_eqb (get_id d) id') eqn:E; simpl.
  - rewrite Hid. apply Nat.eqb_eq in E.
    destruct (ObjectId_eqb (get_id d) id) eqn:E'; [ | reflexivity].
    apply Nat.eqb_eq in E'. congruence.
  - rewrite IH. reflexivity.
Qed.

(** [shareWith] for a new grantee when the store rejects the write: the
    error of the store comes out, and nothing is stored. *)
Lemma shareWith_write_fails fuel target level o w rest :
  JS.truthy_opt JS.truthy_string (shareCode o) = true ->
  alreadyShared target o = false ->
  faults w = true :: rest ->
  exists o',
    UserModel.shareWith fuel target level (loaded o, w) = (Thrown StoreWriteFailed, o') /\
    Users (snd o') = Users w /\ faults (snd o') = rest.
Proof.
  intros Hcode Hshared Hf. unfold UserModel.shareWith.
  unfold bind at 1. cbn [read loaded value fst snd].
  unfold bind at 1. rewrite Hcode. cbn [negb ret].
  unfold bind at 1. cbn [read loaded value fst snd].
  unfold alreadyShared in Hshared. rewrite Hshared. cbn [negb].
  eexists. run_method. rewrite Hf. split; [reflexivity | ]. split; reflexivity.
Qed.

(** X17: a redemption is not one step.  When the store takes the write
    of the requester's access record and rejects the write of the
    owner's grant, [accessViaCode] throws the error of the store, and
    the store is left with the record on the requester and without the
    grant on the owner. *)
Theorem accessViaCode_not_atomic (fuel : nat) (code : string) (a o : User)
    (w : World) (rest : list bool) :
  List.find (holds_code (JS.toUpperCase code)) (Users w) = Some o ->
  JS.toUpperCase code <> EmptyString ->
  alreadyAccessing (JS.toUpperCase code) a = false ->
  alreadyShared (user_id a) o = false ->
  faults w = false :: true :: rest ->
  let r := UserModel.accessViaCode fuel code (loaded a, w) in
  fst r = Thrown StoreWriteFailed /\
  exists accessed updated,
    Users (snd (snd r))
    = updateOne user_id (user_id a)
        (touch_record (JS.toUpperCase code) (user_id o) accessed updated) (Users w).
Proof.
  intros Hfind Hne Hacc Hshared Hf r. subst r.
  assert (Hcode : JS.truthy_opt JS.truthy_string (shareCode o) = true).
  { destruct (List.find_some _ _ Hfind) as [_ Hh]. apply holds_code_true in Hh.
    rewrite Hh. apply truthy_code. assumption. }
  remember (UserModel.accessViaCode fuel code (loaded a, w)) as r eqn:E.
  unfold UserModel.accessViaCode in E.
  rewrite (bind_Returned _ _ _ _ _ (findOne_shareCode_run _ (loaded a) w)) in E.
  rewrite Hfind in E. cbn [option_map] in E.
  unfold bind at 1 in E. cbn [read loaded value fst snd] in E.
  unfold alreadyAccessing in Hacc. rewrite Hacc in E. cbn [negb] in E.
  unfold bind at 1 in E.
  match type of E with
  | context [match ?m (loaded a, w) with _ => _ end] =>
      assert (Hsave : m (loaded a, w)
                      = (Returned tt,
                         (loaded (touch_record (JS.toUpperCase code) (user_id o)
                                    (clock w (ticks w)) (clock w (S (ticks w))) a),
                          with_Users
                            (updateOne user_id (user_id a)
                               (touch_record (JS.toUpperCase code) (user_id o)
                                  (clock w (ticks w)) (clock w (S (ticks w))))
                               (Users w))
                            (with_faults (true :: rest) (with_ticks (2 + ticks w) w)))))
        by (run_method; rewrite Hf; reflexivity);
      rewrite Hsave in E
  end.
  unfold bind at 1 in E. cbn [read loaded value fst snd] in E.
  unfold bind at 1 in E. unfold call at 1 in E. cbn [fst snd] in E.
  match type of E with
  | context [UserModel.shareWith fuel ?t None (loaded o, ?w1)] =>
      destruct (shareWith_write_fails fuel t None o w1 rest Hcode) as ([o' w'] & R & HU & _);
        [exact Hshared | reflexivity | rewrite R in E]
  end.
  subst r. cbn [fst snd] in *. split; [reflexivity | ].
  exists (clock w (ticks w)), (clock w (S (ticks w))). rewrite HU. reflexivity.
Qed.

Lemma accessViaCode_not_atomic_witness :
  let w := world_of_users [false; true] [holder_of_BABAB; account_without_code] in
  let r := UserModel.accessViaCode 0 "babab" (loaded account_without_code, w) in
  fst r = Thrown StoreWriteFailed /\
  exists accessed updated,
    Users (snd (snd r))
    = updateOne user_id 2 (touch_record "BABAB" 1 accessed updated) (Users w).
Proof.
  intros w.
  apply (accessViaCode_not_atomic 0 "babab" account_without_code holder_of_BABAB w []);
    try reflexivity.
  discriminate.
Defined.

(** X18: a retry after a rejected write.  When the store rejects the
    write of the requester's access record, [accessViaCode] throws the
    error of the store and nothing is stored, but the document in memory
    keeps the record.  A second call on that document finds the record
    there, saves nothing for the requester, and returns the owner: the
    stored requester is still without the record. *)
Theorem accessViaCode_retry (fuel : nat) (code : string) (a o : User) (w : World) :
  List.find (holds_code (JS.toUpperCase code)) (Users w) = Some o ->
  JS.toUpperCase code <> EmptyString ->
  alreadyAccessing (JS.toUpperCase code) a = false ->
  user_id a <> user_id o ->
  faults w = [true] ->
  let r1 := UserModel.accessViaCode fuel code (loaded a, w) in
  let r2 := UserModel.accessViaCode fuel code (snd r1) in
  fst r1 = Thrown StoreWriteFailed /\
  Users (snd (snd r1)) = Users w /\
  (exists o', fst r2 = Returned (loaded o')) /\
  alreadyAccessing (JS.toUpperCase code) (value (fst (snd r2))) = true /\
  findById user_id (user_id a) (Users (snd (snd r2)))
  = findById user_id (user_id a) (Users w).
Proof.
  intros Hfind Hne Hacc Hid Hf r1 r2. subst r2 r1.
  assert (Hcode : JS.truthy_opt JS.truthy_string (shareCode o) = true).
  { destruct (List.find_some _ _ Hfind) as [_ Hh]. apply holds_code_true in Hh.
    rewrite Hh. apply truthy_code. assumption. }
  set (record := {| access_code := JS.toUpperCase code; ownerId := user_id o;
                    accessedAt := clock w (ticks w) |}).
  set (a1 := set_user_updatedAt (clock w (S (ticks w))) (push_accessingViaCode record a)).
  set (d1 := {| value := a1;
                unsaved := fun stored =>
                             set_user_updatedAt (clock w (S (ticks w)))
                               (push_accessingViaCode record stored);
                isNew := false |}).
  set (w1 := with_faults [] (with_ticks (2 + ticks w) w)).
  assert (R1 : UserModel.accessViaCode fuel code (loaded a, w)
               = (Thrown StoreWriteFailed, (d1, w1))).
  { unfold UserModel.accessViaCode.
    rewrite (bind_Returned _ _ _ _ _ (findOne_shareCode_run _ (loaded a) w)).
    rewrite Hfind. cbn [option_map].
    unfold bind at 1. cbn [read loaded value fst snd].
    unfold alreadyAccessing in Hacc. rewrite Hacc. cbn [negb].
    unfold bind at 1. run_method. rewrite Hf. reflexivity. }
  rewrite R1. cbn [fst snd].
  assert (Hacc1 : alreadyAccessing (JS.toUpperCase code) a1 = true).
  { unfold alreadyAccessing, a1.
    cbn [accessingViaCode set_user_updatedAt push_accessingViaCode].
    rewrite existsb_app. cbn [existsb access_code record].
    rewrite String.eqb_refl. apply orb_true_iff. right. reflexivity. }
  assert (R2 : exists o' w2,
             UserModel.accessViaCode fuel code (d1, w1) = (Returned (loaded o'), (d1, w2)) /\
             Users w2 = (if alreadyShared (user_id a) o then Users w
                         else updateOne user_id (user_id o)
                                (touch_grant (user_id a) view
                                   (clock w1 (ticks w1)) (clock w1 (S (ticks w1))))
                                (Users w))).
  { unfold UserModel.accessViaCode.
    rewrite (bind_Returned _ _ _ _ _ (findOne_shareCode_run _ d1 w1)).
    change (Users w1) with (Users w). rewrite Hfind. cbn [option_map].
    unfold bind at 1. cbn [read value fst snd d1].
    unfold alreadyAccessing in Hacc1. rewrite Hacc1. cbn [negb].
    unfold bind at 1. cbn [ret]. unfold bind at 1. cbn [read value fst snd].
    unfold bind at 1. unfold call at 1. cbn [fst snd].
    match goal with
    | |- context [UserModel.shareWith fuel ?t None (loaded o, ?w0)] =>
        change (UserModel.shareWith fuel t None (loaded o, w0))
          with (UserModel.shareWith fuel (user_id a) None (loaded o, w1))
    end.
    rewrite (shareWith_run fuel (user_id a) None o w1 Hcode eq_refl).
    fold (alreadyShared (user_id a) o).
    destruct (alreadyShared (user_id a) o).
    - exists o, w1. split; reflexivity.
    - eexists. eexists. cbn. split; reflexivity. }
  destruct R2 as (o' & w2 & R2 & HU). rewrite R2. cbn [fst snd].
  split; [reflexivity | ]. split; [reflexivity | ].
  split; [exists o'; reflexivity | ]. split; [exact Hacc1 | ].
  rewrite HU. destruct (alreadyShared (user_id a) o); [reflexivity | ].
  apply findById_updateOne_other; [reflexivity | exact Hid].
Qed.

Lemma accessViaCode_retry_witness :
  let w := world_of_users [true] [holder_of_BABAB; account_without_code] in
  let r1 := UserModel.accessViaCode 0 "babab" (loaded account_without_code, w) in
  let r2 := UserModel.accessViaCode 0 "babab" (snd r1) in
  fst r1 = Thrown StoreWriteFailed /\
  Users (snd (snd r1)) = Users w /\
  (exists o', fst r2 = Returned (loaded o')) /\
  alreadyAccessing "BABAB" (value (fst (snd r2))) = true /\
  findById user_id 2 (Users (snd (snd r2))) = Some account_without_code.
Proof.
  intros w.
  apply (accessViaCode_retry 0 "babab" account_without_code holder_of_BABAB w);
    try reflexivity; discriminate.
Defined.

(** ** Items of a list: a missing id, alarms, deleting *)

Lemma throws_only_on_item P itemId item change :
  throws_only P (ListModel.on_item itemId item change).
Proof. unfold ListModel.on_item. throws. Qed.

#[local] Hint Resolve throws_only_on_item throws_only_save : throws.

Lemma ItemNotFound_not_store_error : ~ is_store_error ItemNotFound.
Proof. intros [H | H]; discriminate. Qed.

Lemma not_thrown {S A} (P : Error -> Prop) (m : St S A) (s : S) (e : Error) :
  throws_only P m -> ~ P e -> fst (m s) <> Thrown e.
Proof.
  intros Hm HP H. destruct (m s) as [r s'] eqn:E. simpl in H. subst r.
  apply HP. eapply Hm. exact E.
Qed.

Lemma updateItem_missing (itemId : ObjectId) (updateData : ItemUpdate)
    (this : Doc ListDoc) (w : World) :
  (fst (ListModel.updateItem itemId updateData (this, w)) = Thrown ItemNotFound
   <-> findById item_id itemId (items (value this)) = None) /\
  (findById item_id itemId (items (value this)) = None ->
   ListModel.updateItem itemId updateData (this, w) = (Thrown ItemNotFound, (this, w))).
Proof.
  unfold ListModel.updateItem. unfold bind at 1. cbn [read fst snd].
  destruct (findById item_id itemId (items (value this))) as [item | ] eqn:F.
  - split; [ | discriminate]. split; [ | discriminate]. intros H. exfalso. revert H.
    apply (not_thrown is_store_error); [throws | exact ItemNotFound_not_store_error].
  - split; [split; reflexivity | ].
    intros _. unfold bind at 1. cbn [read fst snd]. rewrite F. reflexivity.
Qed.

Lemma addAlarmToItem_missing (itemId : ObjectId) (alarmData : AlarmData)
    (this : Doc ListDoc) (w : World) :
  (fst (ListModel.addAlarmToItem itemId alarmData (this, w)) = Thrown ItemNotFound
   <-> findById item_id itemId (items (value this)) = None) /\
  (findById item_id itemId (items (value this)) = None ->
   ListModel.addAlarmToItem itemId alarmData (this, w) = (Thrown ItemNotFound, (this, w))).
Proof.
  unfold ListModel.addAlarmToItem. unfold bind at 1. cbn [read fst snd].
  destruct (findById item_id itemId (items (value this))) as [item | ] eqn:F.
  - split; [ | discriminate]. split; [ | discriminate]. intros H. exfalso. revert H.
    apply (not_thrown is_store_error); [throws | exact ItemNotFound_not_store_error].
  - split; [split; reflexivity | ].
    intros _. unfold bind at 1. cbn [read fst snd]. rewrite F. reflexivity.
Qed.

(** X19: [updateItem] and [addAlarmToItem] throw "Item not found"
    exactly when no item of the list has the id; and then nothing has
    changed: the document is as it was, nothing is written and the clock
    is not read. *)
Theorem item_methods_ItemNotFound (itemId : ObjectId) (updateData : ItemUpdate)
    (alarmData : AlarmData) (this : Doc ListDoc) (w : World) :
  (fst (ListModel.updateItem itemId updateData (this, w)) = Thrown ItemNotFound
   <-> findById item_id itemId (items (value this)) = None) /\
  (fst (ListModel.addAlarmToItem itemId alarmData (this, w)) = Thrown ItemNotFound
   <-> findById item_id itemId (items (value this)) = None) /\
  (findById item_id itemId (items (value this)) = None ->
   ListModel.updateItem itemId updateData (this, w) = (Thrown ItemNotFound, (this, w)) /\
   ListModel.addAlarmToItem itemId alarmData (this, w) = (Thrown ItemNotFound, (this, w))).
Proof.
  destruct (updateItem_missing itemId updateData this w) as [U1 U2].
  destruct (addAlarmToItem_missing itemId alarmData this w) as [A1 A2].
  split; [exact U1 | ]. split; [exact A1 | ].
  intros H. split; [exact (U2 H) | exact (A2 H)].
Qed.

Lemma item_methods_ItemNotFound_witness :
  ListModel.updateItem 9 set_completed
    (loaded list_with_pending_task, world_at_1000 [list_with_pending_task])
  = (Thrown ItemNotFound,
     (loaded list_with_pending_task, world_at_1000 [list_with_pending_task])) /\
  ListModel.addAlarmToItem 9 (bare_alarm 0)
    (loaded list_with_pending_task, world_at_1000 [list_with_pending_task])
  = (Thrown ItemNotFound,
     (loaded list_with_pending_task, world_at_1000 [list_with_pending_task])).
Proof.
  apply (item_methods_ItemNotFound 9 set_completed (bare_alarm 0)
           (loaded list_with_pending_task) (world_at_1000 [list_with_pending_task])).
  reflexivity.
Defined.

(** X20: [addAlarmToItem] on an item of the list, when the store takes
    the write: the alarm, with the defaults of the schema for what the
    payload leaves out, is appended to the alarms of that item; the
    item is returned; in memory and in the stored list, the first item
    with the id is the one that changes. *)
Theorem addAlarmToItem_appends (l : ListDoc) (itemId : ObjectId) (item : Item)
    (alarmData : AlarmData) (w : World) :
  findById item_id itemId (items l) = Some item ->
  faults w = [] ->
  let r := ListModel.addAlarmToItem itemId alarmData (loaded l, w) in
  let change := ListModel.push_alarm (ListModel.castAlarm alarmData) in
  fst r = Returned (change item) /\
  alarms (change item) = (alarms item ++ [ListModel.castAlarm alarmData])%list /\
  items (value (fst (snd r))) = updateOne item_id itemId change (items l) /\
  (forall stored,
     findById list_id (list_id l) (Lists w) = Some stored ->
     exists stored',
       findById list_id (list_id l) (Lists (snd (snd r))) = Some stored' /\
       items stored' = updateOne item_id itemId change (items stored)).
Proof.
  intros Hfind Hf r change. subst r.
  remember (ListModel.addAlarmToItem itemId alarmData (loaded l, w)) as r eqn:E.
  unfold ListModel.addAlarmToItem in E.
  unfold bind at 1 in E. cbn [read loaded value fst snd] in E. rewrite Hfind in E.
  unfold ListModel.on_item in E. revert E. run_method. rewrite Hf. intros ->.
  cbn [fst snd value items set_items set_list_updatedAt].
  split; [reflexivity | ]. split; [reflexivity | ]. split; [reflexivity | ].
  intros stored Hstored. cbn [Lists with_Lists with_ticks list_id set_list_updatedAt
                              set_items].
  rewrite findById_updateOne_same by reflexivity.
  rewrite Hstored. eexists. split; reflexivity.
Qed.

Lemma addAlarmToItem_appends_witness :
  let r := ListModel.addAlarmToItem 8 (bare_alarm 500)
             (loaded list_with_pending_task, world_at_1000 [list_with_pending_task]) in
  fst r = Returned (ListModel.push_alarm (ListModel.castAlarm (bare_alarm 500)) pending_task) /\
  alarms (ListModel.push_alarm (ListModel.castAlarm (bare_alarm 500)) pending_task)
  = [{| triggerTime := 500; alarm_type := notification; message := None;
        isTriggered := false; triggeredAt := None |}].
Proof.
  intros r.
  destruct (addAlarmToItem_appends list_with_pending_task 8 pending_task (bare_alarm 500)
              (world_at_1000 [list_with_pending_task]) eq_refl eq_refl)
    as (H1 & H2 & _).
  split; [exact H1 | exact H2].
Defined.

Lemma findById_pull_same (itemId : ObjectId) (l : list Item) :
  findById item_id itemId (ListModel.pull itemId l) = None.
Proof.
  unfold findById, ListModel.pull. apply find_none_iff. intros x Hx.
  apply filter_In in Hx. destruct Hx as [_ Hx]. apply negb_true_iff in Hx. exact Hx.
Qed.

Lemma findById_pull_other (itemId other : ObjectId) (l : list Item) :
  other <> itemId ->
  findById item_id other (ListModel.pull itemId l) = findById item_id other l.
Proof.
  intros Hne. unfold findById, ListModel.pull.
  induction l as [ | x l IH]; [reflexivity | ]. cbn [List.filter List.find].
  unfold ObjectId_eqb in *.
  destruct (Nat.eqb_spec (item_id x) itemId) as [E | E]; cbn [negb List.find].
  - destruct (Nat.eqb_spec (item_id x) other); [congruence | exact IH].
  - destruct (Nat.eqb_spec (item_id x) other); [reflexivity | exact IH].
Qed.

Lemma pull_absent (itemId : ObjectId) (l : list Item) :
  findById item_id itemId l = None -> ListModel.pull itemId l = l.
Proof.
  unfold findById, ListModel.pull. intros H.
  induction l as [ | x l IH]; [reflexivity | ]. cbn [List.find List.filter] in *.
  destruct (ObjectId_eqb (item_id x) itemId); [discriminate | ].
  cbn [negb]. rewrite (IH H). reflexivity.
Qed.

Lemma deleteItem_run (l : ListDoc) (itemId : ObjectId) (w : World) :
  faults w = [] ->
  ListModel.deleteItem itemId (loaded l, w)
  = (Returned tt,
     (loaded (set_list_updatedAt (clock w (ticks w))
                (set_items (ListModel.pull itemId) l)),
      with_Lists
        (updateOne list_id (list_id l)
           (fun stored => set_list_updatedAt (clock w (ticks w))
                            (set_items (ListModel.pull itemId) stored))
           (Lists w))
        (with_ticks (S (ticks w)) w))).
Proof.
  intros Hf. unfold ListModel.deleteItem. run_method. rewrite Hf. reflexivity.
Qed.

(** X21: [deleteItem], when the store takes the write, returns whether
    or not the list has an item with the id (a missing id is no error).
    Afterwards no item of the list has the id, every item with another
    id is found as before, and a list that had no such item has the
    items it had; the stored list loses the item as well. *)
Theorem deleteItem_removes (l : ListDoc) (itemId : ObjectId) (w : World) :
  faults w = [] ->
  let r := ListModel.deleteItem itemId (loaded l, w) in
  let after := items (value (fst (snd r))) in
  fst r = Returned tt /\
  findById item_id itemId after = None /\
  (forall other, other <> itemId ->
                 findById item_id other after = findById item_id other (items l)) /\
  (findById item_id itemId (items l) = None -> after = items l) /\
  (forall stored,
     findById list_id (list_id l) (Lists w) = Some stored ->
     exists stored',
       findById list_id (list_id l) (Lists (snd (snd r))) = Some stored' /\
       findById item_id itemId (items stored') = None /\
       forall other, other <> itemId ->
                     findById item_id other (items stored')
                     = findById item_id other (items stored)).
Proof.
  intros Hf r after. subst after r. rewrite (deleteItem_run l itemId w Hf).
  cbn [fst snd value loaded items set_items set_list_updatedAt].
  split; [reflexivity | ]. split; [apply findById_pull_same | ].
  split; [intros other Hne; apply findById_pull_other; exact Hne | ].
  split; [apply pull_absent | ].
  intros stored Hstored. cbn [Lists with_Lists].
  rewrite findById_updateOne_same by reflexivity.
  rewrite Hstored. eexists. split; [reflexivity | ].
  cbn [items set_items set_list_updatedAt].
  split; [apply findById_pull_same | ].
  intros other Hne. apply findById_pull_other. exact Hne.
Qed.

Lemma deleteItem_removes_witness :
  let r := ListModel.deleteItem 8
             (loaded list_with_pending_task, world_at_1000 [list_with_pending_task]) in
  fst r = Returned tt /\
  findById item_id 8 (items (value (fst (snd r)))) = None.
Proof.
  intros r.
  destruct (deleteItem_removes list_with_pending_task 8
              (world_at_1000 [list_with_pending_task]) eq_refl) as (H1 & H2 & _).
  split; [exact H1 | exact H2].
Defined.

(** ** [addItem], then looking the item up, then [deleteItem] *)

(** [addItem] when the store takes the write: the item gets the next
    id, the list in memory is as loaded again, and the store keeps
    taking writes. *)
Lemma addItem_run (l : ListDoc) (d : ItemData) (w : World) :
  faults w = [] ->
  exists payload item l' w',
    ListModel.addItem d (loaded l, w) = (Returned (payload, Some item), (loaded l', w')) /\
    (item_id item = nextObjectId w /\
     relatedContact item = id_relatedContact d /\
     title item = JS.trim (id_title d) /\
     status item = match id_status d with Some s => s | None => pending end) /\
    (items l' = (items l ++ [item])%list /\ list_id l' = list_id l /\
     settings l' = settings l) /\
    (faults w' = [] /\
     Lists w'
     = updateOne list_id (list_id l)
         (fun stored => set_list_updatedAt (list_updatedAt l')
                          (set_items (fun l => (l ++ [item])%list) stored))
         (Lists w)).
Proof.
  intros Hf. unfold ListModel.addItem.
  unfold bind at 1. cbn [read loaded value fst snd].
  match goal with
  | |- context [ListModel.castItem ?p] => set (d' := p)
  end.
  assert (Hd : id_relatedContact d' = id_relatedContact d /\
               id_title d' = id_title d /\ id_status d' = id_status d).
  { unfold d'. destruct (defaultAlarmTime (settings l)) as [lead | ]; [ | auto].
    destruct (id_dueDate d) as [due | ]; [ | auto].
    destruct (JS.truthy_number lead); [ | auto].
    destruct (JS.truthy_object (id_alarms d)); cbn; auto. }
  destruct Hd as (Hd1 & Hd2 & Hd3).
  exists d'. eexists. eexists. eexists.
  unfold ListModel.castItem. run_method. cbn [faults with_nextObjectId]. rewrite Hf.
  cbn [fst snd value items set_items set_list_updatedAt].
  rewrite last_element_push.
  split; [reflexivity | ].
  cbn [item_id relatedContact title status items list_id settings
       set_items set_list_updatedAt faults Lists with_Lists with_ticks
       with_nextObjectId list_updatedAt].
  rewrite Hd1, Hd2, Hd3. auto 10.
Qed.

Lemma pull_pushed (l : list Item) (item : Item) :
  (forall it, In it l -> item_id it <> item_id item) ->
  ListModel.pull (item_id item) (l ++ [item]) = l.
Proof.
  intros Hfresh. unfold ListModel.pull. rewrite List.filter_app.
  cbn [List.filter]. unfold ObjectId_eqb at 2. rewrite Nat.eqb_refl. cbn [negb].
  rewrite app_nil_r.
  induction l as [ | x l IH]; [reflexivity | ]. cbn [List.filter].
  unfold ObjectId_eqb at 1.
  destruct (Nat.eqb_spec (item_id x) (item_id item)) as [E | E].
  - exfalso. exact (Hfresh x (or_introl eq_refl) E).
  - cbn [negb]. rewrite IH; [reflexivity | ].
    intros it Hit. apply Hfresh. right. exact Hit.
Qed.

Lemma findById_pushed (l : list Item) (item : Item) :
  (forall it, In it l -> item_id it <> item_id item) ->
  findById item_id (item_id item) (l ++ [item]) = Some item.
Proof.
  intros Hfresh. unfold findById. rewrite find_app.
  assert (List.find (fun d => ObjectId_eqb (item_id d) (item_id item)) l = None) as ->.
  { apply find_none_iff. intros x Hx. apply Nat.eqb_neq. exact (Hfresh x Hx). }
  cbn [List.find]. unfold ObjectId_eqb. rewrite Nat.eqb_refl. reflexivity.
Qed.

(** X22: adding an item and deleting it again.  When the store takes
    the writes and no item of the list has the id that the new item
    gets, [addItem] returns the new item, looking its id up in the list
    finds it, and [deleteItem] with that id gives the list the items it
    had before; a stored list that was in step with the document has
    them as well. *)
Theorem addItem_then_deleteItem (l : ListDoc) (d : ItemData) (w : World) :
  faults w = [] ->
  (forall it, In it (items l) -> item_id it <> nextObjectId w) ->
  let r1 := ListModel.addItem d (loaded l, w) in
  exists payload item,
    fst r1 = Returned (payload, Some item) /\
    findById item_id (item_id item) (items (value (fst (snd r1)))) = Some item /\
    let r2 := ListModel.deleteItem (item_id item) (snd r1) in
    fst r2 = Returned tt /\
    items (value (fst (snd r2))) = items l /\
    (forall stored,
       findById list_id (list_id l) (Lists w) = Some stored ->
       items stored = items l ->
       exists stored',
         findById list_id (list_id l) (Lists (snd (snd r2))) = Some stored' /\
         items stored' = items l).
Proof.
  intros Hf Hfresh r1. subst r1.
  destruct (addItem_run l d w Hf)
    as (payload & item & l' & w' & R & (Hid & _) & (Hitems & Hlid & _) & Hf' & HL).
  rewrite R. cbn [fst snd value loaded].
  assert (Hfresh' : forall it, In it (items l) -> item_id it <> item_id item).
  { intros it Hit. rewrite Hid. exact (Hfresh it Hit). }
  exists payload, item. split; [reflexivity | ].
  split; [rewrite Hitems; apply findById_pushed; exact Hfresh' | ].
  rewrite (deleteItem_run l' (item_id item) w' Hf').
  cbn [fst snd value loaded items set_items set_list_updatedAt].
  split; [reflexivity | ].
  split; [rewrite Hitems; apply pull_pushed; exact Hfresh' | ].
  intros stored Hstored Hsame. cbn [Lists with_Lists].
  rewrite Hlid, HL.
  rewrite findById_updateOne_same by reflexivity.
  rewrite findById_updateOne_same by reflexivity.
  rewrite Hstored. cbn [option_map]. eexists. split; [reflexivity | ].
  cbn [items set_items set_list_updatedAt]. rewrite Hsame.
  apply pull_pushed. exact Hfresh'.
Qed.

Lemma addItem_then_deleteItem_witness :
  let w := world_at_1000 [list_with_pending_task] in
  let r1 := ListModel.addItem (bare_item "Write to Bob") (loaded list_with_pending_task, w) in
  exists payload item,
    fst r1 = Returned (payload, Some item) /\
    findById item_id (item_id item) (items (value (fst (snd r1)))) = Some item /\
    let r2 := ListModel.deleteItem (item_id item) (snd r1) in
    fst r2 = Returned tt /\
    items (value (fst (snd r2))) = [pending_task].
Proof.
  intros w.
  destruct (addItem_then_deleteItem list_with_pending_task (bare_item "Write to Bob") w)
    as (payload & item & H1 & H2 & H3 & H4 & _).
  - reflexivity.
  - intros it [<- | []]. discriminate.
  - exists payload, item. split; [exact H1 | ]. split; [exact H2 | ].
    split; [exact H3 | exact H4].
Defined.

(** ** The counts of a list and [updateItem] *)

Lemma count_updateOne (p : Item -> bool) (itemId : ObjectId) (f : Item -> Item)
    (l : list Item) (item : Item) :
  findById item_id itemId l = Some item ->
  List.length (List.filter p (updateOne item_id itemId f l)) + Nat.b2n (p item)
  = List.length (List.filter p l) + Nat.b2n (p (f item)).
Proof.
  unfold findById. induction l as [ | x l IH]; [discriminate | ].
  cbn [List.find updateOne]. destruct (ObjectId_eqb (item_id x) itemId).
  - intros H. injection H as ->. cbn [List.filter].
    destruct (p item), (p (f item)); cbn [List.length Nat.b2n]; lia.
  - intros H. specialize (IH H). cbn [List.filter].
    destruct (p x); cbn [List.length]; lia.
Qed.

(** X23: completing an item that is pending or in progress.  When the
    store takes the write, [updateItem] with the status [completed]
    makes [completedItemsCount] one more and [pendingItemsCount] one
    less than they were. *)
Theorem updateItem_moves_counts (l : ListDoc) (itemId : ObjectId) (item : Item)
    (updateData : ItemUpdate) (w : World) :
  findById item_id itemId (items l) = Some item ->
  upd_status updateData = Some completed ->
  status item = pending \/ status item = in_progress ->
  faults w = [] ->
  let r := ListModel.updateItem itemId updateData (loaded l, w) in
  let l' := value (fst (snd r)) in
  ListModel.completedItemsCount l' = S (ListModel.completedItemsCount l) /\
  S (ListModel.pendingItemsCount l') = ListModel.pendingItemsCount l.
Proof.
  intros Hfind Hstatus Hitem Hf r l'. subst l' r.
  set (f1 := ListModel.Object_assign updateData).
  set (f2 := ListModel.set_item_updatedAt (clock w (ticks w))).
  set (f3 := ListModel.set_completedAt (Some (clock w (S (ticks w))))).
  destruct (ListModel.updateItem itemId updateData (loaded l, w)) as [rr s'] eqn:E.
  cbn [fst snd].
  assert (Hitems :
            items (value (fst s'))
            = updateOne item_id itemId f2 (updateOne item_id itemId f1 (items l))
            \/ items (value (fst s'))
               = updateOne item_id itemId f3
                   (updateOne item_id itemId f2 (updateOne item_id itemId f1 (items l)))).
  { unfold ListModel.updateItem in E.
    unfold bind at 1 in E. cbn [read loaded value fst snd] in E. rewrite Hfind in E.
    unfold ListModel.on_item at 1 2 in E.
    unfold bind at 1 in E. unfold bind at 1 in E. cbn [assign ret fst snd] in E.
    unfold bind at 1 in E. cbn [lift Date_now fst snd] in E.
    unfold bind at 1 in E. unfold bind at 1 in E. cbn [assign ret fst snd] in E.
    unfold bind at 1 in E.
    match type of E with
    | context [if ?b then _ else _] => destruct b
    end.
    - right. revert E. unfold ListModel.on_item. run_method. cbn [faults]. rewrite Hf.
      intros E. injection E as _ <-. reflexivity.
    - left. revert E. run_method. cbn [faults]. rewrite Hf.
      intros E. injection E as _ <-. reflexivity. }
  assert (H1 : findById item_id itemId (updateOne item_id itemId f1 (items l))
               = Some (f1 item)).
  { rewrite findById_updateOne_same by reflexivity. rewrite Hfind. reflexivity. }
  assert (H2 : findById item_id itemId
                 (updateOne item_id itemId f2 (updateOne item_id itemId f1 (items l)))
               = Some (f2 (f1 item))).
  { rewrite findById_updateOne_same by reflexivity. rewrite H1. reflexivity. }
  assert (Hs1 : status (f1 item) = completed).
  { unfold f1. cbn [status ListModel.Object_assign]. rewrite Hstatus. reflexivity. }
  set (isCompleted := fun it : Item => Status_eqb (status it) completed).
  set (isPending := fun it : Item => Status_eqb (status it) pending
                                     || Status_eqb (status it) in_progress).
  pose proof (count_updateOne isCompleted itemId f1 _ _ Hfind) as C1.
  pose proof (count_updateOne isCompleted itemId f2 _ _ H1) as C2.
  pose proof (count_updateOne isCompleted itemId f3 _ _ H2) as C3.
  pose proof (count_updateOne isPending itemId f1 _ _ Hfind) as P1.
  pose proof (count_updateOne isPending itemId f2 _ _ H1) as P2.
  pose proof (count_updateOne isPending itemId f3 _ _ H2) as P3.
  assert (Hc0 : isCompleted item = false /\ isPending item = true).
  { unfold isCompleted, isPending. destruct Hitem as [-> | ->]; split; reflexivity. }
  assert (Hc1 : isCompleted (f1 item) = true /\ isPending (f1 item) = false).
  { unfold isCompleted, isPending. rewrite Hs1. split; reflexivity. }
  assert (Hc2 : isCompleted (f2 (f1 item)) = true /\ isPending (f2 (f1 item)) = false).
  { exact Hc1. }
  assert (Hc3 : isCompleted (f3 (f2 (f1 item))) = true
                /\ isPending (f3 (f2 (f1 item))) = false).
  { exact Hc1. }
  destruct Hc0 as [Hc0 Hp0], Hc1 as [Hc1 Hp1], Hc2 as [Hc2 Hp2], Hc3 as [Hc3 Hp3].
  rewrite Hc0, Hc1 in C1. rewrite Hc1, Hc2 in C2. rewrite Hc2, Hc3 in C3.
  rewrite Hp0, Hp1 in P1. rewrite Hp1, Hp2 in P2. rewrite Hp2, Hp3 in P3.
  cbn [Nat.b2n] in C1, C2, C3, P1, P2, P3.
  unfold ListModel.completedItemsCount, ListModel.pendingItemsCount.
  fold isCompleted. fold isPending.
  destruct Hitems as [-> | ->]; lia.
Qed.

Lemma updateItem_moves_counts_witness :
  let r := ListModel.updateItem 8 set_completed
             (loaded list_with_pending_task, world_at_1000 [list_with_pending_task]) in
  ListModel.completedItemsCount (value (fst (snd r))) = 1 /\
  S (ListModel.pendingItemsCount (value (fst (snd r)))) = 1.
Proof.
  apply (updateItem_moves_counts list_with_pending_task 8 pending_task set_completed
           (world_at_1000 [list_with_pending_task]));
    [reflexivity | reflexivity | left; reflexivity | reflexivity].
Defined.

(** ** [addTask], [addMeeting], [addTransaction] *)

Lemma List_findById_dangling {T} (this : Doc T) (w : World) (ref : option ObjectId) :
  dangling w ref ->
  lift (ContactModel.List_findById ref) (this, w) = (Returned None, (this, w)).
Proof.
  intros Hd. destruct ref as [id | ]; [ | reflexivity].
  unfold ContactModel.List_findById, lift, findOne.
  cbn [fst snd collection ListModel_].
  assert (List.find (fun l => ObjectId_eqb (list_id l) id) (Lists w) = None) as ->;
    [ | reflexivity].
  apply find_none_iff. intros l Hl. apply Nat.eqb_neq. intros E.
  apply (Hd l Hl). rewrite E. reflexivity.
Qed.

(** X24: [addTask], [addMeeting] and [addTransaction] on a contact whose
    reference to the default list is null, or names no list of the
    store, throw "Default tasks list not found" (and likewise for
    meetings and transactions); nothing is created and nothing has
    changed. *)
Theorem default_list_not_found (data : ItemData) (this : Doc Contact) (w : World) :
  (dangling w (tasks (defaultLists (value this))) ->
   ContactModel.addTask data (this, w) = (Thrown TasksListNotFound, (this, w))) /\
  (dangling w (meetings (defaultLists (value this))) ->
   ContactModel.addMeeting data (this, w) = (Thrown MeetingsListNotFound, (this, w))) /\
  (dangling w (transactions (defaultLists (value this))) ->
   ContactModel.addTransaction data (this, w)
   = (Thrown TransactionsListNotFound, (this, w))).
Proof.
  split; [ | split]; intros Hd.
  - unfold ContactModel.addTask. unfold bind at 1. cbn [read fst snd].
    rewrite (bind_Returned _ _ _ _ _ (List_findById_dangling this w _ Hd)). reflexivity.
  - unfold ContactModel.addMeeting. unfold bind at 1. cbn [read fst snd].
    rewrite (bind_Returned _ _ _ _ _ (List_findById_dangling this w _ Hd)). reflexivity.
  - unfold ContactModel.addTransaction. unfold bind at 1. cbn [read fst snd].
    rewrite (bind_Returned _ _ _ _ _ (List_findById_dangling this w _ Hd)). reflexivity.
Qed.

Lemma default_list_not_found_witness :
  let s := (loaded contact_with_tasks_only, world_of_Bob [] contact_with_tasks_only []) in
  ContactModel.addTask (bare_item "Call Bob") s = (Thrown TasksListNotFound, s) /\
  ContactModel.addMeeting (bare_item "Call Bob") s = (Thrown MeetingsListNotFound, s).
Proof.
  intros s.
  destruct (default_list_not_found (bare_item "Call Bob") (loaded contact_with_tasks_only)
              (world_of_Bob [] contact_with_tasks_only [])) as (H1 & H2 & _).
  split; [apply H1 | apply H2]; intros l [].
Defined.

(** ** The hook, then [addTask] *)

(** One default list made and saved, with what the list holds. *)
Lemma default_list_made {T} (d : Doc T) w owner type name description color_
    contactOwner_ :
  faults w = [] ->
  (forall l, In l (Lists w) -> list_id l < nextObjectId w) ->
  exists l0 l w1 w2,
    lift (ContactModel.new_List owner type name description color_ true contactOwner_)
      (d, w) = (Returned l0, (d, w1)) /\
    call l0 save (d, w1) = (Returned (tt, loaded l), (d, w2)) /\
    (list_id l = nextObjectId w /\ items l = [] /\
     defaultAlarmTime (settings l) = Some 30%Z) /\
    (faults w2 = [] /\ Lists w2 = (Lists w ++ [l])%list /\
     nextObjectId w2 = S (nextObjectId w) /\
     forall x, In x (Lists w2) -> list_id x < nextObjectId w2).
Proof.
  intros Hf Hfresh.
  eexists. eexists. eexists. eexists.
  split; [apply new_List_run | ].
  split.
  - apply save_new_list_run; [exact Hf | ].
    apply (fresh_id_not_taken _ (nextObjectId w)); [exact Hfresh | simpl; lia].
  - split; [repeat split | ].
    cbn [faults Lists nextObjectId Contacts with_Lists with_ticks with_nextObjectId].
    repeat split; try assumption.
    intros x Hx. apply in_app_or in Hx. destruct Hx as [Hx | [<- | []]].
    + specialize (Hfresh x Hx). lia.
    + simpl. lia.
Qed.

(** The hook, when it runs and the store takes every write, with the
    tasks list that it leaves in the store. *)
Lemma post_save_tasks_list (doc : Doc Contact) (w : World) :
  isNew doc = true \/
  defaultLists (value doc) = {| tasks := None; meetings := None; transactions := None |} ->
  faults w = [] ->
  (forall l, In l (Lists w) -> list_id l < nextObjectId w) ->
  exists lt doc' w',
    ContactModel.post_save (doc, w) = (Returned tt, (doc', w')) /\
    contact_id (value doc') = contact_id (value doc) /\
    tasks (defaultLists (value doc')) = Some (list_id lt) /\
    findById list_id (list_id lt) (Lists w') = Some lt /\
    items lt = [] /\ defaultAlarmTime (settings lt) = Some 30%Z /\
    faults w' = [].
Proof.
  intros Hguard Hf Hfresh.
  unfold ContactModel.post_save.
  unfold bind at 1. cbn [read_isNew fst snd].
  unfold bind at 1. cbn [read fst snd].
  assert (Hg : isNew doc
               || negb (JS.truthy_object (tasks (defaultLists (value doc))))
                  && negb (JS.truthy_object (meetings (defaultLists (value doc))))
                  && negb (JS.truthy_object (transactions (defaultLists (value doc))))
               = true).
  { destruct Hguard as [-> | ->]; [reflexivity | apply orb_true_r]. }
  rewrite Hg.
  unfold try_catch.
  destruct (default_list_made doc w (contact_owner (value doc)) task
              (contact_name (value doc) ++ " - Tasks")
              ("Default tasks list for " ++ contact_name (value doc))
              "#3B82F6" (contact_id (value doc)) Hf Hfresh)
    as (t0 & lt & w1 & w2 & E1 & E2 & (Hid & Hitems & Hlead) & Hf2 & HL2 & Hn2 & Hfresh2).
  rewrite (bind_Returned _ _ _ _ _ E1), (bind_Returned _ _ _ _ _ E2). cbn [snd].
  destruct (default_list_made doc w2 (contact_owner (value doc)) meeting
              (contact_name (value doc) ++ " - Meetings")
              ("Default meetings list for " ++ contact_name (value doc))
              "#10B981" (contact_id (value doc)) Hf2 Hfresh2)
    as (m0 & lm & w3 & w4 & E3 & E4 & _ & Hf4 & HL4 & Hn4 & Hfresh4).
  rewrite (bind_Returned _ _ _ _ _ E3), (bind_Returned _ _ _ _ _ E4). cbn [snd].
  destruct (default_list_made doc w4 (contact_owner (value doc)) transaction
              (contact_name (value doc) ++ " - Transactions")
              ("Default transactions list for " ++ contact_name (value doc))
              "#F59E0B" (contact_id (value doc)) Hf4 Hfresh4)
    as (x0 & lx & w5 & w6 & E5 & E6 & _ & Hf6 & HL6 & Hn6 & Hfresh6).
  rewrite (bind_Returned _ _ _ _ _ E5), (bind_Returned _ _ _ _ _ E6). cbn [snd].
  rewrite (bind_Returned _ _ _ _ _ (store_write_run doc w6 _ Hf6)).
  cbn [assign fst snd value loaded].
  exists lt. eexists. eexists. split; [reflexivity | ].
  cbn [value contact_id set_defaultLists defaultLists tasks Lists with_Contacts faults].
  split; [reflexivity | ]. split; [reflexivity | ].
  split; [ | auto].
  rewrite HL6, HL4, HL2, <- !app_assoc. unfold findById.
  rewrite find_app.
  assert (List.find (fun d => ObjectId_eqb (list_id d) (list_id lt)) (Lists w) = None) as ->.
  { apply (findById_fresh _ (nextObjectId w)); [assumption | lia]. }
  cbn [app List.find]. unfold ObjectId_eqb. rewrite Nat.eqb_refl. reflexivity.
Qed.

(** X25: the hook, then [addTask].  After the hook has run for a
    contact and the store has taken every write, [addTask] on that
    contact returns the item that it stores: the tasks list that the
    contact refers to holds this one item, the item is related to the
    contact, and its title is the title of the payload, trimmed. *)
Theorem post_save_then_addTask (doc : Doc Contact) (w : World) (taskData : ItemData) :
  isNew doc = true \/
  defaultLists (value doc) = {| tasks := None; meetings := None; transactions := None |} ->
  faults w = [] ->
  (forall l, In l (Lists w) -> list_id l < nextObjectId w) ->
  let r1 := ContactModel.post_save (doc, w) in
  let r2 := ContactModel.addTask taskData (snd r1) in
  exists item listId stored,
    fst r2 = Returned (Some item) /\
    tasks (defaultLists (value (fst (snd r1)))) = Some listId /\
    findById list_id listId (Lists (snd (snd r2))) = Some stored /\
    items stored = [item] /\
    relatedContact item = Some (contact_id (value doc)) /\
    title item = JS.trim (id_title taskData).
Proof.
  intros Hguard Hf Hfresh r1 r2. subst r2 r1.
  destruct (post_save_tasks_list doc w Hguard Hf Hfresh)
    as (lt & doc' & w' & R1 & Hcid & Href & Hstored & Hitems & _ & Hf').
  rewrite R1. cbn [fst snd].
  set (d' := ContactModel.with_relatedContact (contact_id (value doc')) taskData).
  destruct (addItem_run lt d' w' Hf')
    as (payload & item & l' & w'' & R2 & (_ & Hrel & Htitle & _) & (Hl' & _) & _ & HL).
  assert (R : ContactModel.addTask taskData (doc', w')
              = (Returned (Some item), (doc', w''))).
  { unfold ContactModel.addTask. unfold bind at 1. cbn [read fst snd]. rewrite Href.
    unfold bind at 1, lift at 1, ContactModel.List_findById, findOne.
    cbn [fst snd collection ListModel_].
    change (find (fun l => ObjectId_eqb (list_id l) (list_id lt)) (Lists w'))
      with (findById list_id (list_id lt) (Lists w')).
    rewrite Hstored. cbn [option_map].
    unfold bind at 1. cbn [read fst snd].
    unfold bind at 1, call at 1. cbn [fst snd]. fold d'. rewrite R2. reflexivity. }
  rewrite R. cbn [fst snd].
  exists item, (list_id lt). eexists.
  split; [reflexivity | ]. split; [exact Href | ].
  split.
  { rewrite HL, findById_updateOne_same by reflexivity. rewrite Hstored. reflexivity. }
  cbn [items set_items set_list_updatedAt]. rewrite Hitems.
  split; [reflexivity | ].
  rewrite Hrel, Htitle. unfold d'. cbn [id_relatedContact id_title
                                         ContactModel.with_relatedContact].
  rewrite Hcid. split; reflexivity.
Qed.

Lemma post_save_then_addTask_witness :
  let r1 := ContactModel.post_save
              (constructed contact_just_created,
               world_of_Bob [] contact_just_created []) in
  let r2 := ContactModel.addTask (bare_item "  Call Bob ") (snd r1) in
  exists item listId stored,
    fst r2 = Returned (Some item) /\
    tasks (defaultLists (value (fst (snd r1)))) = Some listId /\
    findById list_id listId (Lists (snd (snd r2))) = Some stored /\
    items stored = [item] /\
    relatedContact item = Some 5 /\
    title item = "Call Bob".
Proof.
  apply (post_save_then_addTask (constructed contact_just_created)
           (world_of_Bob [] contact_just_created []) (bare_item "  Call Bob ")).
  - left. reflexivity.
  - reflexivity.
  - intros l [].
Defined.

(** ** A failure that the hook has swallowed *)

(** The hook returns; and if it has printed something, the document in
    memory is as it was. *)
Lemma post_save_printed (doc : Doc Contact) (w : World) :
  exists s',
    ContactModel.post_save (doc, w) = (Returned tt, s') /\
    (fst s' = doc \/ console (snd s') = console w).
Proof.
  unfold ContactModel.post_save.
  unfold bind at 1. cbn [read_isNew fst snd].
  unfold bind at 1. cbn [read fst snd].
  destruct (isNew doc || _); [ | eexists; split; [reflexivity | left; reflexivity]].
  unfold try_catch.
  rewrite (bind_Returned _ _ _ _ _ (new_List_run doc w _ _ _ _ _ _ _)).
  match goal with
  | |- context [bind (call ?l save) _ (doc, ?w1)] =>
      destruct (save_list_cases doc l w1) as (w2 & _ & HK2 & [[lt E] | [e E]])
  end.
  2:{ rewrite (bind_Thrown _ _ _ _ _ E).
      eexists. split; [reflexivity | ]. left. reflexivity. }
  rewrite (bind_Returned _ _ _ _ _ E). cbn [snd].
  rewrite (bind_Returned _ _ _ _ _ (new_List_run doc w2 _ _ _ _ _ _ _)).
  match goal with
  | |- context [bind (call ?l save) _ (doc, ?w3)] =>
      destruct (save_list_cases doc l w3) as (w4 & _ & HK4 & [[lm E'] | [e E']])
  end.
  2:{ rewrite (bind_Thrown _ _ _ _ _ E').
      eexists. split; [reflexivity | ]. left. reflexivity. }
  rewrite (bind_Returned _ _ _ _ _ E'). cbn [snd].
  rewrite (bind_Returned _ _ _ _ _ (new_List_run doc w4 _ _ _ _ _ _ _)).
  match goal with
  | |- context [bind (call ?l save) _ (doc, ?w5)] =>
      destruct (save_list_cases doc l w5) as (w6 & _ & HK6 & [[lx E''] | [e E'']])
  end.
  2:{ rewrite (bind_Thrown _ _ _ _ _ E'').
      eexists. split; [reflexivity | ]. left. reflexivity. }
  rewrite (bind_Returned _ _ _ _ _ E''). cbn [snd].
  assert (HKw : console w6 = console w).
  { rewrite HK6. cbn [console with_ticks with_nextObjectId].
    rewrite HK4. cbn [console with_ticks with_nextObjectId].
    rewrite HK2. reflexivity. }
  unfold bind at 1, lift at 1, store_write. cbn [fst snd].
  destruct (faults w6) as [ | [ | ] rest].
  - eexists. split; [reflexivity | ]. right.
    cbn [assign fst snd console with_Contacts]. exact HKw.
  - eexists. split; [reflexivity | ]. left. reflexivity.
  - eexists. split; [reflexivity | ]. right.
    cbn [assign fst snd console with_Contacts with_faults]. exact HKw.
Qed.

(** X26: a failure that the hook has swallowed comes out later.  When
    the hook has run for a contact without default lists and has printed
    an error, it has returned all the same and the contact is still
    without them: [addTask], [addMeeting] and [addTransaction] on the
    contact then throw their "Default ... list not found". *)
Theorem swallowed_failure_surfaces (doc : Doc Contact) (w : World) (data : ItemData) :
  defaultLists (value doc) = {| tasks := None; meetings := None; transactions := None |} ->
  let r1 := ContactModel.post_save (doc, w) in
  console (snd (snd r1)) <> console w ->
  fst r1 = Returned tt /\
  fst (ContactModel.addTask data (snd r1)) = Thrown TasksListNotFound /\
  fst (ContactModel.addMeeting data (snd r1)) = Thrown MeetingsListNotFound /\
  fst (ContactModel.addTransaction data (snd r1)) = Thrown TransactionsListNotFound.
Proof.
  intros Hnone r1. subst r1.
  destruct (post_save_printed doc w) as ([doc' w'] & R & H). rewrite R. cbn [fst snd] in *.
  intros Hconsole. destruct H as [-> | H]; [ | contradiction].
  assert (Hd : forall ref, ref = None -> dangling w' ref).
  { intros ref -> l _. discriminate. }
  split; [reflexivity | ]. split; [ | split].
  - unfold ContactModel.addTask. unfold bind at 1. cbn [read fst snd].
    rewrite (bind_Returned _ _ _ _ _ (List_findById_dangling doc w' _
                                        (Hd _ (f_equal tasks Hnone)))).
    reflexivity.
  - unfold ContactModel.addMeeting. unfold bind at 1. cbn [read fst snd].
    rewrite (bind_Returned _ _ _ _ _ (List_findById_dangling doc w' _
                                        (Hd _ (f_equal meetings Hnone)))).
    reflexivity.
  - unfold ContactModel.addTransaction. unfold bind at 1. cbn [read fst snd].
    rewrite (bind_Returned _ _ _ _ _ (List_findById_dangling doc w' _
                                        (Hd _ (f_equal transactions Hnone)))).
    reflexivity.
Qed.

Lemma swallowed_failure_surfaces_witness :
  let r1 := ContactModel.post_save
              (constructed contact_just_created,
               world_of_Bob [true] contact_just_created []) in
  fst r1 = Returned tt /\
  fst (ContactModel.addTask (bare_item "Call Bob") (snd r1)) = Thrown TasksListNotFound /\
  fst (ContactModel.addMeeting (bare_item "Call Bob") (snd r1))
  = Thrown MeetingsListNotFound /\
  fst (ContactModel.addTransaction (bare_item "Call Bob") (snd r1))
  = Thrown TransactionsListNotFound.
Proof.
  apply (swallowed_failure_surfaces (constructed contact_just_created)
           (world_of_Bob [true] contact_just_created []) (bare_item "Call Bob")).
  - reflexivity.
  - vm_compute. discriminate.
Defined.

(** ** [getTotalPossibleCodes] and [isValidCode] *)

Lemma NoDup_list_prod {A B} (l : list A) (l' : list B) :
  NoDup l -> NoDup l' -> NoDup (list_prod l l').
Proof.
  intros Hl Hl'. induction Hl as [ | x l Hx Hl IH]; cbn [list_prod]; [constructor | ].
  apply NoDup_app.
  - apply NoDup_map_NoDup_ForallPairs; [ | exact Hl'].
    intros a b _ _ E. injection E as ->. reflexivity.
  - exact IH.
  - intros [a b] Hin Hin'. apply in_map_iff in Hin. destruct Hin as (b' & E & _).
    injection E as <- <-. apply in_prod_iff in Hin'. destruct Hin' as [Hin' _].
    exact (Hx Hin').
Qed.

Lemma NoDup_consonants : NoDup (letters shareCodeGenerator.consonants).
Proof.
  unfold letters. cbn.
  repeat (constructor;
          [cbn; intros H; repeat (destruct H as [H | H]; [discriminate H | ]); exact H | ]).
  constructor.
Qed.

Lemma NoDup_vowels : NoDup (letters shareCodeGenerator.vowels).
Proof.
  unfold letters. cbn.
  repeat (constructor;
          [cbn; intros H; repeat (destruct H as [H | H]; [discriminate H | ]); exact H | ]).
  constructor.
Qed.

Lemma consonant_letter (c : ascii) :
  In c (letters shareCodeGenerator.consonants) ->
  member shareCodeGenerator.consonants c = true /\ JS.toUpperCaseChar c = c.
Proof.
  unfold letters. cbn. intros H.
  repeat (destruct H as [<- | H]; [split; reflexivity | ]). contradiction.
Qed.

Lemma vowel_letter (c : ascii) :
  In c (letters shareCodeGenerator.vowels) ->
  member shareCodeGenerator.vowels c = true /\ JS.toUpperCaseChar c = c.
Proof.
  unfold letters. cbn. intros H.
  repeat (destruct H as [<- | H]; [split; reflexivity | ]). contradiction.
Qed.

Lemma isValidCode_length (code : string) :
  shareCodeGenerator.isValidCode code = true -> String.length code = 5.
Proof.
  unfold shareCodeGenerator.isValidCode.
  destruct (Nat.eqb_spec (String.length code) 5) as [E | E]; [auto | ].
  rewrite orb_true_r. discriminate.
Qed.

Lemma all_codes_iff (code : string) :
  In code all_codes <->
  shareCodeGenerator.isValidCode code = true /\ JS.toUpperCase code = code.
Proof.
  unfold all_codes. rewrite in_map_iff. split.
  - intros ([c1 [v1 [c2 [v2 c3]]]] & <- & Hin).
    repeat (apply in_prod_iff in Hin; destruct Hin as [? Hin]).
    repeat match goal with
           | H : In _ (letters shareCodeGenerator.consonants) |- _ =>
               apply consonant_letter in H; destruct H as [? ?]
           | H : In _ (letters shareCodeGenerator.vowels) |- _ =>
               apply vowel_letter in H; destruct H as [? ?]
           end.
    rewrite isValidCode_five. cbn [JS.toUpperCase].
    repeat match goal with
           | H : JS.toUpperCaseChar _ = _ |- _ => rewrite H; clear H
           end.
    repeat match goal with
           | H : member _ _ = true |- _ => rewrite H; clear H
           end.
    split; reflexivity.
  - intros [Hvalid Hupper].
    pose proof (isValidCode_length code Hvalid) as L.
    destruct (string_of_length_S _ _ L) as (c1 & s1 & -> & L1).
    destruct (string_of_length_S _ _ L1) as (v1 & s2 & -> & L2).
    destruct (string_of_length_S _ _ L2) as (c2 & s3 & -> & L3).
    destruct (string_of_length_S _ _ L3) as (v2 & s4 & -> & L4).
    destruct (string_of_length_S _ _ L4) as (c3 & s5 & -> & L5).
    apply string_of_length_0 in L5. subst s5.
    cbn [JS.toUpperCase] in Hupper. injection Hupper as U1 U2 U3 U4 U5.
    rewrite isValidCode_five, U1, U2, U3, U4, U5 in Hvalid.
    repeat (apply andb_true_iff in Hvalid; destruct Hvalid as [Hvalid ?]).
    exists (c1, (v1, (c2, (v2, c3)))). split; [reflexivity | ].
    repeat apply in_prod;
      first [apply consonant_facts; assumption | apply vowel_facts; assumption].
Qed.

Lemma NoDup_all_codes : NoDup all_codes.
Proof.
  unfold all_codes. apply NoDup_map_NoDup_ForallPairs.
  - intros [a1 [b1 [c1 [d1 e1]]]] [a2 [b2 [c2 [d2 e2]]]] _ _ E.
    injection E as -> -> -> -> ->. reflexivity.
  - repeat apply NoDup_list_prod; first [exact NoDup_consonants | exact NoDup_vowels].
Qed.

(** X27: [getTotalPossibleCodes()] is the number of codes there are:
    the strings in upper case that [isValidCode] accepts are that many,
    21 * 5 * 21 * 5 * 21 = 231525. *)
Theorem getTotalPossibleCodes_counts_codes :
  shareCodeGenerator.getTotalPossibleCodes = 231525%Z /\
  exists codes : list string,
    NoDup codes /\
    (forall code, In code codes <->
                  shareCodeGenerator.isValidCode code = true /\
                  JS.toUpperCase code = code) /\
    Z.of_nat (List.length codes) = shareCodeGenerator.getTotalPossibleCodes.
Proof.
  split; [reflexivity | ].
  exists all_codes. split; [exact NoDup_all_codes | ].
  split; [exact all_codes_iff | exact all_codes_length].
Qed.

(** ** The virtual [overdueItems] *)

(** X28: the virtual [overdueItems] reads the clock once and gives
    items of the list that have a due date before that reading and
    whose status is pending or in progress; so there are never more
    overdue items than [pendingItemsCount] counts. *)
Theorem overdueItems_are_pending (this : Doc ListDoc) (w : World) :
  exists overdue,
    ListModel.overdueItems (this, w) = (Returned overdue, (this, with_ticks (S (ticks w)) w)) /\
    List.length overdue <= ListModel.pendingItemsCount (value this) /\
    forall item,
      In item overdue ->
      In item (items (value this)) /\
      (exists due, dueDate item = Some due /\ (due < clock w (ticks w))%Z) /\
      (status item = pending \/ status item = in_progress).
Proof.
  eexists. split; [reflexivity | ].
  cbn [fst snd]. unfold ListModel.pendingItemsCount.
  generalize (items (value this)) as l. intros l. split.
  - induction l as [ | x l IH]; [cbn; lia | ]. cbn [List.filter].
    destruct (dueDate x) as [due | ]; cbn [andb].
    + destruct (due <? clock w (ticks w))%Z; cbn [andb].
      * destruct (status x); cbn [Status_eqb negb andb orb List.length]; lia.
      * destruct (Status_eqb (status x) pending || Status_eqb (status x) in_progress);
          cbn [List.length]; lia.
    + destruct (Status_eqb (status x) pending || Status_eqb (status x) in_progress);
        cbn [List.length]; lia.
  - intros item Hin. apply filter_In in Hin. destruct Hin as [Hin Hp].
    split; [exact Hin | ].
    apply andb_true_iff in Hp. destruct Hp as [Hp Hcancelled].
    apply andb_true_iff in Hp. destruct Hp as [Hdue Hcompleted].
    split.
    + destruct (dueDate item) as [due | ]; [ | discriminate].
      exists due. split; [reflexivity | ]. apply Z.ltb_lt. exact Hdue.
    + destruct (status item); try discriminate; auto.
Qed.

(** ** [validateUser] and [validateProfessionFields] *)

Lemma push_if_nil (b : bool) (m : string) :
  userValidator.push_if b m [] = [] <-> b = false.
Proof. destruct b; cbn; split; congruence. Qed.

Lemma too_long_false (name : option string) :
  userValidator.too_long name = false <->
  forall s, name = Some s -> String.length s <= 200.
Proof.
  unfold userValidator.too_long. destruct name as [s | ].
  - rewrite andb_false_iff, Nat.ltb_ge. split.
    + intros [H | H] s' E; injection E as <-; [ | exact H].
      destruct s; [cbn; lia | discriminate H].
    + intros H. right. exact (H s eq_refl).
  - split; [intros _ s E; discriminate E | reflexivity].
Qed.

Lemma year_passes (y : option Z) :
  match y with
  | Some y => JS.truthy_number y && ((y <? 1)%Z || (10 <? y)%Z)
  | None => false
  end = false <->
  forall y', y = Some y' -> y' = 0%Z \/ (1 <= y' <= 10)%Z.
Proof.
  destruct y as [y | ].
  - unfold JS.truthy_number.
    rewrite andb_false_iff, negb_false_iff, orb_false_iff, Z.eqb_eq, !Z.ltb_ge. split.
    + intros H y' E. injection E as <-. lia.
    + intros H. specialize (H y eq_refl). lia.
  - split; [intros _ y' E; discriminate E | reflexivity].
Qed.

Lemma validateProfessionFields_nil_iff (userData : userValidator.UserData) :
  userValidator.validateProfessionFields userData = [] <->
  profession_fields_pass userData.
Proof.
  unfold userValidator.validateProfessionFields, profession_fields_pass.
  destruct (userValidator.ud_professionType userData) as [t | ];
    [ | split; [intros _ t E; discriminate E | reflexivity]].
  destruct (String.eqb_spec t "salaried") as [-> | N1].
  { destruct (userValidator.ud_salariedInfo userData) as [info | ].
    - rewrite push_if_nil, too_long_false. split.
      + intros H t E. injection E as <-.
        split; [ | split; [intros [E | E]; discriminate E | intros E; discriminate E]].
        intros _ info' name E. injection E as <-. apply H.
      + intros H name E. exact (proj1 (H _ eq_refl) eq_refl info name eq_refl E).
    - split; [ | reflexivity]. intros _ t E. injection E as <-.
      split; [ | split; [intros [E | E]; discriminate E | intros E; discriminate E]].
      intros _ info name E. discriminate E. }
  destruct (String.eqb_spec t "business") as [-> | N2].
  { cbn [orb].
    destruct (userValidator.ud_businessInfo userData) as [info | ].
    - rewrite push_if_nil, too_long_false. split.
      + intros H t E. injection E as <-.
        split; [intros E; discriminate E | split; [ | intros E; discriminate E]].
        intros _ info' name E. injection E as <-. apply H.
      + intros H name E.
        exact (proj1 (proj2 (H _ eq_refl)) (or_introl eq_refl) info name eq_refl E).
    - split; [ | reflexivity]. intros _ t E. injection E as <-.
      split; [intros E; discriminate E | split; [ | intros E; discriminate E]].
      intros _ info name E. discriminate E. }
  destruct (String.eqb_spec t "freelancer") as [-> | N3].
  { cbn [orb].
    destruct (userValidator.ud_businessInfo userData) as [info | ].
    - rewrite push_if_nil, too_long_false. split.
      + intros H t E. injection E as <-.
        split; [intros E; discriminate E | split; [ | intros E; discriminate E]].
        intros _ info' name E. injection E as <-. apply H.
      + intros H name E.
        exact (proj1 (proj2 (H _ eq_refl)) (or_intror eq_refl) info name eq_refl E).
    - split; [ | reflexivity]. intros _ t E. injection E as <-.
      split; [intros E; discriminate E | split; [ | intros E; discriminate E]].
      intros _ info name E. discriminate E. }
  cbn [orb].
  destruct (String.eqb_spec t "student") as [-> | N4].
  { destruct (userValidator.ud_studentInfo userData) as [info | ].
    - rewrite push_if_nil, year_passes. split.
      + intros H t E. injection E as <-.
        split; [intros E; discriminate E | split; [intros [E | E]; discriminate E | ]].
        intros _ info' y E. injection E as <-. apply H.
      + intros H y E. exact (proj2 (proj2 (H _ eq_refl)) eq_refl info y eq_refl E).
    - split; [ | reflexivity]. intros _ t E. injection E as <-.
      split; [intros E; discriminate E | split; [intros [E | E]; discriminate E | ]].
      intros _ info y E. discriminate E. }
  split; [ | reflexivity]. intros _ t' E. injection E as <-.
  split; [intros E; contradiction | split; [intros [E | E]; contradiction | ]].
  intros E. contradiction.
Qed.

Lemma validateUser_isValid (userData : userValidator.UserData) :
  userValidator.isValid (userValidator.validateUser userData)
  = negb (userValidator.blank (userValidator.ud_fullName userData))
    && negb (negb (JS.truthy_opt JS.truthy_string (userValidator.ud_email userData))
             || negb (JS.truthy_opt userValidator.isValidEmail
                        (userValidator.ud_email userData)))
    && negb (negb (JS.truthy_opt JS.truthy_string (userValidator.ud_password userData))
             || match userValidator.ud_password userData with
                | Some p => String.length p <? 6
                | None => false
                end)
    && JS.truthy_opt JS.truthy_string (userValidator.ud_professionType userData)
    && JS.truthy_opt userValidator.known_profession
         (userValidator.ud_professionType userData)
    && Nat.eqb (List.length (userValidator.validateProfessionFields userData)) 0.
Proof.
  unfold userValidator.validateUser.
  destruct (userValidator.blank _),
    (negb (JS.truthy_opt JS.truthy_string (userValidator.ud_email userData))
     || negb (JS.truthy_opt userValidator.isValidEmail (userValidator.ud_email userData))),
    (negb (JS.truthy_opt JS.truthy_string (userValidator.ud_password userData))
     || match userValidator.ud_password userData with
        | Some p => String.length p <? 6
        | None => false
        end),
    (JS.truthy_opt JS.truthy_string (userValidator.ud_professionType userData)),
    (JS.truthy_opt userValidator.known_profession
       (userValidator.ud_professionType userData));
    reflexivity.
Qed.

(** X29: [validateUser] reports no error exactly when the full name is
    given and not blank, the email passes [isValidEmail], the password
    has six characters or more, the profession type is one of salaried,
    freelancer, business and student, and the fields of that profession
    pass: a company or business name of at most 200 characters, a
    student's year that is 0 or between 1 and 10.  (A year of 0 is let
    through, and the fields of another profession are not looked at.) *)
Theorem validateUser_accepts_iff (userData : userValidator.UserData) :
  userValidator.isValid (userValidator.validateUser userData) = true <->
  (exists name, userValidator.ud_fullName userData = Some name /\
                JS.trim name <> EmptyString) /\
  (exists email_, userValidator.ud_email userData = Some email_ /\
                  userValidator.isValidEmail email_ = true) /\
  (exists password, userValidator.ud_password userData = Some password /\
                    6 <= String.length password) /\
  (exists t, userValidator.ud_professionType userData = Some t /\
             In t ["salaried"; "freelancer"; "business"; "student"]) /\
  profession_fields_pass userData.
Proof.
  rewrite validateUser_isValid, !andb_true_iff, negb_true_iff, not_blank_iff.
  rewrite <- validateProfessionFields_nil_iff.
  assert (Hemail :
            negb (negb (JS.truthy_opt JS.truthy_string (userValidator.ud_email userData))
                  || negb (JS.truthy_opt userValidator.isValidEmail
                             (userValidator.ud_email userData))) = true <->
            exists email_, userValidator.ud_email userData = Some email_ /\
                           userValidator.isValidEmail email_ = true).
  { destruct (userValidator.ud_email userData) as [e | ]; cbn [JS.truthy_opt].
    - rewrite negb_true_iff, orb_false_iff, !negb_false_iff. split.
      + intros [_ H]. exists e. auto.
      + intros (e' & E & H). injection E as <-. split; [ | exact H].
        apply truthy_string_iff. intros ->. discriminate H.
    - split; [discriminate | ]. intros (e' & E & _). discriminate E. }
  assert (Hpassword :
            negb (negb (JS.truthy_opt JS.truthy_string
                          (userValidator.ud_password userData))
                  || match userValidator.ud_password userData with
                     | Some p => String.length p <? 6
                     | None => false
                     end) = true <->
            exists password, userValidator.ud_password userData = Some password /\
                             6 <= String.length password).
  { destruct (userValidator.ud_password userData) as [p | ]; cbn [JS.truthy_opt].
    - rewrite negb_true_iff, orb_false_iff, negb_false_iff, Nat.ltb_ge. split.
      + intros [_ H]. exists p. auto.
      + intros (p' & E & H). injection E as <-. split; [ | exact H].
        apply truthy_string_iff. intros ->. cbn in H. lia.
    - split; [discriminate | ]. intros (p' & E & _). discriminate E. }
  assert (Htype :
            JS.truthy_opt JS.truthy_string (userValidator.ud_professionType userData) = true
            /\ JS.truthy_opt userValidator.known_profession
                 (userValidator.ud_professionType userData) = true <->
            exists t, userValidator.ud_professionType userData = Some t /\
                      In t ["salaried"; "freelancer"; "business"; "student"]).
  { destruct (userValidator.ud_professionType userData) as [t | ]; cbn [JS.truthy_opt].
    - unfold userValidator.known_profession. rewrite existsb_exists. split.
      + intros [_ (x & Hin & E)]. apply String.eqb_eq in E. subst x. exists t. auto.
      + intros (t' & E & Hin). injection E as <-. split.
        * apply truthy_string_iff. intros ->.
          destruct Hin as [E | [E | [E | [E | []]]]]; discriminate E.
        * exists t. split; [exact Hin | apply String.eqb_refl].
    - split; [intros [H _]; discriminate H | ]. intros (t' & E & _). discriminate E. }
  assert (Hnil : Nat.eqb (List.length (userValidator.validateProfessionFields userData)) 0
                 = true <-> userValidator.validateProfessionFields userData = []).
  { destruct (userValidator.validateProfessionFields userData); cbn; split; congruence. }
  rewrite Hemail, Hpassword, Hnil. tauto.
Qed.
